(** * Device-residency mirror builder (QuickSilver [copyDomainDevice]) and
    the [math_bfe] comparison test: a shallow embedding and its
    properties.

    Sources embedded here:
    - [third-party-programs/Velocity-Bench/QuickSilver/migrated/MC_Domain.hh]
    - [help_function/src/math_bfe.cpp] *)

From Stdlib Require Import ZArith Lia List Bool.
From Stdlib.Strings Require Import Byte.
From stdpp Require Import base option list.

Local Open Scope Z_scope.

(** ** Part I: [math_bfe.cpp] *)

Module MathBfe.

(** The element types [test] is instantiated at. *)
Record int_type := IntType { sizeof : Z; is_signed : bool }.

Definition int32_t := IntType 4 true.
Definition uint32_t := IntType 4 false.
Definition int64_t := IntType 8 true.
Definition uint64_t := IntType 8 false.

Definition CHAR_BIT : Z := 8.
Definition UINT_MAX : Z := 2 ^ 32 - 1.

Definition bit_width (T : int_type) : Z := CHAR_BIT * sizeof T.

(** Conversion of a mathematical integer to [T] (two's complement
    wrap-around). *)
Definition to_T (T : int_type) (v : Z) : Z :=
  let m := v mod 2 ^ bit_width T in
  if is_signed T && (2 ^ (bit_width T - 1) <=? m) then m - 2 ^ bit_width T else m.

(** [std::bitset<W>::to_ullong] for the bitset whose bit [i] is [bs i],
    [0 <= i < W]. *)
Fixpoint to_ullong (W : nat) (bs : Z -> bool) : Z :=
  match W with
  | O => 0
  | S w => to_ullong w bs + (if bs (Z.of_nat w) then 2 ^ Z.of_nat w else 0)
  end.

(** [bfe_slow<T>]: the reference bit-field extraction. *)
Definition bfe_slow (T : int_type) (source bit_start num_bits : Z) : Z :=
  let msb := CHAR_BIT * sizeof T - 1 in
  let pos := Z.land bit_start 0xff in
  let len := Z.land num_bits 0xff in
  let source_bitset := fun k : Z => Z.testbit source k in
  let sbit :=
    if negb (is_signed T) || (len =? 0) then false
    else source_bitset (Z.min (pos + len - 1) msb) in
  let result_bitset := fun i : Z =>
    if (i <? len) && (pos + i <=? msb) then source_bitset (pos + i) else sbit in
  to_T T (to_ullong (Z.to_nat (msb + 1)) result_bitset).

(** The five SYCL buffers of [test]; an accessor is a reference to one of
    them, so two accessors built over the same buffer read the same
    storage. *)
Inductive buffer :=
| source_buffer | dpct_results_buffer | slow_results_buffer
| starts_buffer | lengths_buffer.

Definition buffer_eqb (a b : buffer) : bool :=
  match a, b with
  | source_buffer, source_buffer
  | dpct_results_buffer, dpct_results_buffer
  | slow_results_buffer, slow_results_buffer
  | starts_buffer, starts_buffer
  | lengths_buffer, lengths_buffer => true
  | _, _ => false
  end.

Definition store := buffer -> list Z.

Definition write_buffer (b : buffer) (v : list Z) (st : store) : store :=
  fun b' => if buffer_eqb b b' then v else st b'.

(** [accessor[i]] *)
Definition read (st : store) (accessor : buffer) (i : nat) : Z :=
  nth i (st accessor) 0.

(** The random draws: [rnd k] is the [k]-th value produced by the
    generator; each loop iteration draws a source, a start and a length. *)
Definition initial_store (T : int_type) (rnd : nat -> Z) (N : nat) : store :=
  fun b =>
    match b with
    | source_buffer => map (fun i => to_T T (rnd (3 * i)%nat)) (seq 0 N)
    | starts_buffer => map (fun i => rnd (3 * i + 1)%nat mod (UINT_MAX + 1)) (seq 0 N)
    | lengths_buffer => map (fun i => rnd (3 * i + 2)%nat mod (UINT_MAX + 1)) (seq 0 N)
    | dpct_results_buffer | slow_results_buffer => repeat 0 N
    end.

(** A [parallel_for] over [N] work items, each writing element [i] of the
    result accessor from the three read-only accessors. *)
Definition parallel_for (N : nat) (f : Z -> Z -> Z -> Z)
    (source_accessor start_accessor length_accessor result_accessor : buffer)
    (st : store) : store :=
  write_buffer result_accessor
    (map (fun i => f (read st source_accessor i) (read st start_accessor i)
                     (read st length_accessor i)) (seq 0 N))
    st.

(** The comparison loop: [failed] after visiting the given indices. *)
Fixpoint count_failed (st : store) (dpct_result_accessor slow_result_accessor : buffer)
    (idx : list nat) (failed : Z) : Z :=
  match idx with
  | [] => failed
  | i :: rest =>
      let failed' :=
        if negb (read st dpct_result_accessor i =? read st slow_result_accessor i)
        then failed + 1 else failed in
      count_failed st dpct_result_accessor slow_result_accessor rest failed'
  end.

(** [test<T>(Msg, N)], with [dpct::bfe_safe<T>] (not part of this
    repository's sources) as the parameter [bfe_safe].  Returns the
    number of failures reported and the boolean result. *)
Definition test (T : int_type) (bfe_safe : Z -> Z -> Z -> Z)
    (rnd : nat -> Z) (N : nat) : Z * bool :=
  let st := initial_store T rnd N in
  let st := parallel_for N bfe_safe
              source_buffer starts_buffer lengths_buffer dpct_results_buffer st in
  let st := parallel_for N (bfe_slow T)
              source_buffer starts_buffer lengths_buffer slow_results_buffer st in
  (* host accessors *)
  let dpct_result_accessor := dpct_results_buffer in
  let slow_result_accessor := dpct_results_buffer in
  let failed := count_failed st dpct_result_accessor slow_result_accessor (seq 0 N) 0 in
  (failed, failed =? 0).

(** The values an object of type [T] can hold. *)
Definition in_range (T : int_type) (v : Z) : Prop :=
  if is_signed T
  then - 2 ^ (bit_width T - 1) <= v < 2 ^ (bit_width T - 1)
  else 0 <= v < 2 ^ bit_width T.

(** The buffers of [test] once both kernels have run. *)
Definition kernels_done (T : int_type) (bfe_safe : Z -> Z -> Z -> Z)
    (rnd : nat -> Z) (N : nat) : store :=
  parallel_for N (bfe_slow T)
    source_buffer starts_buffer lengths_buffer slow_results_buffer
    (parallel_for N bfe_safe
       source_buffer starts_buffer lengths_buffer dpct_results_buffer
       (initial_store T rnd N)).

(** The indices at which two accessors read different values. *)
Definition mismatches (st : store) (a b : buffer) (idx : list nat) : list nat :=
  List.filter (fun i => negb (read st a i =? read st b i)) idx.

End MathBfe.

(** ** Part II: [MC_Domain.hh] *)

Module MCDomain.

(** *** Memory model *)

(** An address.  Host addresses name a block of host memory and an element
    offset into it (the per-cell arrays are slices of bulk storage);
    target-space addresses name a whole allocation.  [Wild] is the
    indeterminate content of a pointer that was never assigned. *)
Inductive ptr :=
| Null
| Host (b off : nat)
| Dev (a : nat)
| Wild.

Definition is_target (p : ptr) : bool :=
  match p with Null | Dev _ => true | Host _ _ | Wild => false end.

Definition is_null (p : ptr) : bool :=
  match p with Null => true | _ => false end.

Definition is_host (p : ptr) : bool :=
  match p with Host _ _ => true | _ => false end.

(** Element types of [sycl::malloc_device<T>]. *)
Inductive ctype :=
| T_double | T_int | T_MC_Vector | T_MC_Facet_Adjacency | T_MC_General_Plane
| T_MC_Cell_State | T_MC_Facet_Adjacency_Cell | T_MC_Facet_Geometry_Cell
| T_MC_Domain_d.

(** A [double] is its 64-bit pattern; an [int] its value. *)
Definition double := Z.

(** Types declared in headers that are not among the sources
    ([MC_Vector.hh], [MC_Facet_Adjacency.hh], [MC_Facet_Geometry.hh],
    [MC_Cell_State.hh], [BulkStorage.hh]).  [copyDomainDevice] moves values
    of these types and never inspects them, so each value is taken as its
    object representation, a sequence of bytes.  [MC_Cell_State_rest]
    stands for the members of [MC_Cell_State] other than [_total]. *)
Definition object := list Byte.byte.

Definition MC_Vector := object.
Definition MC_Facet_Adjacency := object.
Definition MC_General_Plane := object.
Definition MC_Cell_State_rest := object.
Definition BulkStorage (T : ctype) := object.

Record MC_Cell_State := {
  _total : ptr;
  cell_rest : MC_Cell_State_rest;
}.

Record MC_Facet_Adjacency_Cell := {
  num_points : Z;
  num_facets : Z;
  _point : ptr;
  _facet : ptr;
}.

(** [MC_Facet_Geometry_Cell]; its member [_facet] is written [_facet_g]
    here. *)
Record MC_Facet_Geometry_Cell := {
  _facet_g : ptr;
  _size : Z;
}.

(** [qs_vector<T>] is a [list T]: the vector's storage, which
    [outputPointer()] gives access to, with [size()] its length. *)
Record MC_Mesh_Domain := {
  _domainGid : Z;
  _nbrDomainGid : list Z;
  _nbrRank : list Z;
  _node : list MC_Vector;
  _cellConnectivity : list MC_Facet_Adjacency_Cell;
  _cellGeometry : list MC_Facet_Geometry_Cell;
  _connectivityFacetStorage : BulkStorage T_MC_Facet_Adjacency;
  _connectivityPointStorage : BulkStorage T_int;
  _geomFacetStorage : BulkStorage T_MC_General_Plane;
}.

Record MC_Domain := {
  domainIndex : Z;
  global_domain : Z;
  cell_state : list MC_Cell_State;
  _cachedCrossSectionStorage : BulkStorage T_double;
  mesh : MC_Mesh_Domain;
}.

(** The mirror types; members that share a name with a host member carry
    the suffix [_d].  [padding_d] stands for the bytes of a descriptor
    that lie between its members: a descriptor is copied as
    [sizeof(MC_Domain_d)] raw bytes, so they travel with the members,
    and no assignment writes them. *)
Record MC_Mesh_Domain_d := {
  _domainGid_d : Z;
  _nbrRank_d : ptr;
  _nbrRankSize : Z;
  _node_d : ptr;
  _nodeSize : Z;
  _cellConnectivity_d : ptr;
  _cellConnectivitySize : Z;
  _cellGeometry_d : ptr;
  _cellGeometrySize : Z;
}.

Record MC_Domain_d := {
  domainIndex_d : Z;
  global_domain_d : Z;
  cell_state_d : ptr;
  cell_stateSize : Z;
  mesh_d : MC_Mesh_Domain_d;
  padding_d : Z;
}.

(** What one element of an array in memory can hold. *)
Inductive elem :=
| EIndet
| EDouble (x : double)
| EInt (i : Z)
| EVector (v : MC_Vector)
| EAdjacency (a : MC_Facet_Adjacency)
| EPlane (g : MC_General_Plane)
| ECellState (c : MC_Cell_State)
| EAdjacencyCell (c : MC_Facet_Adjacency_Cell)
| EGeometryCell (c : MC_Facet_Geometry_Cell)
| EDomain (d : MC_Domain_d).

Abbreviation block := (list elem).
Abbreviation heap := (list (list elem)).

(** Calls issued on the in-order queue, in issue order. *)
Inductive event :=
| EvMalloc (T : ctype) (n : Z) (p : ptr)     (* an allocation that returned [p] *)
| EvMemcpy (dst : ptr) (data : list elem)    (* a copy of [data] to [dst] *)
| EvMemcpyHost (n : Z)                       (* a copy into a host staging array *)
| EvMemcpyFailed.                            (* a copy that threw *)

(** The calls that report their failure: a copy throws, and
    [DPCT_CHECK_ERROR] turns what is thrown into an error code.  An
    allocation does not: [sycl::malloc_device] answers a request it
    cannot satisfy with a null pointer, which the macro does not look
    at. *)
Definition is_fault (e : event) : bool :=
  match e with
  | EvMemcpyFailed => true
  | _ => false
  end.

(** The static type of an array element. *)
Definition has_type (T : ctype) (e : elem) : bool :=
  match T, e with
  | T_double, EDouble _
  | T_int, EInt _
  | T_MC_Vector, EVector _
  | T_MC_Facet_Adjacency, EAdjacency _
  | T_MC_General_Plane, EPlane _
  | T_MC_Cell_State, ECellState _
  | T_MC_Facet_Adjacency_Cell, EAdjacencyCell _
  | T_MC_Facet_Geometry_Cell, EGeometryCell _
  | T_MC_Domain_d, EDomain _ => true
  | _, _ => false
  end.

(** The state the build runs in.
    - [hostm]: host memory, the blocks that the raw pointers of the host
      structure point into;
    - [devm]: the target space, one block per allocation, [Dev a] being
      block [a];
    - [trace]: the calls issued on the queue so far;
    - [fault_at]: the index, counted from the first call ever issued, of
      the call that will fail, if one will;
    - [zero_null]: whether a zero-size allocation returns a null pointer;
    - [junk]: what an uninitialised host [int] reads as.
    Host staging arrays are local to the build and are held as values;
    the host [malloc] that provides them is taken to succeed, and [free]
    has nothing to do. *)
Record world := {
  hostm : heap;
  devm : heap;
  trace : list event;
  fault_at : option nat;
  zero_null : bool;
  junk : Z;
}.

Definition set_devm (m : heap) (w : world) : world :=
  {| hostm := hostm w; devm := m; trace := trace w;
     fault_at := fault_at w; zero_null := zero_null w; junk := junk w |}.

Definition set_hostm (m : heap) (w : world) : world :=
  {| hostm := m; devm := devm w; trace := trace w;
     fault_at := fault_at w; zero_null := zero_null w; junk := junk w |}.

Definition log (e : event) (w : world) : world :=
  {| hostm := hostm w; devm := devm w; trace := trace w ++ [e];
     fault_at := fault_at w; zero_null := zero_null w; junk := junk w |}.

(** The next call fails when the fault schedule names its index. *)
Definition faulty (w : world) : bool :=
  match fault_at w with
  | Some k => Nat.eqb k (length (trace w))
  | None => false
  end.

(** Reading [n] elements through a host pointer of type [T *]: the
    elements must lie inside one block and hold objects of type [T], as
    the pointer's type says they do.  A zero-length read touches no
    memory. *)
Definition read_host (m : heap) (T : ctype) (p : ptr) (n : Z) : option (list elem) :=
  if n <? 0 then None
  else if n =? 0 then Some []
  else match p with
       | Host b off =>
           match m !! b with
           | Some blk =>
               let data := take (Z.to_nat n) (drop off blk) in
               if (off + Z.to_nat n <=? length blk)%nat && forallb (has_type T) data
               then Some data
               else None
           | None => None
           end
       | _ => None
       end.

(** Reading [n] elements through a target-space pointer, looking only at
    allocations numbered [base] or above ([base = 0]: all of them). *)
Definition read_from (base : nat) (m : heap) (p : ptr) (n : Z) : option (list elem) :=
  if n <? 0 then None
  else if n =? 0 then Some []
  else match p with
       | Dev a =>
           if (base <=? a)%nat then
             match m !! a with
             | Some blk =>
                 if (Z.to_nat n <=? length blk)%nat
                 then Some (take (Z.to_nat n) blk)
                 else None
             | None => None
             end
           else None
       | _ => None
       end.

Definition read_dev : heap -> ptr -> Z -> option (list elem) := read_from 0.

(** Writing [data] at the start of a target-space allocation.  An empty
    write touches no memory. *)
Definition store (m : heap) (dst : ptr) (data : list elem) : option heap :=
  match data with
  | [] => Some m
  | _ =>
      match dst with
      | Dev a =>
          match m !! a with
          | Some blk =>
              if (length data <=? length blk)%nat
              then Some (<[a := data ++ drop (length data) blk]> m)
              else None
          | None => None
          end
      | _ => None
      end
  end.

(** Writing [data] through a host pointer: the elements written must lie
    inside one block.  An empty write touches no memory. *)
Definition store_host (m : heap) (dst : ptr) (data : list elem) : option heap :=
  match data with
  | [] => Some m
  | _ =>
      match dst with
      | Host b off =>
          match m !! b with
          | Some blk =>
              if (off + length data <=? length blk)%nat
              then Some (<[b := take off blk ++ data
                                  ++ drop (off + length data) blk]> m)
              else None
          | None => None
          end
      | _ => None
      end
  end.

(** *** Outcomes and the build monad *)

Inductive failure :=
| Aborted      (* [safeCall] terminated the build *)
| Undefined.   (* an access outside any array *)

Inductive outcome (A : Type) :=
| Ok (a : A) (w : world)
| Fail (f : failure) (w : world).
Arguments Ok {A} a w.
Arguments Fail {A} f w.

Definition M (A : Type) := world -> outcome A.

Definition ret {A} (a : A) : M A := fun w => Ok a w.

Definition bind {A B} (m : M A) (k : A -> M B) : M B :=
  fun w => match m w with
           | Ok a w' => k a w'
           | Fail f w' => Fail f w'
           end.

Notation "x <- m ;; k" := (bind m (fun x => k))
  (at level 100, m at next level, right associativity).
Notation "m ;;; k" := (bind m (fun _ => k))
  (at level 100, right associativity).

(** The reply of a runtime call evaluated under [DPCT_CHECK_ERROR]: the
    macro yields an error code when the call throws ([Failed]) and zero
    when it returns, whatever it returns ([Done]); [Broken] is a call
    with no defined behaviour at all. *)
Inductive reply (A : Type) :=
| Done (a : A)
| Failed
| Broken.
Arguments Done {A} a.
Arguments Failed {A}.
Arguments Broken {A}.

Definition call (A : Type) := world -> reply A * world.

(** Modelled from the spec: the macros [safeCall] and [DPCT_CHECK_ERROR]
    are defined in headers that are not among the sources.  The
    specification says that every fallible call is checked immediately
    and that a failure terminates the build; so a failed reply ends the
    run with [Aborted].  What counts as a failed reply is the error code
    of [DPCT_CHECK_ERROR], which evaluates its argument and reports what
    it throws; the value the argument returns is not examined. *)
Definition safeCall {A} (c : call A) : M A :=
  fun w => match c w with
           | (Done a, w') => Ok a w'
           | (Failed, w') => Fail Aborted w'
           | (Broken, w') => Fail Undefined w'
           end.

(** [sycl::malloc_device<T>(n, q)].  A request that cannot be satisfied
    is answered with a null pointer and nothing is thrown, so it is a
    reply like any other.  A negative [int] count converts to a size no
    device can satisfy.  A zero-size request returns either a null
    pointer or a fresh one, as the runtime ([zero_null]) decides.  Fresh
    memory has indeterminate content. *)
Definition malloc_device (T : ctype) (n : Z) : call ptr :=
  fun w =>
    if faulty w || (n <? 0) then (Done Null, log (EvMalloc T n Null) w)
    else if (n =? 0) && zero_null w then (Done Null, log (EvMalloc T n Null) w)
    else
      let p := Dev (length (devm w)) in
      (Done p, log (EvMalloc T n p)
                 (set_devm (devm w ++ [replicate (Z.to_nat n) EIndet]) w)).

(** The source operand of a copy: a host array held by value (a
    [qs_vector]'s storage or a staging array) or a raw host pointer. *)
Inductive source :=
| FromArray (l : list elem)
| FromPtr (T : ctype) (p : ptr).

Definition fetch (m : heap) (src : source) (n : Z) : option (list elem) :=
  match src with
  | FromArray l =>
      if (0 <=? n) && (n <=? Z.of_nat (length l))
      then Some (take (Z.to_nat n) l) else None
  | FromPtr T p => read_host m T p n
  end.

(** [q.memcpy(dst, src, n * sizeof(T)).wait()].  The queue copies to
    wherever [dst] points: into the target space or, as the staging
    copies of the source do, into host memory. *)
Definition memcpy (dst : ptr) (src : source) (n : Z) : call unit :=
  fun w =>
    if faulty w then (Failed, log EvMemcpyFailed w)
    else match fetch (hostm w) src n with
         | None => (Broken, w)
         | Some data =>
             if is_host dst then
               match store_host (hostm w) dst data with
               | None => (Broken, w)
               | Some m' => (Done tt, log (EvMemcpy dst data) (set_hostm m' w))
               end
             else
               match store (devm w) dst data with
               | None => (Broken, w)
               | Some m' => (Done tt, log (EvMemcpy dst data) (set_devm m' w))
               end
         end.

(** [T *h = (T * ) malloc(n * sizeof(T)); q.memcpy(h, src, n * sizeof(T)).wait()]:
    a host staging array of exactly [n] elements filled from a host
    array; the copy goes through the queue and can fail. *)
Definition memcpy_staging {A} (src : list A) (n : Z) : call (list A) :=
  fun w =>
    if faulty w then (Failed, log EvMemcpyFailed w)
    else if (0 <=? n) && (n <=? Z.of_nat (length src))
         then (Done (take (Z.to_nat n) src), log (EvMemcpyHost n) w)
         else (Broken, w).

(** [(T * ) malloc(n * sizeof(T))]: a host staging array with indeterminate
    content; [indet] builds an element from the value found in
    uninitialised [int]s. *)
Definition malloc {A} (indet : Z -> A) (n : Z) : M (list A) :=
  fun w => Ok (replicate (Z.to_nat n) (indet (junk w))) w.

(** [v.size()] *)
Definition size {A} (v : list A) : Z := Z.of_nat (length v).

(** [v[i]] as an rvalue. *)
Definition index {A} (v : list A) (i : nat) : M A :=
  fun w => match v !! i with
           | Some x => Ok x w
           | None => Fail Undefined w
           end.

(** [v[i]] as an lvalue: [f] runs on the element and the result is
    written back. *)
Definition at_index {A} (v : list A) (i : nat) (f : A -> M A) : M (list A) :=
  x <- index v i ;;
  x' <- f x ;;
  ret (<[i := x']> v).

(** [for (int j = 0; j < n; j++) body], threading the data the body
    updates. *)
Fixpoint for_from {St} (j : nat) (count : nat) (body : nat -> St -> M St) (acc : St)
    : M St :=
  match count with
  | O => ret acc
  | S c => acc' <- body j acc ;; for_from (S j) c body acc'
  end.

Definition for_lt {St} (n : Z) (body : nat -> St -> M St) (acc : St) : M St :=
  for_from 0 (Z.to_nat n) body acc.

(** *** Member assignment *)

Definition set_total (p : ptr) (c : MC_Cell_State) : MC_Cell_State :=
  {| _total := p; cell_rest := cell_rest c |}.

Definition set_num_points (n : Z) (c : MC_Facet_Adjacency_Cell) :=
  {| num_points := n; num_facets := num_facets c; _point := _point c; _facet := _facet c |}.
Definition set_num_facets (n : Z) (c : MC_Facet_Adjacency_Cell) :=
  {| num_points := num_points c; num_facets := n; _point := _point c; _facet := _facet c |}.
Definition set_point (p : ptr) (c : MC_Facet_Adjacency_Cell) :=
  {| num_points := num_points c; num_facets := num_facets c; _point := p; _facet := _facet c |}.
Definition set_facet (p : ptr) (c : MC_Facet_Adjacency_Cell) :=
  {| num_points := num_points c; num_facets := num_facets c; _point := _point c; _facet := p |}.

Definition set_size (n : Z) (c : MC_Facet_Geometry_Cell) :=
  {| _facet_g := _facet_g c; _size := n |}.
Definition set_facet_g (p : ptr) (c : MC_Facet_Geometry_Cell) :=
  {| _facet_g := p; _size := _size c |}.

Definition set_domainIndex (v : Z) (d : MC_Domain_d) :=
  {| domainIndex_d := v; global_domain_d := global_domain_d d;
     cell_state_d := cell_state_d d; cell_stateSize := cell_stateSize d;
     mesh_d := mesh_d d; padding_d := padding_d d |}.
Definition set_global_domain (v : Z) (d : MC_Domain_d) :=
  {| domainIndex_d := domainIndex_d d; global_domain_d := v;
     cell_state_d := cell_state_d d; cell_stateSize := cell_stateSize d;
     mesh_d := mesh_d d; padding_d := padding_d d |}.
Definition set_cell_state (p : ptr) (d : MC_Domain_d) :=
  {| domainIndex_d := domainIndex_d d; global_domain_d := global_domain_d d;
     cell_state_d := p; cell_stateSize := cell_stateSize d;
     mesh_d := mesh_d d; padding_d := padding_d d |}.
Definition set_cell_stateSize (v : Z) (d : MC_Domain_d) :=
  {| domainIndex_d := domainIndex_d d; global_domain_d := global_domain_d d;
     cell_state_d := cell_state_d d; cell_stateSize := v;
     mesh_d := mesh_d d; padding_d := padding_d d |}.
Definition set_mesh (f : MC_Mesh_Domain_d -> MC_Mesh_Domain_d) (d : MC_Domain_d) :=
  {| domainIndex_d := domainIndex_d d; global_domain_d := global_domain_d d;
     cell_state_d := cell_state_d d; cell_stateSize := cell_stateSize d;
     mesh_d := f (mesh_d d); padding_d := padding_d d |}.

Definition set_domainGid (v : Z) (m : MC_Mesh_Domain_d) :=
  {| _domainGid_d := v; _nbrRank_d := _nbrRank_d m; _nbrRankSize := _nbrRankSize m;
     _node_d := _node_d m; _nodeSize := _nodeSize m;
     _cellConnectivity_d := _cellConnectivity_d m;
     _cellConnectivitySize := _cellConnectivitySize m;
     _cellGeometry_d := _cellGeometry_d m; _cellGeometrySize := _cellGeometrySize m |}.
Definition set_nbrRank (p : ptr) (m : MC_Mesh_Domain_d) :=
  {| _domainGid_d := _domainGid_d m; _nbrRank_d := p; _nbrRankSize := _nbrRankSize m;
     _node_d := _node_d m; _nodeSize := _nodeSize m;
     _cellConnectivity_d := _cellConnectivity_d m;
     _cellConnectivitySize := _cellConnectivitySize m;
     _cellGeometry_d := _cellGeometry_d m; _cellGeometrySize := _cellGeometrySize m |}.
Definition set_nbrRankSize (v : Z) (m : MC_Mesh_Domain_d) :=
  {| _domainGid_d := _domainGid_d m; _nbrRank_d := _nbrRank_d m; _nbrRankSize := v;
     _node_d := _node_d m; _nodeSize := _nodeSize m;
     _cellConnectivity_d := _cellConnectivity_d m;
     _cellConnectivitySize := _cellConnectivitySize m;
     _cellGeometry_d := _cellGeometry_d m; _cellGeometrySize := _cellGeometrySize m |}.
Definition set_node (p : ptr) (m : MC_Mesh_Domain_d) :=
  {| _domainGid_d := _domainGid_d m; _nbrRank_d := _nbrRank_d m;
     _nbrRankSize := _nbrRankSize m;
     _node_d := p; _nodeSize := _nodeSize m;
     _cellConnectivity_d := _cellConnectivity_d m;
     _cellConnectivitySize := _cellConnectivitySize m;
     _cellGeometry_d := _cellGeometry_d m; _cellGeometrySize := _cellGeometrySize m |}.
Definition set_nodeSize (v : Z) (m : MC_Mesh_Domain_d) :=
  {| _domainGid_d := _domainGid_d m; _nbrRank_d := _nbrRank_d m;
     _nbrRankSize := _nbrRankSize m;
     _node_d := _node_d m; _nodeSize := v;
     _cellConnectivity_d := _cellConnectivity_d m;
     _cellConnectivitySize := _cellConnectivitySize m;
     _cellGeometry_d := _cellGeometry_d m; _cellGeometrySize := _cellGeometrySize m |}.
Definition set_cellConnectivity (p : ptr) (m : MC_Mesh_Domain_d) :=
  {| _domainGid_d := _domainGid_d m; _nbrRank_d := _nbrRank_d m;
     _nbrRankSize := _nbrRankSize m;
     _node_d := _node_d m; _nodeSize := _nodeSize m;
     _cellConnectivity_d := p;
     _cellConnectivitySize := _cellConnectivitySize m;
     _cellGeometry_d := _cellGeometry_d m; _cellGeometrySize := _cellGeometrySize m |}.
Definition set_cellConnectivitySize (v : Z) (m : MC_Mesh_Domain_d) :=
  {| _domainGid_d := _domainGid_d m; _nbrRank_d := _nbrRank_d m;
     _nbrRankSize := _nbrRankSize m;
     _node_d := _node_d m; _nodeSize := _nodeSize m;
     _cellConnectivity_d := _cellConnectivity_d m;
     _cellConnectivitySize := v;
     _cellGeometry_d := _cellGeometry_d m; _cellGeometrySize := _cellGeometrySize m |}.
Definition set_cellGeometry (p : ptr) (m : MC_Mesh_Domain_d) :=
  {| _domainGid_d := _domainGid_d m; _nbrRank_d := _nbrRank_d m;
     _nbrRankSize := _nbrRankSize m;
     _node_d := _node_d m; _nodeSize := _nodeSize m;
     _cellConnectivity_d := _cellConnectivity_d m;
     _cellConnectivitySize := _cellConnectivitySize m;
     _cellGeometry_d := p; _cellGeometrySize := _cellGeometrySize m |}.
Definition set_cellGeometrySize (v : Z) (m : MC_Mesh_Domain_d) :=
  {| _domainGid_d := _domainGid_d m; _nbrRank_d := _nbrRank_d m;
     _nbrRankSize := _nbrRankSize m;
     _node_d := _node_d m; _nodeSize := _nodeSize m;
     _cellConnectivity_d := _cellConnectivity_d m;
     _cellConnectivitySize := _cellConnectivitySize m;
     _cellGeometry_d := _cellGeometry_d m; _cellGeometrySize := v |}.

(** Indeterminate staging records. *)
Definition indet_adjacency_cell (j : Z) : MC_Facet_Adjacency_Cell :=
  {| num_points := j; num_facets := j; _point := Wild; _facet := Wild |}.
Definition indet_geometry_cell (j : Z) : MC_Facet_Geometry_Cell :=
  {| _facet_g := Wild; _size := j |}.
Definition indet_domain (j : Z) : MC_Domain_d :=
  {| domainIndex_d := j; global_domain_d := j; cell_state_d := Wild; cell_stateSize := j;
     mesh_d := {| _domainGid_d := j; _nbrRank_d := Wild; _nbrRankSize := j;
                  _node_d := Wild; _nodeSize := j;
                  _cellConnectivity_d := Wild; _cellConnectivitySize := j;
                  _cellGeometry_d := Wild; _cellGeometrySize := j |};
     padding_d := j |}.

(** *** [copyDomainDevice] *)

(** Lines 195-203: the body of the loop over cell states, on
    [cell_state_h[j]]; [hc] is [domain[i].cell_state[j]]. *)
Definition cell_state_body (numEnergyGroups : Z) (cell_state : list MC_Cell_State)
    (j : nat) (c : MC_Cell_State) : M MC_Cell_State :=
  hc <- index cell_state j ;;
  p <- safeCall (malloc_device T_double numEnergyGroups) ;;
  let c := set_total p c in
  safeCall (memcpy (_total c) (FromPtr T_double (_total hc)) numEnergyGroups) ;;;
  ret c.

(** Lines 261-294: the body of the loop over cell connectivity, on
    [cellConnectivity[j]]. *)
Definition cellConnectivity_body (host : list MC_Facet_Adjacency_Cell)
    (j : nat) (c : MC_Facet_Adjacency_Cell) : M MC_Facet_Adjacency_Cell :=
  hc <- index host j ;;
  let c := set_num_points (num_points hc) c in
  let c := set_num_facets (num_facets hc) c in
  p <- safeCall (malloc_device T_int (num_points c)) ;;
  let c := set_point p c in
  safeCall (memcpy (_point c) (FromPtr T_int (_point hc)) (num_points c)) ;;;
  p <- safeCall (malloc_device T_MC_Facet_Adjacency (num_facets c)) ;;
  let c := set_facet p c in
  safeCall (memcpy (_facet c) (FromPtr T_MC_Facet_Adjacency (_facet hc))
              (num_facets c)) ;;;
  ret c.

(** Lines 317-331: the body of the loop over cell geometry, on
    [cellGeometry[j]]. *)
Definition cellGeometry_body (host : list MC_Facet_Geometry_Cell)
    (j : nat) (c : MC_Facet_Geometry_Cell) : M MC_Facet_Geometry_Cell :=
  hc <- index host j ;;
  let c := set_size (_size hc) c in
  p <- safeCall (malloc_device T_MC_General_Plane (_size c)) ;;
  let c := set_facet_g p c in
  safeCall (memcpy (_facet_g c) (FromPtr T_MC_General_Plane (_facet_g hc)) (_size c)) ;;;
  ret c.

(** Lines 174-347: the body of the loop over domains, on [domain_h[i]].
    The [free] calls release host staging arrays, which are values
    here. *)
Definition domain_body (numEnergyGroups : Z) (domain : list MC_Domain)
    (i : nat) (dh : MC_Domain_d) : M MC_Domain_d :=
  d <- index domain i ;;
  let dh := set_domainIndex (domainIndex d) dh in
  let dh := set_global_domain (global_domain d) dh in
  let dh := set_cell_stateSize (size (cell_state d)) dh in
  cell_state_h <- safeCall (memcpy_staging (cell_state d) (size (cell_state d))) ;;
  cell_state_h <-
    for_lt (size (cell_state d))
      (fun j cell_state_h =>
         at_index cell_state_h j (cell_state_body numEnergyGroups (cell_state d) j))
      cell_state_h ;;
  p <- safeCall (malloc_device T_MC_Cell_State (size (cell_state d))) ;;
  let dh := set_cell_state p dh in
  safeCall (memcpy (cell_state_d dh) (FromArray (map ECellState cell_state_h))
              (size (cell_state d))) ;;;
  let dh := set_mesh (set_domainGid (_domainGid (mesh d))) dh in
  let dh := set_mesh (set_nbrRankSize (size (_nbrRank (mesh d)))) dh in
  p <- safeCall (malloc_device T_int (size (_nbrRank (mesh d)))) ;;
  let dh := set_mesh (set_nbrRank p) dh in
  safeCall (memcpy (_nbrRank_d (mesh_d dh)) (FromArray (map EInt (_nbrRank (mesh d))))
              (size (_nbrRank (mesh d)))) ;;;
  let dh := set_mesh (set_nodeSize (size (_node (mesh d)))) dh in
  p <- safeCall (malloc_device T_MC_Vector (_nodeSize (mesh_d dh))) ;;
  let dh := set_mesh (set_node p) dh in
  safeCall (memcpy (_node_d (mesh_d dh)) (FromArray (map EVector (_node (mesh d))))
              (_nodeSize (mesh_d dh))) ;;;
  let cellConnectivitySize := size (_cellConnectivity (mesh d)) in
  let dh := set_mesh (set_cellConnectivitySize cellConnectivitySize) dh in
  cellConnectivity <- malloc indet_adjacency_cell cellConnectivitySize ;;
  cellConnectivity <-
    for_lt cellConnectivitySize
      (fun j cellConnectivity =>
         at_index cellConnectivity j
           (cellConnectivity_body (_cellConnectivity (mesh d)) j))
      cellConnectivity ;;
  p <- safeCall (malloc_device T_MC_Facet_Adjacency_Cell cellConnectivitySize) ;;
  let dh := set_mesh (set_cellConnectivity p) dh in
  safeCall (memcpy (_cellConnectivity_d (mesh_d dh))
              (FromArray (map EAdjacencyCell cellConnectivity))
              cellConnectivitySize) ;;;
  let cellGeometrySize := size (_cellGeometry (mesh d)) in
  let dh := set_mesh (set_cellGeometrySize cellGeometrySize) dh in
  cellGeometry <- malloc indet_geometry_cell cellGeometrySize ;;
  cellGeometry <-
    for_lt cellGeometrySize
      (fun j cellGeometry =>
         at_index cellGeometry j (cellGeometry_body (_cellGeometry (mesh d)) j))
      cellGeometry ;;
  p <- safeCall (malloc_device T_MC_Facet_Geometry_Cell cellGeometrySize) ;;
  let dh := set_mesh (set_cellGeometry p) dh in
  safeCall (memcpy (_cellGeometry_d (mesh_d dh))
              (FromArray (map EGeometryCell cellGeometry))
              cellGeometrySize) ;;;
  ret dh.

(** [copyDomainDevice(numEnergyGroups, domain, domain_d, domainSize)].
    [domain] is passed by value and [domain_d] is the caller's pointer;
    the result is the value left in the reference parameter
    [domainSize]. *)
Definition copyDomainDevice (numEnergyGroups : Z) (domain : list MC_Domain)
    (domain_d : ptr) : M Z :=
  let domainSize := size domain in
  domain_h <- malloc indet_domain domainSize ;;
  domain_h <-
    for_lt domainSize
      (fun i domain_h => at_index domain_h i (domain_body numEnergyGroups domain i))
      domain_h ;;
  safeCall (memcpy domain_d (FromArray (map EDomain domain_h)) domainSize) ;;;
  ret domainSize.

(** *** Reading a structure back *)

(** What a reader sees when it follows every address of one domain: the
    scalars, and each array as the sequence of its elements, in index
    order. *)
Record DomainView := {
  view_domainIndex : Z;
  view_global_domain : Z;
  view_domainGid : Z;
  view_cell_state : list (MC_Cell_State_rest * list elem);
  view_nbrRank : list elem;
  view_node : list elem;
  view_cellConnectivity : list (Z * Z * list elem * list elem);
  view_cellGeometry : list (Z * list elem);
}.

(** The host side.  The cross-section array of a cell has
    [numEnergyGroups] entries; the other per-cell arrays have the length
    their cell declares. *)
Definition host_cell_state (hm : heap) (numEnergyGroups : Z) (c : MC_Cell_State)
    : option (MC_Cell_State_rest * list elem) :=
  t ← read_host hm T_double (_total c) numEnergyGroups;
  Some (cell_rest c, t).

Definition host_adjacency_cell (hm : heap) (c : MC_Facet_Adjacency_Cell)
    : option (Z * Z * list elem * list elem) :=
  ps ← read_host hm T_int (_point c) (num_points c);
  fs ← read_host hm T_MC_Facet_Adjacency (_facet c) (num_facets c);
  Some (num_points c, num_facets c, ps, fs).

Definition host_geometry_cell (hm : heap) (c : MC_Facet_Geometry_Cell)
    : option (Z * list elem) :=
  fs ← read_host hm T_MC_General_Plane (_facet_g c) (_size c);
  Some (_size c, fs).

Definition host_view (hm : heap) (numEnergyGroups : Z) (d : MC_Domain)
    : option DomainView :=
  cs ← mapM (host_cell_state hm numEnergyGroups) (cell_state d);
  cc ← mapM (host_adjacency_cell hm) (_cellConnectivity (mesh d));
  cg ← mapM (host_geometry_cell hm) (_cellGeometry (mesh d));
  Some {| view_domainIndex := domainIndex d;
          view_global_domain := global_domain d;
          view_domainGid := _domainGid (mesh d);
          view_cell_state := cs;
          view_nbrRank := map EInt (_nbrRank (mesh d));
          view_node := map EVector (_node (mesh d));
          view_cellConnectivity := cc;
          view_cellGeometry := cg |}.

(** The mirror side: every array is read through the recorded address
    with the recorded count. *)
Definition mirror_cell_state (base : nat) (m : heap) (numEnergyGroups : Z) (e : elem)
    : option (MC_Cell_State_rest * list elem) :=
  match e with
  | ECellState c =>
      t ← read_from base m (_total c) numEnergyGroups;
      Some (cell_rest c, t)
  | _ => None
  end.

Definition mirror_adjacency_cell (base : nat) (m : heap) (e : elem)
    : option (Z * Z * list elem * list elem) :=
  match e with
  | EAdjacencyCell c =>
      ps ← read_from base m (_point c) (num_points c);
      fs ← read_from base m (_facet c) (num_facets c);
      Some (num_points c, num_facets c, ps, fs)
  | _ => None
  end.

Definition mirror_geometry_cell (base : nat) (m : heap) (e : elem)
    : option (Z * list elem) :=
  match e with
  | EGeometryCell c =>
      fs ← read_from base m (_facet_g c) (_size c);
      Some (_size c, fs)
  | _ => None
  end.

Definition mirror_view (base : nat) (m : heap) (numEnergyGroups : Z) (d : MC_Domain_d)
    : option DomainView :=
  csb ← read_from base m (cell_state_d d) (cell_stateSize d);
  cs ← mapM (mirror_cell_state base m numEnergyGroups) csb;
  nr ← read_from base m (_nbrRank_d (mesh_d d)) (_nbrRankSize (mesh_d d));
  nd ← read_from base m (_node_d (mesh_d d)) (_nodeSize (mesh_d d));
  ccb ← read_from base m (_cellConnectivity_d (mesh_d d))
          (_cellConnectivitySize (mesh_d d));
  cc ← mapM (mirror_adjacency_cell base m) ccb;
  cgb ← read_from base m (_cellGeometry_d (mesh_d d)) (_cellGeometrySize (mesh_d d));
  cg ← mapM (mirror_geometry_cell base m) cgb;
  Some {| view_domainIndex := domainIndex_d d;
          view_global_domain := global_domain_d d;
          view_domainGid := _domainGid_d (mesh_d d);
          view_cell_state := cs;
          view_nbrRank := nr;
          view_node := nd;
          view_cellConnectivity := cc;
          view_cellGeometry := cg |}.

(** The descriptor array behind [domain_d], read back with the returned
    count. *)
Definition descriptors (m : heap) (domain_d : ptr) (domainSize : Z)
    : option (list MC_Domain_d) :=
  blk ← read_dev m domain_d domainSize;
  mapM (λ e, match e with EDomain d => Some d | _ => None end) blk.

(** The whole mirror, read back. *)
Definition read_mirror (m : heap) (numEnergyGroups : Z) (domain_d : ptr)
    (domainSize : Z) : option (list DomainView) :=
  ds ← descriptors m domain_d domainSize;
  mapM (mirror_view 0 m numEnergyGroups) ds.

Definition host_views (hm : heap) (numEnergyGroups : Z) (domain : list MC_Domain)
    : option (list DomainView) :=
  mapM (host_view hm numEnergyGroups) domain.

(** The caller's buffer behind [domain_d] holds at least [n] elements
    (nothing is asked of it when [n] is zero). *)
Definition has_room (m : heap) (domain_d : ptr) (n : Z) : Prop :=
  n = 0 ∨ ∃ a blk, domain_d = Dev a ∧ m !! a = Some blk ∧ (Z.to_nat n ≤ length blk)%nat.

(** *** Properties of the queue's history *)

(** The address-valued members inside an element. *)
Definition pointers (e : elem) : list ptr :=
  match e with
  | ECellState c => [_total c]
  | EAdjacencyCell c => [_point c; _facet c]
  | EGeometryCell c => [_facet_g c]
  | EDomain d =>
      [cell_state_d d; _nbrRank_d (mesh_d d); _node_d (mesh_d d);
       _cellConnectivity_d (mesh_d d); _cellGeometry_d (mesh_d d)]
  | _ => []
  end.

(** [p] was returned by an allocation in [evs] and a later copy in [evs]
    filled that allocation completely. *)
Definition settled (evs : list event) (p : ptr) : Prop :=
  is_target p = true ∧
  ∃ i j T n data,
    (i < j)%nat ∧ evs !! i = Some (EvMalloc T n p) ∧
    evs !! j = Some (EvMemcpy p data) ∧ Z.of_nat (length data) = n.

(** Every copy into the target space carries settled addresses only. *)
Definition bottom_up (evs : list event) : Prop :=
  ∀ k dst data, evs !! k = Some (EvMemcpy dst data) →
    ∀ e p, e ∈ data → p ∈ pointers e → settled (take k evs) p.

(** No failure has been reported. *)
Definition tidy (evs : list event) : Prop :=
  Forall (λ e, is_fault e = false) evs.

(** A failure has been reported by the last call and by no other. *)
Definition stopped (evs : list event) : Prop :=
  ∃ evs' e, evs = evs' ++ [e] ∧ is_fault e = true ∧ tidy evs'.

(** An allocation of the descriptor array. *)
Definition allocates_descriptors (e : event) : bool :=
  match e with
  | EvMalloc T_MC_Domain_d _ _ => true
  | _ => false
  end.

(** The members of the host structure that the mirror has no place for. *)
Definition same_but_unmirrored (d1 d2 : MC_Domain) : Prop :=
  domainIndex d1 = domainIndex d2 ∧
  global_domain d1 = global_domain d2 ∧
  cell_state d1 = cell_state d2 ∧
  _domainGid (mesh d1) = _domainGid (mesh d2) ∧
  _nbrRank (mesh d1) = _nbrRank (mesh d2) ∧
  _node (mesh d1) = _node (mesh d2) ∧
  _cellConnectivity (mesh d1) = _cellConnectivity (mesh d2) ∧
  _cellGeometry (mesh d1) = _cellGeometry (mesh d2).

(** What a piece of the build that writes through no host pointer leaves
    alone or only extends, whatever its outcome. *)
Definition moved (s s' : world) : Prop :=
  hostm s' = hostm s ∧ fault_at s' = fault_at s ∧
  zero_null s' = zero_null s ∧ junk s' = junk s ∧
  (∃ evs, trace s' = trace s ++ evs ∧
          Forall (λ e, allocates_descriptors e = false) evs) ∧
  (bottom_up (trace s) → bottom_up (trace s')).

(** The address and the memory produced by a successful allocation of
    [n] elements on top of the heap [m], once filled with [data]. *)
Definition fresh_ptr (zn : bool) (n : Z) (m : heap) : ptr :=
  if (n =? 0) && zn then Null else Dev (length m).

Definition fresh_blocks (zn : bool) (n : Z) (data : block) : heap :=
  if (n =? 0) && zn then [] else [data].

(** The judgement used for every piece of the build: from [s], the
    outcome [o] satisfies [Q] if it is a result; a failure leaves the
    allocations [m0] in place, and there is none when [T] holds and no
    call is scheduled to fail. *)
Definition post {A} (m0 : heap) (s : world) (o : outcome A)
    (Q : A → world → Prop) (T : Prop) : Prop :=
  match o with
  | Ok a s' =>
      moved s s' ∧ (tidy (trace s) → tidy (trace s')) ∧ Q a s'
  | Fail f s' =>
      moved s s' ∧
      (tidy (trace s) →
         match f with
         | Aborted => stopped (trace s')
         | Undefined => tidy (trace s')
         end) ∧
      m0 `prefix_of` devm s' ∧
      ¬ (T ∧ fault_at s = None)
  end.

(** Reads that succeed below succeed above, with the same result. *)
Definition reads_le (base : nat) (m : heap) (base' : nat) (m' : heap) : Prop :=
  ∀ p n data, read_from base m p n = Some data → read_from base' m' p n = Some data.

(** Element [j] of a staging array mirrors element [j] of the host
    array: its addresses are settled, its counts are the host's, an
    address with a positive count is not null, and reading it back gives
    what the host holds. *)
Definition mirrors_cell_state (base : nat) (n : Z) (cells : list MC_Cell_State)
    (j : nat) (c : MC_Cell_State) (s : world) : Prop :=
  settled (trace s) (_total c) ∧
  (0 < n → is_null (_total c) = false) ∧
  ∃ hc v, cells !! j = Some hc ∧
          host_cell_state (hostm s) n hc = Some v ∧
          mirror_cell_state base (devm s) n (ECellState c) = Some v.

Definition mirrors_adjacency_cell (base : nat) (host : list MC_Facet_Adjacency_Cell)
    (j : nat) (c : MC_Facet_Adjacency_Cell) (s : world) : Prop :=
  settled (trace s) (_point c) ∧ settled (trace s) (_facet c) ∧
  (0 < num_points c → is_null (_point c) = false) ∧
  (0 < num_facets c → is_null (_facet c) = false) ∧
  ∃ hc v, host !! j = Some hc ∧
          num_points c = num_points hc ∧ num_facets c = num_facets hc ∧
          host_adjacency_cell (hostm s) hc = Some v ∧
          mirror_adjacency_cell base (devm s) (EAdjacencyCell c) = Some v.

Definition mirrors_geometry_cell (base : nat) (host : list MC_Facet_Geometry_Cell)
    (j : nat) (c : MC_Facet_Geometry_Cell) (s : world) : Prop :=
  settled (trace s) (_facet_g c) ∧
  (0 < _size c → is_null (_facet_g c) = false) ∧
  ∃ hc v, host !! j = Some hc ∧
          _size c = _size hc ∧
          host_geometry_cell (hostm s) hc = Some v ∧
          mirror_geometry_cell base (devm s) (EGeometryCell c) = Some v.

(** The counts recorded in a descriptor [dh], and in the per-cell records
    behind it, are those of the host domain [d]; an address recorded with
    a positive count is not null. *)
Definition shape_agrees (base : nat) (n : Z) (m : heap) (d : MC_Domain)
    (dh : MC_Domain_d) : Prop :=
  (cell_stateSize dh = size (cell_state d) ∧
   (0 < cell_stateSize dh → is_null (cell_state_d dh) = false)) ∧
  (_nbrRankSize (mesh_d dh) = size (_nbrRank (mesh d)) ∧
   (0 < _nbrRankSize (mesh_d dh) → is_null (_nbrRank_d (mesh_d dh)) = false)) ∧
  (_nodeSize (mesh_d dh) = size (_node (mesh d)) ∧
   (0 < _nodeSize (mesh_d dh) → is_null (_node_d (mesh_d dh)) = false)) ∧
  (_cellConnectivitySize (mesh_d dh) = size (_cellConnectivity (mesh d)) ∧
   (0 < _cellConnectivitySize (mesh_d dh) →
    is_null (_cellConnectivity_d (mesh_d dh)) = false)) ∧
  (_cellGeometrySize (mesh_d dh) = size (_cellGeometry (mesh d)) ∧
   (0 < _cellGeometrySize (mesh_d dh) →
    is_null (_cellGeometry_d (mesh_d dh)) = false)) ∧
  (∃ cs, read_from base m (cell_state_d dh) (cell_stateSize dh)
           = Some (map ECellState cs) ∧
         Forall (λ c, 0 < n → is_null (_total c) = false) cs) ∧
  (∃ cc, read_from base m (_cellConnectivity_d (mesh_d dh))
           (_cellConnectivitySize (mesh_d dh)) = Some (map EAdjacencyCell cc) ∧
         Forall2 (λ hc c,
                    num_points c = num_points hc ∧ num_facets c = num_facets hc ∧
                    (0 < num_points c → is_null (_point c) = false) ∧
                    (0 < num_facets c → is_null (_facet c) = false))
           (_cellConnectivity (mesh d)) cc) ∧
  (∃ cg, read_from base m (_cellGeometry_d (mesh_d dh))
           (_cellGeometrySize (mesh_d dh)) = Some (map EGeometryCell cg) ∧
         Forall2 (λ hc c,
                    _size c = _size hc ∧ (0 < _size c → is_null (_facet_g c) = false))
           (_cellGeometry (mesh d)) cg).

(** The staging descriptor [dh] mirrors [domain[i]]. *)
Definition mirrors_domain (base : nat) (n : Z) (domain : list MC_Domain)
    (i : nat) (dh : MC_Domain_d) (s : world) : Prop :=
  ∃ d, domain !! i = Some d ∧
       (∃ v, host_view (hostm s) n d = Some v ∧
             mirror_view base (devm s) n dh = Some v) ∧
       (∀ p, p ∈ pointers (EDomain dh) → settled (trace s) p) ∧
       shape_agrees base n (devm s) d dh.

(** What a completed build has done: the staging array [domain_h], whose
    elements mirror the host domains in the heap [devm s1] built by the
    loop, was copied to [domain_d] by the last call. *)
Definition built (n : Z) (domain : list MC_Domain) (domain_d : ptr)
    (s : world) (sz : Z) (s' : world) : Prop :=
  sz = size domain ∧
  ∃ s1 domain_h,
    moved s s1 ∧ devm s `prefix_of` devm s1 ∧
    length domain_h = length domain ∧
    (∀ i, (i < length domain)%nat →
       ∃ dh, domain_h !! i = Some dh ∧
             mirrors_domain (length (devm s)) n domain i dh s1) ∧
    store (devm s1) domain_d (map EDomain domain_h) = Some (devm s') ∧
    trace s' = trace s1 ++ [EvMemcpy domain_d (map EDomain domain_h)].

(** The state in which a run ends. *)
Definition final {A} (o : outcome A) : world :=
  match o with Ok _ w | Fail _ w => w end.

(** The same world with another fault schedule. *)
Definition schedule (k : option nat) (w : world) : world :=
  {| hostm := hostm w; devm := devm w; trace := trace w;
     fault_at := k; zero_null := zero_null w; junk := junk w |}.

Definition reschedule {A} (k : option nat) (o : outcome A) : outcome A :=
  match o with
  | Ok a w => Ok a (schedule k w)
  | Fail f w => Fail f (schedule k w)
  end.

(** How a run [o] in which call [k] is scheduled to fail relates to the
    run [o0] from the same state with no failure scheduled: if [o0] issues
    no more than [k] calls the two are the same; if call [k] of [o0] is
    an allocation nothing is said; otherwise [o] is aborted after the
    first [k] calls of [o0] and one failure. *)
Definition cut_short {A} (k : nat) (o o0 : outcome A) : Prop :=
  ((length (trace (final o0)) ≤ k)%nat ∧ o = reschedule (Some k) o0) ∨
  (∃ T n p, trace (final o0) !! k = Some (EvMalloc T n p)) ∨
  ((k ≤ length (trace (final o0)))%nat ∧
   ∃ s' e, o = Fail Aborted s' ∧
           trace s' = take k (trace (final o0)) ++ [e] ∧ is_fault e = true).

Definition follows {A} (k : nat) (m : M A) : Prop :=
  (∀ s0, fault_at (final (m s0)) = fault_at s0 ∧
         trace s0 `prefix_of` trace (final (m s0))) ∧
  (∀ s0, fault_at s0 = None → (length (trace s0) ≤ k)%nat →
         cut_short k (m (schedule (Some k) s0)) (m s0)).

(** Two descriptors record the same counts. *)
Definition same_counts (d1 d2 : MC_Domain_d) : Prop :=
  cell_stateSize d1 = cell_stateSize d2 ∧
  _nbrRankSize (mesh_d d1) = _nbrRankSize (mesh_d d2) ∧
  _nodeSize (mesh_d d1) = _nodeSize (mesh_d d2) ∧
  _cellConnectivitySize (mesh_d d1) = _cellConnectivitySize (mesh_d d2) ∧
  _cellGeometrySize (mesh_d d1) = _cellGeometrySize (mesh_d d2).

(** *** Counting calls *)

Definition is_alloc (e : event) : bool :=
  match e with EvMalloc _ _ _ => true | _ => false end.

Definition is_copy (e : event) : bool :=
  match e with EvMemcpy _ _ => true | _ => false end.

Definition is_staging (e : event) : bool :=
  match e with EvMemcpyHost _ => true | _ => false end.

Definition count_events (f : event → bool) (evs : list event) : nat :=
  length (List.filter f evs).

(** The allocations that the loop body makes for one domain: the five
    arrays of the descriptor, one array per cell state, two per
    connectivity cell and one per geometry cell. *)
Definition allocations_of (d : MC_Domain) : nat :=
  5 + length (cell_state d) + 2 * length (_cellConnectivity (mesh d))
    + length (_cellGeometry (mesh d)).

(** A piece of the build that completes has issued calls of which [c]
    satisfy [f]. *)
Definition tallies {A} (f : event → bool) (m : M A) (c : nat) : Prop :=
  ∀ w a w', m w = Ok a w' →
    ∃ evs, trace w' = trace w ++ evs ∧ count_events f evs = c.

(** A history written in the two units of the build: a host staging
    copy, and an allocation followed at once by the copy that fills it
    completely. *)
Inductive units : list event → Prop :=
| units_nil : units []
| units_staging n evs : units evs → units (EvMemcpyHost n :: evs)
| units_alloc_fill T n p data evs :
    Z.of_nat (length data) = n → units evs →
    units (EvMalloc T n p :: EvMemcpy p data :: evs).

(** A piece of the build that completes has extended the history by
    calls that satisfy [P] together. *)
Definition emits {A} (P : list event → Prop) (m : M A) : Prop :=
  ∀ w a w', m w = Ok a w' → ∃ evs, trace w' = trace w ++ evs ∧ P evs.

(** A copy that carries a descriptor. *)
Definition is_descriptor (e : elem) : bool :=
  match e with EDomain _ => true | _ => false end.

Definition carries_descriptors (e : event) : bool :=
  match e with
  | EvMemcpy _ data => existsb is_descriptor data
  | _ => false
  end.

Definition plain (evs : list event) : Prop :=
  Forall (λ e, carries_descriptors e = false) evs.

(** A source that holds no descriptor. *)
Definition plain_source (src : source) : Prop :=
  match src with
  | FromArray l => Forall (λ e, is_descriptor e = false) l
  | FromPtr T _ => T ≠ T_MC_Domain_d
  end.

(** The descriptor [dh] is fully patched for the host domain [d]: each
    of its addresses was returned by an allocation in [evs] that a later
    copy in [evs] filled, its counts are the host's, and what is read
    through it from the target space [m] is what the host holds. *)
Definition patched (n : Z) (hm : heap) (evs : list event) (m : heap)
    (d : MC_Domain) (dh : MC_Domain_d) : Prop :=
  (∀ p, p ∈ pointers (EDomain dh) → settled evs p) ∧
  shape_agrees 0 n m d dh ∧
  ∃ v, host_view hm n d = Some v ∧ mirror_view 0 m n dh = Some v.

(** *** Concrete inputs *)

(** Host memory with four bulk-storage blocks: cross sections, point
    indices, facet adjacencies and planes. *)
Definition ex_host : heap :=
  [ [EDouble 10; EDouble 11; EDouble 12; EDouble 13];
    [EInt 1; EInt 2; EInt 3];
    [EAdjacency [x07]; EAdjacency [x08]];
    [EPlane [x05]; EPlane [x06]] ].

(** A domain with two cells of different shapes: cell 0 has two points
    and one facet, cell 1 has one point and one facet. *)
Definition ex_domain : MC_Domain :=
  {| domainIndex := 3; global_domain := 4;
     cell_state := [ {| _total := Host 0 0; cell_rest := [x64] |};
                     {| _total := Host 0 2; cell_rest := [x65] |} ];
     _cachedCrossSectionStorage := [];
     mesh := {| _domainGid := 9; _nbrDomainGid := [1; 2]; _nbrRank := [5; 6];
                _node := [[x14]; [x15]; [x16]];
                _cellConnectivity :=
                  [ {| num_points := 2; num_facets := 1;
                       _point := Host 1 0; _facet := Host 2 0 |};
                    {| num_points := 1; num_facets := 1;
                       _point := Host 1 2; _facet := Host 2 1 |} ];
                _cellGeometry := [ {| _facet_g := Host 3 0; _size := 1 |};
                                   {| _facet_g := Host 3 1; _size := 1 |} ];
                _connectivityFacetStorage := [];
                _connectivityPointStorage := [];
                _geomFacetStorage := [] |} |}.

(** The same domain with other neighbour-domain identifiers and other
    bulk-storage objects. *)
Definition ex_domain' : MC_Domain :=
  {| domainIndex := domainIndex ex_domain; global_domain := global_domain ex_domain;
     cell_state := cell_state ex_domain;
     _cachedCrossSectionStorage := [x01];
     mesh := {| _domainGid := _domainGid (mesh ex_domain);
                _nbrDomainGid := [7; 8; 9];
                _nbrRank := _nbrRank (mesh ex_domain);
                _node := _node (mesh ex_domain);
                _cellConnectivity := _cellConnectivity (mesh ex_domain);
                _cellGeometry := _cellGeometry (mesh ex_domain);
                _connectivityFacetStorage := [x02];
                _connectivityPointStorage := [x03];
                _geomFacetStorage := [x04] |} |}.

(** A domain without cells, nodes or neighbours. *)
Definition ex_empty_domain : MC_Domain :=
  {| domainIndex := 0; global_domain := 0; cell_state := [];
     _cachedCrossSectionStorage := [];
     mesh := {| _domainGid := 0; _nbrDomainGid := []; _nbrRank := []; _node := [];
                _cellConnectivity := []; _cellGeometry := [];
                _connectivityFacetStorage := [];
                _connectivityPointStorage := [];
                _geomFacetStorage := [] |} |}.

(** A world in which the caller has allocated a buffer of two
    descriptors at [Dev 0], nothing has been issued on the queue, no
    failure is scheduled and zero-size allocations return null. *)
Definition ex_world : world :=
  {| hostm := ex_host; devm := [[EIndet; EIndet]]; trace := [];
     fault_at := None; zero_null := true; junk := 77 |}.

(** The same, with other allocations already in the target space and an
    allocator that returns fresh addresses for zero-size requests. *)
Definition ex_world' : world :=
  {| hostm := ex_host; devm := [[EInt 0]; [EIndet; EIndet; EIndet]]; trace := [];
     fault_at := None; zero_null := false; junk := 0 |}.

(** The same as [ex_world], with the sixth call scheduled to fail. *)
Definition ex_world_faulty : world :=
  {| hostm := ex_host; devm := [[EIndet; EIndet]]; trace := [];
     fault_at := Some 5%nat; zero_null := true; junk := 77 |}.

(** The element types that hold no address. *)
Definition is_leaf (T : ctype) : bool :=
  match T with
  | T_double | T_int | T_MC_Vector | T_MC_Facet_Adjacency | T_MC_General_Plane => true
  | _ => false
  end.

(** *** Memory lemmas *)

Lemma read_host_spec hm T p n data :
  read_host hm T p n = Some data →
  0 ≤ n ∧ length data = Z.to_nat n ∧ Forall (λ e, has_type T e = true) data.
Proof.
  unfold read_host. intros H.
  destruct (n <? 0) eqn:Hneg; [done|]. apply Z.ltb_ge in Hneg.
  destruct (n =? 0) eqn:Hz.
  - apply Z.eqb_eq in Hz. subst n. inversion H. by repeat split.
  - destruct p; try done. destruct (hm !! b) as [blk|]; [|done].
    simpl in H.
    destruct ((off + Z.to_nat n <=? length blk)%nat) eqn:Hle; [|done].
    destruct (forallb (has_type T) (take (Z.to_nat n) (drop off blk))) eqn:Hty; [|done].
    apply Nat.leb_le in Hle. inversion H; subst. clear H.
    split; [done|]. split.
    + rewrite length_take, length_drop. lia.
    + apply Forall_forall. intros x Hx.
      apply (proj1 (forallb_forall _ _) Hty). by apply list_elem_of_In.
Qed.

Lemma fetch_spec hm src n data :
  fetch hm src n = Some data → 0 ≤ n ∧ length data = Z.to_nat n.
Proof.
  destruct src as [l|T p]; simpl.
  - destruct ((0 <=? n) && (n <=? Z.of_nat (length l))) eqn:Hc; [|done].
    apply andb_true_iff in Hc as [H0 H1].
    apply Z.leb_le in H0. apply Z.leb_le in H1.
    intros [= <-]. split; [done|]. rewrite length_take. lia.
  - intros H. apply read_host_spec in H. tauto.
Qed.

Lemma fetch_array hm l : fetch hm (FromArray l) (size l) = Some l.
Proof.
  unfold fetch, size.
  rewrite (proj2 (Z.leb_le 0 _)) by lia.
  rewrite Z.leb_refl. simpl. by rewrite Nat2Z.id, firstn_all.
Qed.

Lemma reads_le_trans b1 m1 b2 m2 b3 m3 :
  reads_le b1 m1 b2 m2 → reads_le b2 m2 b3 m3 → reads_le b1 m1 b3 m3.
Proof. intros H1 H2 p n data H. by apply H2, H1. Qed.

Lemma reads_le_prefix base m m' : m `prefix_of` m' → reads_le base m base m'.
Proof.
  intros Hpre p n data. unfold read_from.
  destruct (n <? 0); [done|]. destruct (n =? 0); [done|].
  destruct p; try done. destruct (base <=? a)%nat; [|done].
  destruct (m !! a) as [blk|] eqn:Hblk; [|done].
  by rewrite (prefix_lookup_Some _ _ _ _ Hblk Hpre).
Qed.

Lemma reads_le_base base base' m : (base' ≤ base)%nat → reads_le base m base' m.
Proof.
  intros Hle p n data. unfold read_from.
  destruct (n <? 0); [done|]. destruct (n =? 0); [done|].
  destruct p; try done. destruct (base <=? a)%nat eqn:Hb; [|done].
  apply Nat.leb_le in Hb. by rewrite (proj2 (Nat.leb_le base' a)) by lia.
Qed.

Lemma reads_le_insert_below base m a blk :
  (a < base)%nat → reads_le base m base (<[a := blk]> m).
Proof.
  intros Hlt p n data. unfold read_from.
  destruct (n <? 0); [done|]. destruct (n =? 0); [done|].
  destruct p as [| |a'|]; try done. destruct (base <=? a')%nat eqn:Hb; [|done].
  apply Nat.leb_le in Hb. rewrite list_lookup_insert_ne by lia. done.
Qed.

Lemma read_from_fresh base zn n m data :
  (base ≤ length m)%nat → 0 ≤ n → length data = Z.to_nat n →
  read_from base (m ++ fresh_blocks zn n data) (fresh_ptr zn n m) n = Some data.
Proof.
  intros Hbase Hn Hlen. unfold read_from, fresh_ptr, fresh_blocks.
  rewrite (proj2 (Z.ltb_ge n 0)) by lia.
  destruct (n =? 0) eqn:Hz.
  - apply Z.eqb_eq in Hz. subst n. simpl in Hlen.
    by destruct data.
  - simpl. rewrite (proj2 (Nat.leb_le base (length m))) by done.
    rewrite lookup_app_r by done. rewrite Nat.sub_diag. simpl.
    rewrite (proj2 (Nat.leb_le _ _)) by lia.
    by rewrite <- Hlen, firstn_all.
Qed.

Lemma store_dev m a data blk :
  data ≠ [] → m !! a = Some blk → (length data ≤ length blk)%nat →
  store m (Dev a) data = Some (<[a := data ++ drop (length data) blk]> m).
Proof.
  intros Hne Hblk Hlen. destruct data; [done|].
  unfold store. rewrite Hblk. by rewrite (proj2 (Nat.leb_le _ _)) by done.
Qed.

Lemma store_length m dst data m' :
  store m dst data = Some m' → length m' = length m.
Proof.
  unfold store. destruct data as [|x data]; [by intros [= <-]|].
  destruct dst as [| |a|]; try done.
  destruct (m !! a) as [blk|]; [|done].
  destruct (length (x :: data) <=? length blk)%nat; [|done].
  intros [= <-]. by rewrite length_insert.
Qed.

Lemma store_fresh zn n m data :
  0 ≤ n → length data = Z.to_nat n →
  store (m ++ fresh_blocks zn n (replicate (Z.to_nat n) EIndet)) (fresh_ptr zn n m) data
  = Some (m ++ fresh_blocks zn n data).
Proof.
  intros Hn Hlen. unfold fresh_ptr, fresh_blocks.
  destruct (n =? 0) eqn:Hz.
  - apply Z.eqb_eq in Hz. subst n. destruct data; [|done]. simpl.
    by destruct zn.
  - cbn [andb]. apply Z.eqb_neq in Hz.
    rewrite (store_dev _ _ _ (replicate (Z.to_nat n) EIndet)).
    + rewrite Hlen, drop_replicate, Nat.sub_diag. cbn [replicate].
      rewrite app_nil_r, insert_app_r_alt by done.
      by rewrite Nat.sub_diag.
    + intros ->. simpl in Hlen. lia.
    + by apply list_lookup_middle.
    + rewrite length_replicate. lia.
Qed.

Lemma fresh_ptr_target zn n m : is_target (fresh_ptr zn n m) = true.
Proof. unfold fresh_ptr. by destruct ((n =? 0) && zn). Qed.

Lemma fresh_ptr_nonnull zn n m : 0 < n → is_null (fresh_ptr zn n m) = false.
Proof.
  intros Hn. unfold fresh_ptr. rewrite (proj2 (Z.eqb_neq n 0)) by lia. done.
Qed.

Lemma has_room_store m domain_d data :
  has_room m domain_d (size data) →
  ∃ m', store m domain_d data = Some m' ∧
        (data = [] ∧ m' = m ∨
         ∃ a blk, domain_d = Dev a ∧ m !! a = Some blk ∧
                  m' = <[a := data ++ drop (length data) blk]> m).
Proof.
  unfold has_room, size. intros [Hz|(a & blk & -> & Hblk & Hlen)].
  - destruct data; [|simpl in Hz; lia]. exists m. split; [done|]. by left.
  - destruct data as [|x data]; [exists m; split; [done|by left]|].
    rewrite Nat2Z.id in Hlen. unfold store. rewrite Hblk.
    rewrite (proj2 (Nat.leb_le _ _)) by done.
    eexists. split; [done|]. right. by exists a, blk.
Qed.

(** *** Lemmas on histories *)

Lemma settled_app evs evs' p : settled evs p → settled (evs ++ evs') p.
Proof.
  intros (Ht & i & j & T & n & data & Hij & Hi & Hj & Hn).
  split; [done|]. exists i, j, T, n, data.
  repeat split; [done| | |done]; by apply lookup_app_l_Some.
Qed.

Lemma settled_prefix evs evs' p : evs `prefix_of` evs' → settled evs p → settled evs' p.
Proof. intros [k ->]. apply settled_app. Qed.

Lemma settled_fresh evs T n p data :
  is_target p = true → Z.of_nat (length data) = n →
  settled (evs ++ [EvMalloc T n p; EvMemcpy p data]) p.
Proof.
  intros Ht Hn. split; [done|].
  exists (length evs), (S (length evs)), T, n, data.
  repeat split; [lia| | |done].
  - rewrite lookup_app_r by done. by rewrite Nat.sub_diag.
  - rewrite lookup_app_r by lia. by replace (S (length evs) - length evs)%nat with 1%nat by lia.
Qed.

Lemma bottom_up_nil : bottom_up [].
Proof. intros k dst data Hk. by rewrite lookup_nil in Hk. Qed.

Lemma bottom_up_snoc evs e :
  bottom_up evs →
  (∀ dst data, e = EvMemcpy dst data →
     ∀ x p, x ∈ data → p ∈ pointers x → settled evs p) →
  bottom_up (evs ++ [e]).
Proof.
  intros Hbu He k dst data Hk x p Hx Hp.
  destruct (decide (k < length evs)%nat) as [Hlt|Hge].
  - rewrite lookup_app_l in Hk by done.
    rewrite take_app_le by lia. by eapply Hbu.
  - assert (k = length evs) as ->.
    { apply lookup_lt_Some in Hk. rewrite length_app in Hk. simpl in Hk. lia. }
    rewrite lookup_app_r in Hk by done. rewrite Nat.sub_diag in Hk.
    simpl in Hk. inversion Hk; subst.
    rewrite take_app_length. by eapply He.
Qed.

Lemma tidy_snoc evs e : tidy evs → is_fault e = false → tidy (evs ++ [e]).
Proof. intros. apply Forall_app. split; [done|]. by apply Forall_singleton. Qed.

Lemma stopped_snoc evs e : tidy evs → is_fault e = true → stopped (evs ++ [e]).
Proof. intros. by exists evs, e. Qed.

(** *** The relation [moved] *)

Lemma moved_refl s : moved s s.
Proof.
  unfold moved. split_and!; try done. exists []. by rewrite app_nil_r.
Qed.

Lemma moved_trans s1 s2 s3 : moved s1 s2 → moved s2 s3 → moved s1 s3.
Proof.
  intros (Hh1 & Hf1 & Hz1 & Hj1 & (e1 & Ht1 & Hd1) & Hb1)
         (Hh2 & Hf2 & Hz2 & Hj2 & (e2 & Ht2 & Hd2) & Hb2).
  unfold moved. split_and!; try congruence; try tauto.
  exists (e1 ++ e2). split.
  - by rewrite Ht2, Ht1, app_assoc.
  - by apply Forall_app.
Qed.

Lemma moved_trace_prefix s s' : moved s s' → trace s `prefix_of` trace s'.
Proof. intros (_ & _ & _ & _ & (evs & -> & _) & _). by exists evs. Qed.

(** One call: the heap becomes [m] and [e] is added to the history. *)
Lemma moved_log s e m :
  allocates_descriptors e = false →
  (∀ dst data, e = EvMemcpy dst data →
     ∀ x p, x ∈ data → p ∈ pointers x → settled (trace s) p) →
  moved s (log e (set_devm m s)).
Proof.
  intros Hd Hp. unfold moved. split_and!; simpl; try done.
  - exists [e]. split; [done|]. by apply Forall_singleton.
  - intros Hbu. by apply bottom_up_snoc.
Qed.

Lemma moved_log' s e :
  allocates_descriptors e = false →
  (∀ dst data, e = EvMemcpy dst data →
     ∀ x p, x ∈ data → p ∈ pointers x → settled (trace s) p) →
  moved s (log e s).
Proof.
  intros Hd Hp.
  replace (log e s) with (log e (set_devm (devm s) s)) by by destruct s.
  by apply moved_log.
Qed.

(** *** Rules of the judgement *)

Lemma post_ret {A} m0 s (a : A) (Q : A → world → Prop) T :
  Q a s → post m0 s (ret a s) Q T.
Proof. intros HQ. simpl. split_and!; [apply moved_refl|done|done]. Qed.

(** A judgement made at a later state holds from an earlier one. *)
Lemma post_shift {A} m0 s s1 (o : outcome A) Q T :
  moved s s1 → (tidy (trace s) → tidy (trace s1)) →
  post m0 s1 o Q T → post m0 s o Q T.
Proof.
  intros Hm Ht. assert (fault_at s1 = fault_at s) as Hf by apply Hm.
  destruct o as [a s'|f s']; simpl.
  - intros (Hm' & Ht' & HQ). split_and!; [by eapply moved_trans|tauto|done].
  - intros (Hm' & Ht' & Hpre & HT).
    split_and!; [by eapply moved_trans|tauto|done|by rewrite <- Hf].
Qed.

Lemma post_bind {A B} m0 s (m : M A) (k : A → M B) Q1 T1 Q T :
  post m0 s (m s) Q1 T1 →
  (T → fault_at s = None → T1) →
  (∀ a s1, moved s s1 → Q1 a s1 → post m0 s1 (k a s1) Q T) →
  post m0 s (bind m k s) Q T.
Proof.
  intros Hm HT Hk. unfold bind. destruct (m s) as [a s1|f s1]; simpl in Hm.
  - destruct Hm as (Hmv & Ht & HQ). eapply post_shift; eauto.
  - destruct Hm as (Hmv & Ht & Hpre & HT1). simpl. split_and!; try done. tauto.
Qed.

Lemma post_mono {A} m0 s (o : outcome A) (Q1 Q2 : A → world → Prop) (T1 T2 : Prop) :
  post m0 s o Q1 T1 →
  (T2 → fault_at s = None → T1) →
  (∀ a s', moved s s' → Q1 a s' → Q2 a s') →
  post m0 s o Q2 T2.
Proof.
  intros Hp HT HQ. destruct o as [a s'|f s']; simpl in *.
  - destruct Hp as (Hmv & Ht & H1). split_and!; auto.
  - destruct Hp as (Hmv & Ht & Hpre & HT1). split_and!; try done. tauto.
Qed.

Lemma post_index {A} m0 s (v : list A) i (Q : A → world → Prop) (T : Prop) :
  m0 `prefix_of` devm s →
  (T → is_Some (v !! i)) →
  (∀ x, v !! i = Some x → Q x s) →
  post m0 s (index v i s) Q T.
Proof.
  intros Hpre HT HQ. unfold index. destruct (v !! i) as [x|] eqn:Hx; simpl.
  - split_and!; [apply moved_refl|done|by apply HQ].
  - split_and!; [apply moved_refl|done|done|].
    intros [Ht _]. by destruct (HT Ht).
Qed.

Lemma post_malloc {A} m0 s (indet : Z → A) n (Q : list A → world → Prop) T :
  Q (replicate (Z.to_nat n) (indet (junk s))) s →
  post m0 s (malloc indet n s) Q T.
Proof. intros HQ. unfold malloc. by apply post_ret. Qed.

Lemma post_for_from {St} m0 (body : nat → St → M St)
    (Inv : nat → St → world → Prop) T :
  ∀ count j acc s,
    Inv j acc s →
    (∀ i acc1 s1, (j ≤ i < j + count)%nat → Inv i acc1 s1 →
       post m0 s1 (body i acc1 s1) (Inv (S i)) T) →
    post m0 s (for_from j count body acc s) (Inv (j + count)%nat) T.
Proof.
  induction count as [|count IH]; intros j acc s HI Hbody; cbn [for_from].
  - apply post_ret. by rewrite Nat.add_0_r.
  - eapply post_bind; [apply Hbody; [lia|done]|done|].
    intros acc1 s1 _ HI1.
    replace (j + S count)%nat with (S j + count)%nat by lia.
    apply IH; [done|]. intros i acc2 s2 Hi. apply Hbody. lia.
Qed.

Lemma post_at_index {A} m0 s (v : list A) i (f : A → M A) Q T :
  m0 `prefix_of` devm s →
  (T → is_Some (v !! i)) →
  (∀ x, v !! i = Some x →
     post m0 s (f x s) (λ x' s', Q (<[i := x']> v) s') T) →
  post m0 s (at_index v i f s) Q T.
Proof.
  intros Hpre HT Hf. unfold at_index.
  eapply post_bind;
    [apply (post_index _ _ _ _ (λ x s', s' = s ∧ v !! i = Some x) T); try done|done|].
  intros x s1 _ [-> Hx].
  eapply post_bind; [by apply Hf|done|].
  intros x' s1 _ HQ. by apply post_ret.
Qed.

(** The runtime calls. *)

Lemma post_malloc_device m0 s T_ n T :
  m0 `prefix_of` devm s →
  allocates_descriptors (EvMalloc T_ n Null) = false →
  post m0 s (safeCall (malloc_device T_ n) s)
    (λ p s1, trace s1 = trace s ++ [EvMalloc T_ n p] ∧
             ((faulty s || (n <? 0) = true ∧ p = Null ∧ devm s1 = devm s) ∨
              (faulty s || (n <? 0) = false ∧
               p = fresh_ptr (zero_null s) n (devm s) ∧
               devm s1 = devm s ++ fresh_blocks (zero_null s) n
                                     (replicate (Z.to_nat n) EIndet))))
    T.
Proof.
  intros Hpre Hd. unfold safeCall, malloc_device.
  destruct (faulty s || (n <? 0)) eqn:Hf.
  - simpl. split_and!; [by apply moved_log'|intros Ht; by apply tidy_snoc|done|].
    left. by split_and!.
  - unfold fresh_ptr, fresh_blocks.
    destruct ((n =? 0) && zero_null s) eqn:Hz; simpl.
    + split_and!; [by apply moved_log'|intros Ht; by apply tidy_snoc|done|].
      right. split_and!; try done. by rewrite app_nil_r.
    + split_and!; [|intros Ht; by apply tidy_snoc|done|].
      * apply moved_log; [by destruct T_|done].
      * right. by split_and!.
Qed.

Lemma post_memcpy m0 s dst src n T :
  m0 `prefix_of` devm s →
  is_host dst = false ∨ n = 0 →
  (T → ∃ data, fetch (hostm s) src n = Some data ∧ is_Some (store (devm s) dst data)) →
  (∀ data, fetch (hostm s) src n = Some data →
     ∀ x p, x ∈ data → p ∈ pointers x → settled (trace s) p) →
  post m0 s (safeCall (memcpy dst src n) s)
    (λ _ s1, ∃ data, fetch (hostm s) src n = Some data ∧
                     store (devm s) dst data = Some (devm s1) ∧
                     trace s1 = trace s ++ [EvMemcpy dst data])
    T.
Proof.
  intros Hpre Hdst HT Hset. unfold safeCall, memcpy.
  destruct (faulty s) eqn:Hf.
  - simpl. split_and!.
    + by apply moved_log'.
    + intros Ht. by apply stopped_snoc.
    + done.
    + intros [Ht Hfa]. unfold faulty in Hf. by rewrite Hfa in Hf.
  - destruct (fetch (hostm s) src n) as [data|] eqn:Hfetch.
    + destruct (is_host dst) eqn:Hhost.
      * destruct Hdst as [?| ->]; [done|].
        apply fetch_spec in Hfetch as Hlen. destruct Hlen as [_ Hlen].
        destruct data; [|done]. simpl.
        change (log (EvMemcpy dst []) (set_hostm (hostm s) s))
          with (log (EvMemcpy dst []) s).
        split_and!.
        -- apply moved_log'; [done|]. intros dst' data' [= <- <-] x p Hx.
           by apply elem_of_nil in Hx.
        -- intros Ht. by apply tidy_snoc.
        -- by exists [].
      * destruct (store (devm s) dst data) as [m'|] eqn:Hstore; simpl.
        -- split_and!.
           ++ apply moved_log; [done|].
              intros dst' data' [= <- <-]. by apply Hset.
           ++ intros Ht. by apply tidy_snoc.
           ++ by exists data.
        -- split_and!; [apply moved_refl|done|done|].
           intros [Ht _]. destruct (HT Ht) as (data' & [= <-] & Hs).
           rewrite Hstore in Hs. by destruct Hs.
    + simpl. split_and!; [apply moved_refl|done|done|].
      intros [Ht _]. by destruct (HT Ht) as (data' & [=] & _).
Qed.

Lemma post_memcpy_staging {A} m0 s (src : list A) T :
  m0 `prefix_of` devm s →
  post m0 s (safeCall (memcpy_staging src (size src)) s)
    (λ l s1, l = src ∧ devm s1 = devm s ∧ trace s1 = trace s ++ [EvMemcpyHost (size src)])
    T.
Proof.
  intros Hpre. unfold safeCall, memcpy_staging.
  destruct (faulty s) eqn:Hf.
  - simpl. split_and!.
    + by apply moved_log'.
    + intros Ht. by apply stopped_snoc.
    + done.
    + intros [Ht Hfa]. unfold faulty in Hf. by rewrite Hfa in Hf.
  - unfold size. rewrite (proj2 (Z.leb_le 0 _)) by lia. rewrite Z.leb_refl. simpl.
    split_and!.
    + by apply moved_log'.
    + intros Ht. by apply tidy_snoc.
    + by rewrite Nat2Z.id, firstn_all.
    + done.
    + done.
Qed.

Lemma fresh_ptr_not_host zn n m : is_host (fresh_ptr zn n m) = false.
Proof. unfold fresh_ptr. by destruct ((n =? 0) && zn). Qed.

(** An allocation followed by the copy that fills it.  An allocation
    that fails returns a null pointer; the copy that follows then goes
    through only if it copies nothing. *)
Lemma post_alloc_fill {B} m0 s T_ n src (k : ptr → M B) Q T :
  m0 `prefix_of` devm s →
  allocates_descriptors (EvMalloc T_ n Null) = false →
  (T → is_Some (fetch (hostm s) src n)) →
  (∀ data, fetch (hostm s) src n = Some data →
     ∀ x p, x ∈ data → p ∈ pointers x → settled (trace s) p) →
  (∀ zn p data s2,
     moved s s2 → 0 ≤ n → p = fresh_ptr zn n (devm s) →
     fetch (hostm s) src n = Some data →
     devm s2 = devm s ++ fresh_blocks zn n data →
     settled (trace s2) p →
     post m0 s2 (k p s2) Q T) →
  post m0 s
    (bind (safeCall (malloc_device T_ n))
       (λ p, bind (safeCall (memcpy p src n)) (λ _, k p)) s) Q T.
Proof.
  intros Hpre Hd HT Hset Hk.
  eapply post_bind; [by apply (post_malloc_device m0 s T_ n True)|done|].
  intros p s1 Hmv1 (Htr1 & Hcase).
  assert (hostm s1 = hostm s) as Hh by apply Hmv1.
  assert (fault_at s1 = fault_at s) as Hfa by apply Hmv1.
  assert (∀ data, fetch (hostm s1) src n = Some data →
            ∀ x q, x ∈ data → q ∈ pointers x → settled (trace s1) q) as Hset1.
  { intros data Hdata x q Hx Hq. rewrite Hh in Hdata.
    eapply settled_prefix; [by apply moved_trace_prefix|]. by eapply Hset. }
  destruct Hcase as [(Hfail & -> & Hdev1)|(Hok & Hp & Hdev1)].
  - (* the allocation failed *)
    eapply post_bind.
    + apply (post_memcpy m0 s1 Null src n False);
        [by rewrite Hdev1|by left|done|done].
    + intros Ht Hnone. rewrite Hfa in Hnone.
      destruct (HT Ht) as [data Hdata]. apply fetch_spec in Hdata as [Hn _].
      unfold faulty in Hfail. rewrite Hnone in Hfail. simpl in Hfail.
      apply Z.ltb_lt in Hfail. lia.
    + intros _ s2 Hmv2 (data & Hdata & Hstore & Htr2). rewrite Hh in Hdata.
      destruct (fetch_spec _ _ _ _ Hdata) as [Hn Hlen].
      destruct data; [|done]. simpl in Hlen, Hstore. injection Hstore as Hdev2.
      assert (n = 0) as -> by lia.
      apply (Hk true Null [] s2); try done.
      * by eapply moved_trans.
      * unfold fresh_blocks. simpl. by rewrite app_nil_r, <- Hdev2.
      * rewrite Htr2, Htr1, <- app_assoc. simpl. by apply settled_fresh.
  - apply orb_false_iff in Hok as [_ Hn]. apply Z.ltb_ge in Hn.
    eapply post_bind.
    + apply (post_memcpy m0 s1 p src n T).
      * rewrite Hdev1. by apply prefix_app_r.
      * left. subst p. apply fresh_ptr_not_host.
      * intros Ht. destruct (HT Ht) as [data Hdata]. exists data. rewrite Hh.
        split; [done|]. destruct (fetch_spec _ _ _ _ Hdata) as [_ Hlen].
        rewrite Hdev1, Hp, store_fresh by done. done.
      * done.
    + done.
    + intros _ s2 Hmv2 (data & Hdata & Hstore & Htr2). rewrite Hh in Hdata.
      destruct (fetch_spec _ _ _ _ Hdata) as [_ Hlen].
      rewrite Hdev1, Hp, store_fresh in Hstore by done. injection Hstore as Hdev2.
      apply (Hk (zero_null s) p data s2); try done.
      * by eapply moved_trans.
      * rewrite Htr2, Htr1, <- app_assoc. simpl.
        apply settled_fresh; [subst p; apply fresh_ptr_target|lia].
Qed.

(** A loop that rewrites every element of a staging array in place. *)
Lemma post_each {A} m0 s (st0 : list A) (body : nat → A → M A)
    (P : nat → A → world → Prop) T :
  m0 `prefix_of` devm s →
  (∀ j x s1 s2, P j x s1 → moved s1 s2 → devm s1 `prefix_of` devm s2 → P j x s2) →
  (∀ j x s1, st0 !! j = Some x → moved s s1 → devm s `prefix_of` devm s1 →
     post m0 s1 (body j x s1) (λ x' s2, devm s1 `prefix_of` devm s2 ∧ P j x' s2) T) →
  post m0 s (for_lt (size st0) (λ j st, at_index st j (body j)) st0 s)
    (λ st s', devm s `prefix_of` devm s' ∧ length st = length st0 ∧
              ∀ j, (j < length st0)%nat → ∃ x', st !! j = Some x' ∧ P j x' s')
    T.
Proof.
  intros Hpre Hstable Hbody. unfold for_lt, size. rewrite Nat2Z.id.
  pose (Inv := λ (i : nat) (st : list A) (s1 : world),
    moved s s1 ∧ devm s `prefix_of` devm s1 ∧ length st = length st0 ∧
    (∀ j, (j < i)%nat → (j < length st0)%nat → ∃ x', st !! j = Some x' ∧ P j x' s1) ∧
    (∀ j, (i ≤ j)%nat → st !! j = st0 !! j)).
  eapply post_mono; [apply (post_for_from m0 _ Inv T (length st0) 0%nat st0 s)|done|].
  - unfold Inv. split_and!; [apply moved_refl|done|done| |done]. intros j Hj. lia.
  - intros i st s1 Hi (Hmv & Hdev & Hlen & Hdone & Htodo).
    apply post_at_index.
    + by etrans.
    + intros _. apply lookup_lt_is_Some. lia.
    + intros x Hx. rewrite Htodo in Hx by done.
      eapply post_mono; [by apply Hbody|done|].
      intros x' s2 Hmv2 [Hdev2 HP]. unfold Inv. split_and!.
      * by eapply moved_trans.
      * by etrans.
      * by rewrite length_insert.
      * intros j Hj Hjl. destruct (decide (j = i)) as [->|Hne].
        -- exists x'. split; [|done]. apply list_lookup_insert_eq. lia.
        -- rewrite list_lookup_insert_ne by done.
           destruct (Hdone j ltac:(lia) Hjl) as (y & Hy & HPy).
           exists y. split; [done|]. by eapply Hstable.
      * intros j Hj. rewrite list_lookup_insert_ne by lia. apply Htodo. lia.
  - intros st s' _ (Hmv & Hdev & Hlen & Hdone & _). split_and!; try done.
    intros j Hj. apply Hdone; [lia|done].
Qed.

(** *** Reading back is monotone *)

Lemma mirror_cell_state_le b m b' m' n e v :
  reads_le b m b' m' →
  mirror_cell_state b m n e = Some v → mirror_cell_state b' m' n e = Some v.
Proof.
  intros Hle. destruct e; try done. simpl.
  destruct (read_from b m (_total c) n) as [t|] eqn:Ht; [|done].
  by rewrite (Hle _ _ _ Ht).
Qed.

Lemma mirror_adjacency_cell_le b m b' m' e v :
  reads_le b m b' m' →
  mirror_adjacency_cell b m e = Some v → mirror_adjacency_cell b' m' e = Some v.
Proof.
  intros Hle. destruct e; try done. simpl.
  destruct (read_from b m (_point c) _) as [ps|] eqn:Hps; [|done].
  rewrite (Hle _ _ _ Hps). simpl.
  destruct (read_from b m (_facet c) _) as [fs|] eqn:Hfs; [|done].
  by rewrite (Hle _ _ _ Hfs).
Qed.

Lemma mirror_geometry_cell_le b m b' m' e v :
  reads_le b m b' m' →
  mirror_geometry_cell b m e = Some v → mirror_geometry_cell b' m' e = Some v.
Proof.
  intros Hle. destruct e; try done. simpl.
  destruct (read_from b m (_facet_g c) _) as [fs|] eqn:Hfs; [|done].
  by rewrite (Hle _ _ _ Hfs).
Qed.

Lemma mapM_le {A B} (f g : A → option B) l k :
  (∀ x y, f x = Some y → g x = Some y) → mapM f l = Some k → mapM g l = Some k.
Proof.
  intros Hfg Hl. apply mapM_Some. apply mapM_Some in Hl.
  eapply Forall2_impl; [exact Hl|]. intros x y. apply Hfg.
Qed.

Lemma mirror_view_le b m b' m' n d v :
  reads_le b m b' m' →
  mirror_view b m n d = Some v → mirror_view b' m' n d = Some v.
Proof.
  intros Hle. unfold mirror_view.
  destruct (read_from b m (cell_state_d d) _) as [csb|] eqn:H1; [|done].
  rewrite (Hle _ _ _ H1). simpl.
  destruct (mapM (mirror_cell_state b m n) csb) as [cs|] eqn:H2; [|done].
  rewrite (mapM_le _ (mirror_cell_state b' m' n) _ _
             (λ x y, mirror_cell_state_le _ _ _ _ _ x y Hle) H2). simpl.
  destruct (read_from b m (_nbrRank_d _) _) as [nr|] eqn:H3; [|done].
  rewrite (Hle _ _ _ H3). simpl.
  destruct (read_from b m (_node_d _) _) as [nd|] eqn:H4; [|done].
  rewrite (Hle _ _ _ H4). simpl.
  destruct (read_from b m (_cellConnectivity_d _) _) as [ccb|] eqn:H5; [|done].
  rewrite (Hle _ _ _ H5). simpl.
  destruct (mapM (mirror_adjacency_cell b m) ccb) as [cc|] eqn:H6; [|done].
  rewrite (mapM_le _ (mirror_adjacency_cell b' m') _ _
             (λ x y, mirror_adjacency_cell_le _ _ _ _ x y Hle) H6). simpl.
  destruct (read_from b m (_cellGeometry_d _) _) as [cgb|] eqn:H7; [|done].
  rewrite (Hle _ _ _ H7). simpl.
  destruct (mapM (mirror_geometry_cell b m) cgb) as [cg|] eqn:H8; [|done].
  rewrite (mapM_le _ (mirror_geometry_cell b' m') _ _
             (λ x y, mirror_geometry_cell_le _ _ _ _ x y Hle) H8). simpl.
  done.
Qed.

Lemma mirrors_cell_state_stable base n cells j c s1 s2 :
  mirrors_cell_state base n cells j c s1 →
  moved s1 s2 → devm s1 `prefix_of` devm s2 →
  mirrors_cell_state base n cells j c s2.
Proof.
  intros (Hs & Hnn & hc & v & Hhc & Hh & Hm) Hmv Hpre.
  assert (hostm s2 = hostm s1) as Hhm by apply Hmv.
  split_and!; [|done|].
  - eapply settled_prefix; [by apply moved_trace_prefix|done].
  - exists hc, v. rewrite Hhm. split_and!; try done.
    eapply mirror_cell_state_le; [by apply reads_le_prefix|done].
Qed.

Lemma mirrors_adjacency_cell_stable base host j c s1 s2 :
  mirrors_adjacency_cell base host j c s1 →
  moved s1 s2 → devm s1 `prefix_of` devm s2 →
  mirrors_adjacency_cell base host j c s2.
Proof.
  intros (Hs1 & Hs2 & Hn1 & Hn2 & hc & v & Hhc & Hc1 & Hc2 & Hh & Hm) Hmv Hpre.
  assert (hostm s2 = hostm s1) as Hhm by apply Hmv.
  pose proof (moved_trace_prefix _ _ Hmv) as Htr.
  split_and!; try done; try by eapply settled_prefix.
  exists hc, v. rewrite Hhm. split_and!; try done.
  eapply mirror_adjacency_cell_le; [by apply reads_le_prefix|done].
Qed.

Lemma mirrors_geometry_cell_stable base host j c s1 s2 :
  mirrors_geometry_cell base host j c s1 →
  moved s1 s2 → devm s1 `prefix_of` devm s2 →
  mirrors_geometry_cell base host j c s2.
Proof.
  intros (Hs1 & Hn1 & hc & v & Hhc & Hc1 & Hh & Hm) Hmv Hpre.
  assert (hostm s2 = hostm s1) as Hhm by apply Hmv.
  pose proof (moved_trace_prefix _ _ Hmv) as Htr.
  split_and!; try done; try by eapply settled_prefix.
  exists hc, v. rewrite Hhm. split_and!; try done.
  eapply mirror_geometry_cell_le; [by apply reads_le_prefix|done].
Qed.

(** *** The loop bodies *)

Lemma leaf_no_pointers T e : is_leaf T = true → has_type T e = true → pointers e = [].
Proof. by destruct T, e. Qed.

Lemma leaf_fetch_settled hm T p n evs :
  is_leaf T = true →
  ∀ data, fetch hm (FromPtr T p) n = Some data →
    ∀ x q, x ∈ data → q ∈ pointers x → settled evs q.
Proof.
  intros HT data Hdata x q Hx Hq. simpl in Hdata.
  apply read_host_spec in Hdata as (_ & _ & Hty).
  rewrite Forall_forall in Hty.
  rewrite (leaf_no_pointers T x HT (Hty x Hx)) in Hq. by apply elem_of_nil in Hq.
Qed.

Lemma cell_state_body_post m0 base n cells j c s :
  m0 `prefix_of` devm s → (base ≤ length (devm s))%nat →
  cells !! j = Some c →
  post m0 s (cell_state_body n cells j c s)
    (λ c' s2, devm s `prefix_of` devm s2 ∧ mirrors_cell_state base n cells j c' s2)
    (is_Some (host_cell_state (hostm s) n c)).
Proof.
  intros Hpre Hbase Hc. unfold cell_state_body.
  apply (post_bind _ _ _ _ (λ hc s', s' = s ∧ hc = c) True).
  { apply post_index; [done|intros _; by rewrite Hc|intros x Hx; split; congruence]. }
  { done. }
  intros hc s1 _ [-> ->]. cbv zeta. cbn [set_total _total].
  apply post_alloc_fill; try done.
  - unfold host_cell_state. intros [v Hv]. simpl.
    destruct (read_host _ _ _ _); [done|discriminate].
  - by apply leaf_fetch_settled.
  - intros zn p data s2 Hmv Hn Hp Hfetch Hdev Hset.
    assert (hostm s2 = hostm s) as Hh by apply Hmv.
    destruct (fetch_spec _ _ _ _ Hfetch) as [_ Hlen]. simpl in Hfetch.
    apply post_ret. split; [rewrite Hdev; by apply prefix_app_r|].
    split_and!; [done| |].
    + intros Hpos. subst p. by apply fresh_ptr_nonnull.
    + exists c, (cell_rest c, data). split_and!; [done| |].
      * unfold host_cell_state. by rewrite Hh, Hfetch.
      * simpl. rewrite Hdev, Hp, read_from_fresh by done. done.
Qed.

Lemma cellConnectivity_body_post m0 base host j c s :
  m0 `prefix_of` devm s → (base ≤ length (devm s))%nat →
  post m0 s (cellConnectivity_body host j c s)
    (λ c' s2, devm s `prefix_of` devm s2 ∧ mirrors_adjacency_cell base host j c' s2)
    (∃ hc, host !! j = Some hc ∧ is_Some (host_adjacency_cell (hostm s) hc)).
Proof.
  intros Hpre Hbase. unfold cellConnectivity_body.
  apply (post_bind _ _ _ _ (λ hc s', s' = s ∧ host !! j = Some hc)
           (is_Some (host !! j))).
  { by apply post_index. }
  { intros (hc & -> & _). done. }
  intros hc s1 _ [-> Hhc]. cbv zeta.
  cbn [set_num_points set_num_facets set_point set_facet num_points num_facets _point _facet].
  apply post_alloc_fill; try done.
  { intros (hc' & Hhc' & [v Hv]). rewrite Hhc in Hhc'. injection Hhc' as <-.
    unfold host_adjacency_cell in Hv. simpl.
    destruct (read_host _ T_int _ _); [done|discriminate]. }
  { by apply leaf_fetch_settled. }
  intros zn1 p1 d1 s2 Hmv2 Hn1 Hp1 Hf1 Hdev2 Hset1.
  assert (hostm s2 = hostm s) as Hh2 by apply Hmv2.
  destruct (fetch_spec _ _ _ _ Hf1) as [_ Hlen1]. simpl in Hf1.
  apply post_alloc_fill; try done.
  { rewrite Hdev2. by apply prefix_app_r. }
  { intros (hc' & Hhc' & [v Hv]). rewrite Hhc in Hhc'. injection Hhc' as <-.
    unfold host_adjacency_cell in Hv. rewrite Hf1 in Hv. simpl in Hv. simpl.
    rewrite Hh2. destruct (read_host _ T_MC_Facet_Adjacency _ _); [done|discriminate]. }
  { by apply leaf_fetch_settled. }
  intros zn2 p2 d2 s3 Hmv3 Hn2 Hp2 Hf2 Hdev3 Hset2.
  assert (hostm s3 = hostm s) as Hh3 by (rewrite <- Hh2; apply Hmv3).
  destruct (fetch_spec _ _ _ _ Hf2) as [_ Hlen2]. simpl in Hf2. rewrite Hh2 in Hf2.
  apply post_ret. split.
  { rewrite Hdev3, Hdev2, <- app_assoc. by apply prefix_app_r. }
  unfold mirrors_adjacency_cell. simpl. split_and!.
  - eapply settled_prefix; [by apply moved_trace_prefix|done].
  - done.
  - intros Hpos. subst p1. by apply fresh_ptr_nonnull.
  - intros Hpos. subst p2. by apply fresh_ptr_nonnull.
  - exists hc, (num_points hc, num_facets hc, d1, d2). split_and!; try done.
    + unfold host_adjacency_cell. by rewrite Hh3, Hf1, Hf2.
    + assert (read_from base (devm s2) p1 (num_points hc) = Some d1) as Hr1.
      { rewrite Hdev2, Hp1. by apply read_from_fresh. }
      assert (read_from base (devm s3) p2 (num_facets hc) = Some d2) as Hr2.
      { rewrite Hdev3, Hp2. apply read_from_fresh; try done.
        rewrite Hdev2, length_app. lia. }
      assert (reads_le base (devm s2) base (devm s3)) as Hle.
      { apply reads_le_prefix. rewrite Hdev3. by apply prefix_app_r. }
      by rewrite (Hle _ _ _ Hr1), Hr2.
Qed.

Lemma cellGeometry_body_post m0 base host j c s :
  m0 `prefix_of` devm s → (base ≤ length (devm s))%nat →
  post m0 s (cellGeometry_body host j c s)
    (λ c' s2, devm s `prefix_of` devm s2 ∧ mirrors_geometry_cell base host j c' s2)
    (∃ hc, host !! j = Some hc ∧ is_Some (host_geometry_cell (hostm s) hc)).
Proof.
  intros Hpre Hbase. unfold cellGeometry_body.
  apply (post_bind _ _ _ _ (λ hc s', s' = s ∧ host !! j = Some hc)
           (is_Some (host !! j))).
  { by apply post_index. }
  { intros (hc & -> & _). done. }
  intros hc s1 _ [-> Hhc]. cbv zeta.
  cbn [set_size set_facet_g _size _facet_g].
  apply post_alloc_fill; try done.
  { intros (hc' & Hhc' & [v Hv]). rewrite Hhc in Hhc'. injection Hhc' as <-.
    unfold host_geometry_cell in Hv. simpl.
    destruct (read_host _ T_MC_General_Plane _ _); [done|discriminate]. }
  { by apply leaf_fetch_settled. }
  intros zn1 p1 d1 s2 Hmv2 Hn1 Hp1 Hf1 Hdev2 Hset1.
  assert (hostm s2 = hostm s) as Hh2 by apply Hmv2.
  destruct (fetch_spec _ _ _ _ Hf1) as [_ Hlen1]. simpl in Hf1.
  apply post_ret. split; [rewrite Hdev2; by apply prefix_app_r|].
  unfold mirrors_geometry_cell. simpl. split_and!; [done| |].
  - intros Hpos. subst p1. by apply fresh_ptr_nonnull.
  - exists hc, (_size hc, d1). split_and!; try done.
    + unfold host_geometry_cell. by rewrite Hh2, Hf1.
    + rewrite Hdev2, Hp1, read_from_fresh by done. done.
Qed.

(** *** One domain *)

Lemma shape_agrees_le b m b' m' n d dh :
  reads_le b m b' m' → shape_agrees b n m d dh → shape_agrees b' n m' d dh.
Proof.
  intros Hle (H1 & H2 & H3 & H4 & H5 & (cs & Hcs & Fcs) & (cc & Hcc & Fcc) & (cg & Hcg & Fcg)).
  unfold shape_agrees. split_and!; try tauto.
  - exists cs. split; [by apply Hle|done].
  - exists cc. split; [by apply Hle|done].
  - exists cg. split; [by apply Hle|done].
Qed.

Lemma mirrors_domain_stable base n domain i dh s1 s2 :
  mirrors_domain base n domain i dh s1 →
  moved s1 s2 → devm s1 `prefix_of` devm s2 →
  mirrors_domain base n domain i dh s2.
Proof.
  intros (d & Hd & (v & Hh & Hm) & Hset & Hshape) Hmv Hpre.
  assert (hostm s2 = hostm s1) as Hhm by apply Hmv.
  pose proof (reads_le_prefix base _ _ Hpre) as Hle.
  exists d. split_and!; [done| | |].
  - exists v. rewrite Hhm. split; [done|]. by eapply mirror_view_le.
  - intros p Hp. eapply settled_prefix; [by apply moved_trace_prefix|by apply Hset].
  - by eapply shape_agrees_le.
Qed.

(** Two arrays whose elements read back alike give the same views. *)
Lemma views_agree {A B C} (f : A → option C) (g : B → option C) :
  ∀ (l : list A) (k : list B),
    length l = length k →
    (∀ j, (j < length l)%nat →
       ∃ x y v, l !! j = Some x ∧ k !! j = Some y ∧ f x = Some v ∧ g y = Some v) →
    ∃ vs, mapM f l = Some vs ∧ mapM g k = Some vs.
Proof.
  induction l as [|x l IH]; intros [|y k] Hlen H; try done.
  - by exists [].
  - destruct (H 0%nat ltac:(simpl; lia)) as (x' & y' & v & [= <-] & [= <-] & Hf & Hg).
    destruct (IH k) as (vs & Hvs1 & Hvs2).
    + simpl in Hlen. lia.
    + intros j Hj. apply (H (S j)). simpl. lia.
    + exists (v :: vs). simpl. by rewrite Hf, Hg, Hvs1, Hvs2.
Qed.

Lemma host_view_is_Some hm n d :
  is_Some (host_view hm n d) →
  Forall (λ c, is_Some (host_cell_state hm n c)) (cell_state d) ∧
  Forall (λ c, is_Some (host_adjacency_cell hm c)) (_cellConnectivity (mesh d)) ∧
  Forall (λ c, is_Some (host_geometry_cell hm c)) (_cellGeometry (mesh d)).
Proof.
  intros [v Hv]. unfold host_view in Hv.
  destruct (mapM (host_cell_state hm n) _) as [cs|] eqn:H1; [|done].
  destruct (mapM (host_adjacency_cell hm) _) as [cc|] eqn:H2; [|done].
  destruct (mapM (host_geometry_cell hm) _) as [cg|] eqn:H3; [|done].
  split_and!; apply (mapM_is_Some_1 _); eauto.
Qed.

Lemma array_settled {A} (inj : A → elem) (st : list A) evs :
  (∀ j x, st !! j = Some x → ∀ p, p ∈ pointers (inj x) → settled evs p) →
  ∀ x p, x ∈ map inj st → p ∈ pointers x → settled evs p.
Proof.
  intros H x p Hx Hp. apply list_elem_of_fmap in Hx as (y & -> & Hy).
  apply list_elem_of_lookup in Hy as [j Hj]. by eapply H.
Qed.

Lemma leaf_array_settled {A} (inj : A → elem) (l : list A) evs :
  (∀ x, pointers (inj x) = []) →
  ∀ x p, x ∈ map inj l → p ∈ pointers x → settled evs p.
Proof.
  intros H x p Hx Hp. apply list_elem_of_fmap in Hx as (y & -> & Hy).
  rewrite H in Hp. by apply elem_of_nil in Hp.
Qed.

Lemma fetch_array' hm l n : n = size l → fetch hm (FromArray l) n = Some l.
Proof. intros ->. apply fetch_array. Qed.

(** A staging array rewritten element by element, then copied as a
    whole into a fresh allocation. *)
Lemma post_nested {A B} m0 base s T_ (inj : A → elem) (body : nat → A → M A)
    (P : nat → A → world → Prop) (st0 : list A) n (k : list A → ptr → M B) Q T :
  m0 `prefix_of` devm s → (base ≤ length (devm s))%nat →
  allocates_descriptors (EvMalloc T_ n Null) = false →
  n = size st0 →
  (∀ j x s1 s2, P j x s1 → moved s1 s2 → devm s1 `prefix_of` devm s2 → P j x s2) →
  (∀ j x s', P j x s' → ∀ p, p ∈ pointers (inj x) → settled (trace s') p) →
  (∀ j x s1, st0 !! j = Some x → moved s s1 → devm s `prefix_of` devm s1 →
     post m0 s1 (body j x s1) (λ x' s2, devm s1 `prefix_of` devm s2 ∧ P j x' s2) T) →
  (∀ st p s3,
     moved s s3 → devm s `prefix_of` devm s3 →
     length st = length st0 →
     (∀ j, (j < length st0)%nat → ∃ x', st !! j = Some x' ∧ P j x' s3) →
     settled (trace s3) p →
     (0 < n → is_null p = false) →
     read_from base (devm s3) p n = Some (map inj st) →
     post m0 s3 (k st p s3) Q T) →
  post m0 s
    (bind (for_lt n (λ j st, at_index st j (body j)) st0)
       (λ st, bind (safeCall (malloc_device T_ n))
                (λ p, bind (safeCall (memcpy p (FromArray (map inj st)) n))
                         (λ _, k st p))) s) Q T.
Proof.
  intros Hpre Hbase Hd -> Hstable Hptr Hbody Hk.
  eapply post_bind; [by apply (post_each m0 s st0 body P T)|done|].
  intros st s2 Hmv2 (Hdev2 & Hlen & Hst).
  assert (size st0 = size (map inj st)) as Hsz.
  { unfold size. by rewrite length_map, Hlen. }
  apply post_alloc_fill; try done.
  - by etrans.
  - intros _. by rewrite fetch_array'.
  - intros data Hdata. rewrite fetch_array' in Hdata by done. injection Hdata as <-.
    apply array_settled. intros j x Hx.
    destruct (Hst j) as (x' & Hx' & HP).
    { apply lookup_lt_Some in Hx. lia. }
    rewrite Hx in Hx'. injection Hx' as <-. by eapply Hptr.
  - intros zn p data s3 Hmv3 Hn Hp Hf Hdev3 Hset.
    rewrite fetch_array' in Hf by done. injection Hf as <-.
    assert (devm s2 `prefix_of` devm s3) as Hpre3.
    { rewrite Hdev3. by apply prefix_app_r. }
    apply Hk; try done.
    + by eapply moved_trans.
    + by etrans.
    + intros j Hj. destruct (Hst j Hj) as (x' & Hx' & HP).
      exists x'. split; [done|]. by eapply Hstable.
    + intros Hpos. subst p. by apply fresh_ptr_nonnull.
    + rewrite Hdev3, Hp. apply read_from_fresh; [|done|].
      * apply prefix_length in Hdev2. lia.
      * rewrite Hsz. unfold size. by rewrite Nat2Z.id.
Qed.

(** A flat array copied into a fresh allocation. *)
Lemma post_flat {A B} m0 base s T_ (inj : A → elem) (l : list A) n
    (k : ptr → M B) Q T :
  m0 `prefix_of` devm s → (base ≤ length (devm s))%nat →
  allocates_descriptors (EvMalloc T_ n Null) = false →
  n = size l →
  (∀ x, pointers (inj x) = []) →
  (∀ p s3,
     moved s s3 → devm s `prefix_of` devm s3 →
     settled (trace s3) p →
     (0 < n → is_null p = false) →
     read_from base (devm s3) p n = Some (map inj l) →
     post m0 s3 (k p s3) Q T) →
  post m0 s
    (bind (safeCall (malloc_device T_ n))
       (λ p, bind (safeCall (memcpy p (FromArray (map inj l)) n)) (λ _, k p)) s) Q T.
Proof.
  intros Hpre Hbase Hd -> Hleaf Hk.
  assert (size l = size (map inj l)) as Hsz.
  { unfold size. by rewrite length_map. }
  apply post_alloc_fill; try done.
  - intros _. by rewrite fetch_array'.
  - intros data Hdata. rewrite fetch_array' in Hdata by done. injection Hdata as <-.
    by apply leaf_array_settled.
  - intros zn p data s3 Hmv3 Hn Hp Hf Hdev3 Hset.
    rewrite fetch_array' in Hf by done. injection Hf as <-.
    apply Hk; try done.
    + rewrite Hdev3. by apply prefix_app_r.
    + intros Hpos. subst p. by apply fresh_ptr_nonnull.
    + rewrite Hdev3, Hp. apply read_from_fresh; [done|done|].
      rewrite Hsz. unfold size. by rewrite Nat2Z.id.
Qed.

Ltac fields :=
  cbn [set_total set_num_points set_num_facets set_point set_facet set_size
       set_facet_g set_domainIndex set_global_domain set_cell_state
       set_cell_stateSize set_mesh set_domainGid set_nbrRank set_nbrRankSize
       set_node set_nodeSize set_cellConnectivity set_cellConnectivitySize
       set_cellGeometry set_cellGeometrySize
       _total cell_rest num_points num_facets _point _facet _facet_g _size
       domainIndex_d global_domain_d cell_state_d cell_stateSize mesh_d
       _domainGid_d _nbrRank_d _nbrRankSize _node_d _nodeSize
       _cellConnectivity_d _cellConnectivitySize _cellGeometry_d
       _cellGeometrySize].

Lemma domain_body_post m0 base n domain i dh s :
  m0 `prefix_of` devm s → (base ≤ length (devm s))%nat →
  post m0 s (domain_body n domain i dh s)
    (λ dh' s', devm s `prefix_of` devm s' ∧ mirrors_domain base n domain i dh' s')
    (∃ d, domain !! i = Some d ∧ is_Some (host_view (hostm s) n d)).
Proof.
  intros Hpre Hbase. unfold domain_body.
  set (T := ∃ d, domain !! i = Some d ∧ is_Some (host_view (hostm s) n d)).
  apply (post_bind _ _ _ _ (λ d s', s' = s ∧ domain !! i = Some d) (is_Some (domain !! i))).
  { by apply post_index. }
  { intros (d & -> & _). done. }
  intros d s0 _ [-> Hd]. cbv zeta. fields.
  assert (T → Forall (λ c, is_Some (host_cell_state (hostm s) n c)) (cell_state d) ∧
    Forall (λ c, is_Some (host_adjacency_cell (hostm s) c)) (_cellConnectivity (mesh d)) ∧
    Forall (λ c, is_Some (host_geometry_cell (hostm s) c)) (_cellGeometry (mesh d)))
    as HT.
  { intros (d' & Hd' & Hv). rewrite Hd in Hd'. injection Hd' as <-.
    by apply host_view_is_Some. }
  (* the cell states *)
  eapply post_bind; [by apply (post_memcpy_staging m0 s (cell_state d) T)|done|].
  intros cell_state_h s1 Hmv1 (-> & Hdev1 & _).
  assert (hostm s1 = hostm s) as Hh1 by apply Hmv1.
  apply (post_nested m0 base s1 T_MC_Cell_State ECellState _
           (mirrors_cell_state base n (cell_state d))); try done.
  { by rewrite Hdev1. }
  { by rewrite Hdev1. }
  { intros j x sa sb. apply mirrors_cell_state_stable. }
  { intros j x s' (Hset & _) p Hp. simpl in Hp. apply list_elem_of_singleton in Hp. by subst. }
  { intros j c sa Hc Hmva Hprea.
    assert (hostm sa = hostm s) as Hha by (rewrite <- Hh1; apply Hmva).
    eapply post_mono; [apply (cell_state_body_post m0 base)| |]; try done.
    + etrans; [|exact Hprea]. by rewrite Hdev1.
    + apply prefix_length in Hprea. rewrite Hdev1 in Hprea. lia.
    + intros Ht _. rewrite Hha. destruct (HT Ht) as [Hcs _].
      rewrite Forall_lookup in Hcs. by eapply Hcs. }
  intros cs p_cs s2 Hmv2 Hdev2 Hlen_cs Hcs Hset_cs Hnn_cs Hrd_cs.
  rewrite Hdev1 in Hdev2.
  (* the neighbour ranks *)
  apply (post_flat m0 base s2 T_int EInt); try done.
  { by etrans. }
  { apply prefix_length in Hdev2. lia. }
  intros p_nr s3 Hmv3 Hdev3 Hset_nr Hnn_nr Hrd_nr.
  (* the nodes *)
  apply (post_flat m0 base s3 T_MC_Vector EVector); try done.
  { etrans; [|exact Hdev3]. by etrans. }
  { apply prefix_length in Hdev2, Hdev3. lia. }
  intros p_nd s4 Hmv4 Hdev4 Hset_nd Hnn_nd Hrd_nd.
  (* the cell connectivity *)
  apply (post_bind _ _ _ _
           (λ l s', s' = s4 ∧
              l = replicate (Z.to_nat (size (_cellConnectivity (mesh d))))
                    (indet_adjacency_cell (junk s4))) T).
  { by apply post_malloc. }
  { done. }
  intros cellConnectivity s4' _ [-> ->].
  assert (devm s `prefix_of` devm s4) as Hdev04.
  { etrans; [|exact Hdev4]. by etrans. }
  assert (moved s s4) as Hmv04.
  { eapply moved_trans; [|exact Hmv4]. eapply moved_trans; [|exact Hmv3].
    by eapply moved_trans. }
  apply (post_nested m0 base s4 T_MC_Facet_Adjacency_Cell EAdjacencyCell _
           (mirrors_adjacency_cell base (_cellConnectivity (mesh d)))); try done.
  { by etrans. }
  { apply prefix_length in Hdev04. lia. }
  { unfold size. by rewrite length_replicate, Nat2Z.id. }
  { intros j x sa sb. apply mirrors_adjacency_cell_stable. }
  { intros j x s' (Hs1 & Hs2 & _) p Hp. simpl in Hp.
    apply elem_of_cons in Hp as [->|Hp]; [done|].
    apply list_elem_of_singleton in Hp. by subst. }
  { intros j c sa Hc Hmva Hprea.
    assert (hostm sa = hostm s) as Hha.
    { transitivity (hostm s4); [apply Hmva|apply Hmv04]. }
    eapply post_mono; [apply (cellConnectivity_body_post m0 base)| |]; try done.
    + etrans; [|exact Hprea]. by etrans.
    + apply prefix_length in Hprea, Hdev04. lia.
    + intros Ht. rewrite Hha. destruct (HT Ht) as (_ & Hcc & _).
      apply lookup_lt_Some in Hc. rewrite length_replicate in Hc.
      unfold size in Hc. rewrite Nat2Z.id in Hc.
      destruct (lookup_lt_is_Some_2 _ _ Hc) as [hc Hhc].
      exists hc. split; [done|]. rewrite Forall_lookup in Hcc. by eapply Hcc. }
  intros cc p_cc s5 Hmv5 Hdev5 Hlen_cc Hcc Hset_cc Hnn_cc Hrd_cc.
  rewrite length_replicate in Hlen_cc, Hcc. unfold size in Hlen_cc, Hcc.
  rewrite Nat2Z.id in Hlen_cc, Hcc.
  (* the cell geometry *)
  apply (post_bind _ _ _ _
           (λ l s', s' = s5 ∧
              l = replicate (Z.to_nat (size (_cellGeometry (mesh d))))
                    (indet_geometry_cell (junk s5))) T).
  { by apply post_malloc. }
  { done. }
  intros cellGeometry s5' _ [-> ->].
  assert (devm s `prefix_of` devm s5) as Hdev05 by by etrans.
  assert (moved s s5) as Hmv05 by by eapply moved_trans.
  apply (post_nested m0 base s5 T_MC_Facet_Geometry_Cell EGeometryCell _
           (mirrors_geometry_cell base (_cellGeometry (mesh d)))); try done.
  { by etrans. }
  { apply prefix_length in Hdev05. lia. }
  { unfold size. by rewrite length_replicate, Nat2Z.id. }
  { intros j x sa sb. apply mirrors_geometry_cell_stable. }
  { intros j x s' (Hs1 & _) p Hp. simpl in Hp.
    apply list_elem_of_singleton in Hp. by subst. }
  { intros j c sa Hc Hmva Hprea.
    assert (hostm sa = hostm s) as Hha.
    { transitivity (hostm s5); [apply Hmva|apply Hmv05]. }
    eapply post_mono; [apply (cellGeometry_body_post m0 base)| |]; try done.
    + etrans; [|exact Hprea]. by etrans.
    + apply prefix_length in Hprea, Hdev05. lia.
    + intros Ht. rewrite Hha. destruct (HT Ht) as (_ & _ & Hcg).
      apply lookup_lt_Some in Hc. rewrite length_replicate in Hc.
      unfold size in Hc. rewrite Nat2Z.id in Hc.
      destruct (lookup_lt_is_Some_2 _ _ Hc) as [hc Hhc].
      exists hc. split; [done|]. rewrite Forall_lookup in Hcg. by eapply Hcg. }
  intros cg p_cg s6 Hmv6 Hdev6 Hlen_cg Hcg Hset_cg Hnn_cg Hrd_cg.
  rewrite length_replicate in Hlen_cg, Hcg. unfold size in Hlen_cg, Hcg.
  rewrite Nat2Z.id in Hlen_cg, Hcg.
  apply post_ret.
  (* everything established on the way still holds at the end *)
  assert (devm s2 `prefix_of` devm s6) as P26.
  { etrans; [exact Hdev3|]. etrans; [exact Hdev4|]. by etrans. }
  assert (devm s3 `prefix_of` devm s6) as P36.
  { etrans; [exact Hdev4|]. by etrans. }
  assert (devm s4 `prefix_of` devm s6) as P46 by by etrans.
  assert (moved s4 s6) as M46 by by eapply moved_trans.
  assert (moved s3 s6) as M36 by by eapply moved_trans.
  assert (moved s2 s6) as M26 by by eapply moved_trans.
  assert (hostm s6 = hostm s) as Hh6.
  { transitivity (hostm s5); [apply Hmv6|apply Hmv05]. }
  pose proof (reads_le_prefix base _ _ P26 _ _ _ Hrd_cs) as R_cs.
  pose proof (reads_le_prefix base _ _ P36 _ _ _ Hrd_nr) as R_nr.
  pose proof (reads_le_prefix base _ _ P46 _ _ _ Hrd_nd) as R_nd.
  pose proof (reads_le_prefix base _ _ Hdev6 _ _ _ Hrd_cc) as R_cc.
  assert (∀ j, (j < length (cell_state d))%nat →
            ∃ x', cs !! j = Some x' ∧ mirrors_cell_state base n (cell_state d) j x' s6)
    as Hcs6.
  { intros j Hj. destruct (Hcs j Hj) as (x' & Hx' & HP). exists x'. split; [done|].
    by eapply mirrors_cell_state_stable. }
  assert (∀ j, (j < length (_cellConnectivity (mesh d)))%nat →
            ∃ x', cc !! j = Some x' ∧
                  mirrors_adjacency_cell base (_cellConnectivity (mesh d)) j x' s6)
    as Hcc6.
  { intros j Hj. destruct (Hcc j Hj) as (x' & Hx' & HP). exists x'. split; [done|].
    by eapply mirrors_adjacency_cell_stable. }
  split; [by etrans|].
  exists d. split_and!; [done| | |].
  - (* the views *)
    destruct (views_agree (host_cell_state (hostm s6) n)
                (mirror_cell_state base (devm s6) n)
                (cell_state d) (map ECellState cs)) as (v_cs & Hv1 & Hv1').
    { by rewrite length_map. }
    { intros j Hj. destruct (Hcs6 j Hj) as (c & Hc & _ & _ & hc & v & Hhc & Hhv & Hmv).
      exists hc, (ECellState c), v. rewrite list_lookup_fmap, Hc. done. }
    destruct (views_agree (host_adjacency_cell (hostm s6))
                (mirror_adjacency_cell base (devm s6))
                (_cellConnectivity (mesh d)) (map EAdjacencyCell cc))
      as (v_cc & Hv2 & Hv2').
    { by rewrite length_map. }
    { intros j Hj.
      destruct (Hcc6 j Hj) as (c & Hc & _ & _ & _ & _ & hc & v & Hhc & _ & _ & Hhv & Hmv).
      exists hc, (EAdjacencyCell c), v. rewrite list_lookup_fmap, Hc. done. }
    destruct (views_agree (host_geometry_cell (hostm s6))
                (mirror_geometry_cell base (devm s6))
                (_cellGeometry (mesh d)) (map EGeometryCell cg))
      as (v_cg & Hv3 & Hv3').
    { by rewrite length_map. }
    { intros j Hj.
      destruct (Hcg j Hj) as (c & Hc & _ & _ & hc & v & Hhc & _ & Hhv & Hmv).
      exists hc, (EGeometryCell c), v. rewrite list_lookup_fmap, Hc. done. }
    eexists. unfold host_view, mirror_view. fields.
    rewrite Hv1, Hv2, Hv3, R_cs, R_nr, R_nd, R_cc, Hrd_cg. cbn [mbind option_bind].
    rewrite Hv1', Hv2', Hv3'. cbn [mbind option_bind]. done.
  - (* the addresses *)
    intros p Hp. simpl in Hp.
    repeat (apply elem_of_cons in Hp as [->|Hp]);
      [ eapply settled_prefix; [apply (moved_trace_prefix _ _ M26)|done]
      | eapply settled_prefix; [apply (moved_trace_prefix _ _ M36)|done]
      | eapply settled_prefix; [apply (moved_trace_prefix _ _ M46)|done]
      | eapply settled_prefix; [apply (moved_trace_prefix _ _ Hmv6)|done]
      | done
      | by apply elem_of_nil in Hp ].
  - (* the counts *)
    unfold shape_agrees. fields. split_and!; try done.
    + exists cs. split; [done|]. apply Forall_lookup. intros j c Hc.
      destruct (Hcs6 j) as (c' & Hc' & _ & Hnn & _).
      { apply lookup_lt_Some in Hc. lia. }
      rewrite Hc in Hc'. by injection Hc' as <-.
    + exists cc. split; [done|].
      apply Forall2_same_length_lookup_2; [done|]. intros j hc c Hhc Hc.
      destruct (Hcc6 j) as (c' & Hc' & _ & _ & Hn1 & Hn2 & hc' & v & Hhc' & E1 & E2 & _).
      { by apply lookup_lt_Some in Hhc. }
      rewrite Hc in Hc'. injection Hc' as <-.
      rewrite Hhc in Hhc'. injection Hhc' as <-. done.
    + exists cg. split; [done|].
      apply Forall2_same_length_lookup_2; [done|]. intros j hc c Hhc Hc.
      destruct (Hcg j) as (c' & Hc' & _ & Hn1 & hc' & v & Hhc' & E1 & _).
      { by apply lookup_lt_Some in Hhc. }
      rewrite Hc in Hc'. injection Hc' as <-.
      rewrite Hhc in Hhc'. injection Hhc' as <-. done.
Qed.

(** *** The whole build *)

Lemma has_room_prefix m m' domain_d n :
  m `prefix_of` m' → has_room m domain_d n → has_room m' domain_d n.
Proof.
  intros Hpre [Hz|(a & blk & Ha & Hblk & Hlen)]; [by left|].
  right. exists a, blk. split_and!; try done. by eapply prefix_lookup_Some.
Qed.

Lemma host_views_is_Some hm n domain i d :
  is_Some (host_views hm n domain) → domain !! i = Some d →
  is_Some (host_view hm n d).
Proof.
  intros Hv Hd. apply mapM_is_Some_1 in Hv. rewrite Forall_lookup in Hv.
  by apply (Hv i d).
Qed.


(** The loop over the domains, on the staging array that [malloc]
    returned. *)
Lemma domain_loop_post n domain s :
  post (devm s) s
    (for_lt (size domain)
       (λ i domain_h, at_index domain_h i (domain_body n domain i))
       (replicate (Z.to_nat (size domain)) (indet_domain (junk s))) s)
    (λ domain_h s1,
       devm s `prefix_of` devm s1 ∧ length domain_h = length domain ∧
       ∀ i, (i < length domain)%nat →
         ∃ dh, domain_h !! i = Some dh ∧
               mirrors_domain (length (devm s)) n domain i dh s1)
    (is_Some (host_views (hostm s) n domain)).
Proof.
  set (T := is_Some (host_views (hostm s) n domain)).
  set (st0 := replicate (Z.to_nat (size domain)) (indet_domain (junk s))).
  assert (length st0 = length domain) as Hlen0.
  { unfold st0, size. by rewrite length_replicate, Nat2Z.id. }
  replace (size domain) with (size st0) by (unfold size; by rewrite Hlen0).
  eapply post_mono.
  - apply (post_each _ s st0 _ (mirrors_domain (length (devm s)) n domain) T).
    + done.
    + intros j x sa sb. apply mirrors_domain_stable.
    + intros j dh sa Hdh Hmva Hprea.
      assert (hostm sa = hostm s) as Hha by apply Hmva.
      eapply post_mono; [apply (domain_body_post (devm s) (length (devm s)))| |];
        try done.
      * by apply prefix_length.
      * intros Hv _. apply lookup_lt_Some in Hdh. rewrite Hlen0 in Hdh.
        destruct (lookup_lt_is_Some_2 _ _ Hdh) as [d Hd].
        exists d. split; [done|]. rewrite Hha. by eapply host_views_is_Some.
  - done.
  - intros domain_h s1 _ (Hdev1 & Hlen1 & Hdoms). rewrite Hlen0 in Hlen1, Hdoms.
    done.
Qed.

Lemma has_room_target m domain_d (domain : list MC_Domain) :
  has_room m domain_d (size domain) → is_host domain_d = false ∨ domain = [].
Proof.
  intros [Hz|(a & blk & -> & _)]; [right|by left].
  destruct domain; [done|]. unfold size in Hz. simpl in Hz. lia.
Qed.

Lemma copyDomainDevice_post n domain domain_d s :
  is_host domain_d = false ∨ domain = [] →
  post (devm s) s (copyDomainDevice n domain domain_d s)
    (built n domain domain_d s)
    (is_Some (host_views (hostm s) n domain) ∧
     has_room (devm s) domain_d (size domain)).
Proof.
  intros Hdst. unfold copyDomainDevice. cbv zeta.
  set (T := is_Some (host_views (hostm s) n domain) ∧
            has_room (devm s) domain_d (size domain)).
  apply (post_bind _ _ _ _
           (λ l s', s' = s ∧
              l = replicate (Z.to_nat (size domain)) (indet_domain (junk s))) T).
  { by apply post_malloc. }
  { done. }
  intros domain_h0 s0 _ [-> ->].
  eapply post_bind; [apply domain_loop_post|by intros [? _] _|].
  intros domain_h s1 Hmv1 (Hdev1 & Hlen1 & Hdoms).
  assert (size domain = size (map EDomain domain_h)) as Hsz.
  { unfold size. by rewrite length_map, Hlen1. }
  eapply post_bind.
  { apply (post_memcpy (devm s) s1 domain_d (FromArray (map EDomain domain_h))
             (size domain) T).
    - done.
    - destruct Hdst as [?| ->]; [by left|by right].
    - intros [_ Hroom]. exists (map EDomain domain_h).
      split; [by apply fetch_array'|].
      apply (has_room_prefix _ _ _ _ Hdev1) in Hroom. rewrite Hsz in Hroom.
      destruct (has_room_store _ _ _ Hroom) as (m' & -> & _). done.
    - intros data Hdata. rewrite fetch_array' in Hdata by done. injection Hdata as <-.
      apply array_settled. intros j dh Hdh p Hp.
      destruct (Hdoms j) as (dh' & Hdh' & d & _ & _ & Hset & _).
      { apply lookup_lt_Some in Hdh. lia. }
      rewrite Hdh in Hdh'. injection Hdh' as <-. by apply Hset. }
  { done. }
  intros _ s2 Hmv2 (data & Hdata & Hstore & Htr).
  rewrite fetch_array' in Hdata by done. injection Hdata as <-.
  apply post_ret. split; [done|]. exists s1, domain_h. by split_and!.
Qed.

(** Reading back what a completed build left behind the caller's
    pointer. *)
Lemma built_read_back_full n domain domain_d s sz s' :
  has_room (devm s) domain_d (size domain) →
  built n domain domain_d s sz s' →
  ∃ s1 ds,
    moved s s1 ∧
    trace s' = trace s1 ++ [EvMemcpy domain_d (map EDomain ds)] ∧
    descriptors (devm s') domain_d sz = Some ds ∧
    length ds = length domain ∧
    ∀ i, (i < length domain)%nat →
      ∃ dd d, ds !! i = Some dd ∧ domain !! i = Some d ∧
              (∃ v, host_view (hostm s) n d = Some v ∧
                    mirror_view 0 (devm s') n dd = Some v) ∧
              shape_agrees 0 n (devm s') d dd ∧
              (∀ p, p ∈ pointers (EDomain dd) → settled (trace s1) p).
Proof.
  intros Hroom (-> & s1 & domain_h & Hmv & Hpre & Hlen & Hdoms & Hstore & Htr).
  assert (hostm s1 = hostm s) as Hh by apply Hmv.
  assert (size domain = size (map EDomain domain_h)) as Hsz.
  { unfold size. by rewrite length_map, Hlen. }
  assert (reads_le (length (devm s)) (devm s1) 0 (devm s') ∧
          read_dev (devm s') domain_d (size domain) = Some (map EDomain domain_h))
    as [Hle Hrd].
  { destruct Hroom as [Hz|(a & blk & -> & Hblk & Hroom)].
    - assert (domain_h = []) as ->.
      { apply length_zero_iff_nil. unfold size in Hz. lia. }
      simpl in Hstore. injection Hstore as <-. split.
      + apply reads_le_base. lia.
      + rewrite Hz. done.
    - destruct (decide (domain_h = [])) as [->|Hne].
      + simpl in Hstore. injection Hstore as <-. split.
        * apply reads_le_base. lia.
        * destruct domain; [done|done].
      + pose proof (prefix_lookup_Some _ _ _ _ Hblk Hpre) as Hblk1.
        pose proof (lookup_lt_Some _ _ _ Hblk) as Ha.
        pose proof (lookup_lt_Some _ _ _ Hblk1) as Ha1.
        rewrite (store_dev _ _ _ blk) in Hstore.
        * injection Hstore as <-. split.
          -- eapply reads_le_trans; [by apply reads_le_insert_below|].
             apply reads_le_base. lia.
          -- unfold read_dev, read_from.
             rewrite (proj2 (Z.ltb_ge _ 0)) by (unfold size; lia).
             rewrite (proj2 (Z.eqb_neq _ 0)).
             2: { unfold size. destruct domain; [by destruct domain_h|done]. }
             cbn [Nat.leb]. rewrite list_lookup_insert_eq by done.
             assert (Z.to_nat (size domain) = length (map EDomain domain_h)) as ->.
             { rewrite Hsz. unfold size. by rewrite Nat2Z.id. }
             rewrite (proj2 (Nat.leb_le _ _)) by (rewrite length_app; lia).
             by rewrite take_app_length.
        * by destruct domain_h.
        * done.
        * rewrite length_map, Hlen. unfold size in Hroom.
          by rewrite Nat2Z.id in Hroom. }
  exists s1, domain_h. split_and!; [done|done| |done|].
  - unfold descriptors. rewrite Hrd. cbn [mbind option_bind].
    by apply mapM_fmap_Some.
  - intros i Hi.
    destruct (Hdoms i Hi) as (dh & Hdh & d & Hd & (v & Hv & Hm) & Hset & Hshape).
    exists dh, d. split_and!; try done.
    + exists v. rewrite <- Hh. split; [done|]. by eapply mirror_view_le.
    + by eapply shape_agrees_le.
Qed.

Lemma built_read_back n domain domain_d s sz s' :
  has_room (devm s) domain_d (size domain) →
  built n domain domain_d s sz s' →
  ∃ ds, descriptors (devm s') domain_d sz = Some ds ∧
        length ds = length domain ∧
        ∀ i, (i < length domain)%nat →
          ∃ dd d, ds !! i = Some dd ∧ domain !! i = Some d ∧
                  (∃ v, host_view (hostm s) n d = Some v ∧
                        mirror_view 0 (devm s') n dd = Some v) ∧
                  shape_agrees 0 n (devm s') d dd.
Proof.
  intros Hroom Hbuilt.
  destruct (built_read_back_full _ _ _ _ _ _ Hroom Hbuilt)
    as (s1 & ds & _ & _ & Hds & Hlen & Hall).
  exists ds. split_and!; [done|done|]. intros i Hi.
  destruct (Hall i Hi) as (dd & d & Hdd & Hd & Hv & Hsh & _).
  by exists dd, d.
Qed.

(** *** The build taken apart *)

Lemma memcpy_Ok dst src n w x w' :
  safeCall (memcpy dst src n) w = Ok x w' →
  ∃ data, fetch (hostm w) src n = Some data ∧
          trace w' = trace w ++ [EvMemcpy dst data] ∧
          Z.of_nat (length data) = n ∧
          fault_at w' = fault_at w ∧
          if is_host dst
          then devm w' = devm w ∧ store_host (hostm w) dst data = Some (hostm w')
          else hostm w' = hostm w ∧ store (devm w) dst data = Some (devm w').
Proof.
  unfold safeCall, memcpy. destruct (faulty w); [done|].
  destruct (fetch (hostm w) src n) as [data|] eqn:Hdata; [|done].
  apply fetch_spec in Hdata as Hlen.
  destruct (is_host dst).
  - destruct (store_host (hostm w) dst data) eqn:Hstore; [|done].
    intros Heq. inversion Heq; subst. exists data. split_and!; try done. lia.
  - destruct (store (devm w) dst data) eqn:Hstore; [|done].
    intros Heq. inversion Heq; subst. exists data. split_and!; try done. lia.
Qed.

Lemma memcpy_Fail dst src n w f w' :
  safeCall (memcpy dst src n) w = Fail f w' →
  (f = Aborted ∧ faulty w = true ∧ w' = log EvMemcpyFailed w) ∨
  (f = Undefined ∧ faulty w = false ∧ w' = w).
Proof.
  unfold safeCall, memcpy. destruct (faulty w).
  - intros [= <- <-]. by left.
  - destruct (fetch (hostm w) src n) as [data|]; [|intros [= <- <-]; by right].
    destruct (is_host dst).
    + destruct (store_host (hostm w) dst data); [done|].
      intros [= <- <-]. by right.
    + destruct (store (devm w) dst data); [done|].
      intros [= <- <-]. by right.
Qed.

Lemma malloc_device_Ok T n w p w' :
  safeCall (malloc_device T n) w = Ok p w' →
  trace w' = trace w ++ [EvMalloc T n p].
Proof.
  unfold safeCall, malloc_device.
  destruct (faulty w || (n <? 0)); [by intros [= <- <-]|].
  by destruct ((n =? 0) && zero_null w); intros [= <- <-].
Qed.

(** The build is the loop over the domains followed by one copy. *)
Lemma run_Ok_inv n domain domain_d s sz s' :
  copyDomainDevice n domain domain_d s = Ok sz s' →
  sz = size domain ∧
  ∃ domain_h s1,
    for_lt (size domain)
      (λ i domain_h, at_index domain_h i (domain_body n domain i))
      (replicate (Z.to_nat (size domain)) (indet_domain (junk s))) s
    = Ok domain_h s1 ∧
    safeCall (memcpy domain_d (FromArray (map EDomain domain_h)) (size domain)) s1
    = Ok tt s'.
Proof.
  unfold copyDomainDevice. cbv zeta. unfold bind at 1. unfold malloc at 1.
  unfold bind at 1.
  destruct (for_lt _ _ _ s) as [domain_h s1|]; [|done].
  unfold bind, ret.
  destruct (safeCall _ s1) as [[] s2|] eqn:Hcopy; [|done].
  intros [= <- <-]. split; [done|]. by exists domain_h, s1.
Qed.

Lemma run_Fail_inv n domain domain_d s f s' :
  copyDomainDevice n domain domain_d s = Fail f s' →
  for_lt (size domain)
    (λ i domain_h, at_index domain_h i (domain_body n domain i))
    (replicate (Z.to_nat (size domain)) (indet_domain (junk s))) s
  = Fail f s' ∨
  ∃ domain_h s1,
    for_lt (size domain)
      (λ i domain_h, at_index domain_h i (domain_body n domain i))
      (replicate (Z.to_nat (size domain)) (indet_domain (junk s))) s
    = Ok domain_h s1 ∧
    safeCall (memcpy domain_d (FromArray (map EDomain domain_h)) (size domain)) s1
    = Fail f s'.
Proof.
  unfold copyDomainDevice. cbv zeta. unfold bind at 1. unfold malloc at 1.
  unfold bind at 1.
  destruct (for_lt _ _ _ s) as [domain_h s1|]; [|intros [= <- <-]; by left].
  unfold bind, ret.
  destruct (safeCall _ s1) as [[] s2|] eqn:Hcopy; [done|].
  intros [= <- <-]. right. by exists domain_h, s1.
Qed.

(** What holds of the history, the target space and host memory after
    any run, wherever [domain_d] points. *)
Lemma run_any n domain domain_d s :
  let o := copyDomainDevice n domain domain_d s in
  fault_at (final o) = fault_at s ∧
  (bottom_up (trace s) → bottom_up (trace (final o))) ∧
  (tidy (trace s) →
     match o with
     | Fail Aborted s' => stopped (trace s')
     | _ => tidy (trace (final o))
     end) ∧
  (match o with
   | Fail _ s' => devm s `prefix_of` devm s'
   | Ok _ s' => (length (devm s) ≤ length (devm s'))%nat
   end) ∧
  (is_host domain_d = false → hostm (final o) = hostm s).
Proof.
  pose proof (domain_loop_post n domain s) as Hloop. cbv zeta.
  destruct (copyDomainDevice n domain domain_d s) as [sz s'|f s'] eqn:Hrun.
  - apply run_Ok_inv in Hrun as (_ & domain_h & s1 & Hl & Hcopy).
    rewrite Hl in Hloop. destruct Hloop as (Hmv & Ht & Hdev & Hlen & Hdoms).
    apply memcpy_Ok in Hcopy as (data & Hdata & Htr & _ & Hfa & Hmem).
    rewrite fetch_array' in Hdata
      by (unfold size; by rewrite length_map, Hlen).
    injection Hdata as <-. simpl. split_and!.
    + rewrite Hfa. apply Hmv.
    + intros Hbu. rewrite Htr. apply bottom_up_snoc; [by apply Hmv|].
      intros dst data [= <- <-]. apply array_settled. intros j dh Hdh q Hq.
      destruct (Hdoms j) as (dh' & Hdh' & d & _ & _ & Hset & _).
      { apply lookup_lt_Some in Hdh. lia. }
      rewrite Hdh in Hdh'. injection Hdh' as <-. by apply Hset.
    + intros Htidy. rewrite Htr. apply tidy_snoc; [by apply Ht|done].
    + apply prefix_length in Hdev.
      destruct (is_host domain_d).
      * destruct Hmem as [-> _]. done.
      * destruct Hmem as [_ Hstore].
        apply store_length in Hstore. lia.
    + intros Hh. rewrite Hh in Hmem. destruct Hmem as [-> _]. apply Hmv.
  - apply run_Fail_inv in Hrun as [Hl|(domain_h & s1 & Hl & Hcopy)];
      rewrite Hl in Hloop.
    + destruct Hloop as (Hmv & Ht & Hpre & _). simpl.
      split_and!;
        [apply Hmv|apply Hmv|intros Htidy; specialize (Ht Htidy); by destruct f
        |done|intros _; apply Hmv].
    + destruct Hloop as (Hmv & Ht & Hdev & _).
      apply memcpy_Fail in Hcopy as [(-> & _ & ->)|(-> & _ & ->)]; simpl.
      * split_and!;
          [apply Hmv
          |intros Hbu; apply bottom_up_snoc; [by apply Hmv|done]
          |intros Htidy; apply stopped_snoc; [by apply Ht|done]
          |done|intros _; apply Hmv].
      * split_and!; [apply Hmv|apply Hmv|done|done|intros _; apply Hmv].
Qed.

(** *** The calls of a completed piece *)

Section Emits.
Context (P : list event → Prop).
Hypothesis P_nil : P [].
Hypothesis P_app : ∀ l1 l2, P l1 → P l2 → P (l1 ++ l2).

Lemma emits_ret {A} (x : A) : emits P (ret x).
Proof. intros w a w' [= _ <-]. exists []. by rewrite app_nil_r. Qed.

Lemma emits_malloc {A} (indet : Z → A) n : emits P (malloc indet n).
Proof. intros w a w' [= _ <-]. exists []. by rewrite app_nil_r. Qed.

Lemma emits_bind {A B} (m : M A) (k : A → M B) :
  emits P m → (∀ x, emits P (k x)) → emits P (bind m k).
Proof.
  intros Hm Hk w b w' Hrun. unfold bind in Hrun.
  destruct (m w) as [x w1|] eqn:Hmw; [|done].
  destruct (Hm _ _ _ Hmw) as (evs1 & Htr1 & Hu1).
  destruct (Hk x _ _ _ Hrun) as (evs2 & Htr2 & Hu2).
  exists (evs1 ++ evs2). rewrite Htr2, Htr1, app_assoc.
  split; [done|by apply P_app].
Qed.

Lemma emits_index_bind {A B} (v : list A) i (k : A → M B) :
  (∀ x, emits P (k x)) → emits P (bind (index v i) k).
Proof.
  intros Hk w b w' Hrun. unfold bind, index in Hrun.
  destruct (v !! i) as [x|]; [|done]. by eapply Hk.
Qed.

Lemma emits_at_index {A} (v : list A) i (g : A → M A) :
  (∀ x, emits P (g x)) → emits P (at_index v i g).
Proof.
  intros Hg. unfold at_index. apply emits_index_bind. intros x.
  apply emits_bind; [apply Hg|intros ?; apply emits_ret].
Qed.

Lemma emits_for_from {St} (body : nat → St → M St) :
  (∀ j acc, emits P (body j acc)) →
  ∀ count j acc, emits P (for_from j count body acc).
Proof.
  intros Hb. induction count as [|count IH]; intros j acc.
  - apply emits_ret.
  - cbn [for_from]. apply emits_bind; [apply Hb|]. intros acc'. apply IH.
Qed.

End Emits.

Lemma plain_app l1 l2 : plain l1 → plain l2 → plain (l1 ++ l2).
Proof. intros H1 H2. by apply Forall_app. Qed.

Lemma plain_malloc_device T n : emits plain (safeCall (malloc_device T n)).
Proof.
  intros w p w' Hrun. apply malloc_device_Ok in Hrun.
  eexists. split; [done|]. by apply Forall_singleton.
Qed.

Lemma plain_memcpy_staging {A} (src : list A) n :
  emits plain (safeCall (memcpy_staging src n)).
Proof.
  intros w x w'. unfold safeCall, memcpy_staging.
  destruct (faulty w); [done|].
  destruct ((0 <=? n) && (n <=? Z.of_nat (length src))); [|done].
  intros [= <- <-]. eexists. split; [done|]. by apply Forall_singleton.
Qed.

Lemma plain_source_fetch hm src n data :
  plain_source src → fetch hm src n = Some data →
  existsb is_descriptor data = false.
Proof.
  intros Hsrc Hdata.
  assert (Forall (λ e, is_descriptor e = false) data) as Hall.
  { destruct src as [l|T p]; simpl in *.
    - destruct ((0 <=? n) && (n <=? Z.of_nat (length l))); [|done].
      injection Hdata as <-. by apply Forall_take.
    - apply read_host_spec in Hdata as (_ & _ & Hty).
      eapply Forall_impl; [exact Hty|]. intros e He.
      by destruct T, e. }
  clear Hdata. induction Hall as [|e data He _ IH]; [done|].
  simpl. rewrite He. exact IH.
Qed.

Lemma plain_memcpy dst src n :
  plain_source src → emits plain (safeCall (memcpy dst src n)).
Proof.
  intros Hsrc w x w' Hrun.
  apply memcpy_Ok in Hrun as (data & Hdata & Htr & _).
  eexists. split; [done|]. apply Forall_singleton. simpl.
  by eapply plain_source_fetch.
Qed.

Lemma plain_array {A} (inj : A → elem) (l : list A) :
  (∀ x, is_descriptor (inj x) = false) → plain_source (FromArray (map inj l)).
Proof.
  intros Hinj. simpl. induction l as [|x l IH]; simpl; constructor; auto.
Qed.

Lemma plain_domain_loop n domain domain_h :
  emits plain (for_lt (size domain)
                 (λ i domain_h, at_index domain_h i (domain_body n domain i))
                 domain_h).
Proof.
  unfold domain_body, cell_state_body, cellConnectivity_body,
    cellGeometry_body, for_lt.
  cbv zeta. fields.
  repeat first
    [ apply emits_ret; by constructor
    | apply emits_malloc; by constructor
    | apply plain_malloc_device
    | apply plain_memcpy_staging
    | apply plain_memcpy; first [by apply plain_array | done]
    | apply emits_index_bind; intros ?
    | apply emits_at_index; [by constructor|exact plain_app|intros ?]
    | apply emits_for_from; [by constructor|exact plain_app|intros ? ?]
    | apply emits_bind; [exact plain_app| |intros ?] ].
Qed.

(** *** The properties *)

Lemma run_Ok n domain domain_d s sz s' :
  is_host domain_d = false ∨ domain = [] →
  copyDomainDevice n domain domain_d s = Ok sz s' →
  moved s s' ∧ (tidy (trace s) → tidy (trace s')) ∧ built n domain domain_d s sz s'.
Proof.
  intros Hdst Hrun.
  pose proof (copyDomainDevice_post n domain domain_d s Hdst) as Hpost.
  by rewrite Hrun in Hpost.
Qed.

(** With no failure scheduled, readable host arrays and room behind the
    caller's pointer, the build completes and returns the domain count. *)
Lemma copyDomainDevice_total n domain domain_d s :
  fault_at s = None →
  is_Some (host_views (hostm s) n domain) →
  has_room (devm s) domain_d (size domain) →
  ∃ s', copyDomainDevice n domain domain_d s = Ok (size domain) s'.
Proof.
  intros Hf Hv Hroom.
  pose proof (copyDomainDevice_post n domain domain_d s
                (has_room_target _ _ _ Hroom)) as Hpost.
  destruct (copyDomainDevice n domain domain_d s) as [sz s'|f s'] eqn:Hrun.
  - destruct Hpost as (_ & _ & -> & _). by exists s'.
  - destruct Hpost as (_ & _ & _ & Hno). destruct Hno. done.
Qed.

(** What the host views hold, spelled out. *)
Lemma host_views_lookup hm n domain views i d v :
  host_views hm n domain = Some views →
  domain !! i = Some d → views !! i = Some v →
  view_domainIndex v = domainIndex d ∧
  view_global_domain v = global_domain d ∧
  view_domainGid v = _domainGid (mesh d) ∧
  view_nbrRank v = map EInt (_nbrRank (mesh d)) ∧
  view_node v = map EVector (_node (mesh d)) ∧
  (∀ j c, cell_state d !! j = Some c →
     ∃ t, read_host hm T_double (_total c) n = Some t ∧
          view_cell_state v !! j = Some (cell_rest c, t)) ∧
  (∀ j c, _cellConnectivity (mesh d) !! j = Some c →
     ∃ ps fs, read_host hm T_int (_point c) (num_points c) = Some ps ∧
              read_host hm T_MC_Facet_Adjacency (_facet c) (num_facets c) = Some fs ∧
              view_cellConnectivity v !! j = Some (num_points c, num_facets c, ps, fs)) ∧
  (∀ j c, _cellGeometry (mesh d) !! j = Some c →
     ∃ fs, read_host hm T_MC_General_Plane (_facet_g c) (_size c) = Some fs ∧
           view_cellGeometry v !! j = Some (_size c, fs)).
Proof.
  intros Hvs Hd Hv. apply mapM_Some in Hvs.
  destruct (Forall2_lookup_l _ _ _ _ _ Hvs Hd) as (v' & Hv' & Hview).
  rewrite Hv in Hv'. injection Hv' as <-. unfold host_view in Hview.
  destruct (mapM (host_cell_state hm n) _) as [cs|] eqn:H1; [|done].
  destruct (mapM (host_adjacency_cell hm) _) as [cc|] eqn:H2; [|done].
  destruct (mapM (host_geometry_cell hm) _) as [cg|] eqn:H3; [|done].
  cbn [mbind option_bind] in Hview. injection Hview as <-. cbn.
  apply mapM_Some in H1, H2, H3. split_and!; try done.
  - intros j c Hc. destruct (Forall2_lookup_l _ _ _ _ _ H1 Hc) as (y & Hy & Hcv).
    unfold host_cell_state in Hcv.
    destruct (read_host hm T_double _ _) as [t|]; [|done].
    injection Hcv as <-. by exists t.
  - intros j c Hc. destruct (Forall2_lookup_l _ _ _ _ _ H2 Hc) as (y & Hy & Hcv).
    unfold host_adjacency_cell in Hcv.
    destruct (read_host hm T_int _ _) as [ps|]; [|done].
    destruct (read_host hm T_MC_Facet_Adjacency _ _) as [fs|]; [|done].
    injection Hcv as <-. by exists ps, fs.
  - intros j c Hc. destruct (Forall2_lookup_l _ _ _ _ _ H3 Hc) as (y & Hy & Hcv).
    unfold host_geometry_cell in Hcv.
    destruct (read_host hm T_MC_General_Plane _ _) as [fs|]; [|done].
    injection Hcv as <-. by exists fs.
Qed.

Lemma read_back_views n domain domain_d s sz s' :
  has_room (devm s) domain_d (size domain) →
  copyDomainDevice n domain domain_d s = Ok sz s' →
  ∃ views, host_views (hostm s) n domain = Some views ∧
           read_mirror (devm s') n domain_d sz = Some views.
Proof.
  intros Hroom Hrun.
  apply run_Ok in Hrun as (_ & _ & Hbuilt); [|by eapply has_room_target].
  destruct (built_read_back _ _ _ _ _ _ Hroom Hbuilt) as (ds & Hds & Hlen & Hall).
  destruct (views_agree (host_view (hostm s) n) (mirror_view 0 (devm s') n) domain ds)
    as (views & Hv1 & Hv2).
  { done. }
  { intros i Hi. destruct (Hall i Hi) as (dd & d & Hdd & Hd & (v & Hhv & Hmv) & _).
    by exists d, dd, v. }
  exists views. split; [done|]. unfold read_mirror. by rewrite Hds.
Qed.

(** C1.  After [copyDomainDevice] completes on a buffer supplied by the
    caller, reading the mirror back through the recorded addresses and
    counts gives exactly what the host holds: the scalars
    [domainIndex], [global_domain] and [mesh._domainGid], the node and
    neighbour-rank arrays, and for every cell [j], at index [j], the
    cross-section array of [numEnergyGroups] entries, the point and facet
    arrays and the plane array of that cell, element for element. *)
Theorem mirror_round_trip n domain domain_d s sz s' :
  has_room (devm s) domain_d (size domain) →
  copyDomainDevice n domain domain_d s = Ok sz s' →
  ∃ views,
    read_mirror (devm s') n domain_d sz = Some views ∧
    length views = length domain ∧
    ∀ i d, domain !! i = Some d →
      ∃ v, views !! i = Some v ∧
        view_domainIndex v = domainIndex d ∧
        view_global_domain v = global_domain d ∧
        view_domainGid v = _domainGid (mesh d) ∧
        view_nbrRank v = map EInt (_nbrRank (mesh d)) ∧
        view_node v = map EVector (_node (mesh d)) ∧
        (∀ j c, cell_state d !! j = Some c →
           ∃ t, read_host (hostm s) T_double (_total c) n = Some t ∧
                view_cell_state v !! j = Some (cell_rest c, t)) ∧
        (∀ j c, _cellConnectivity (mesh d) !! j = Some c →
           ∃ ps fs,
             read_host (hostm s) T_int (_point c) (num_points c) = Some ps ∧
             read_host (hostm s) T_MC_Facet_Adjacency (_facet c) (num_facets c)
               = Some fs ∧
             view_cellConnectivity v !! j
               = Some (num_points c, num_facets c, ps, fs)) ∧
        (∀ j c, _cellGeometry (mesh d) !! j = Some c →
           ∃ fs, read_host (hostm s) T_MC_General_Plane (_facet_g c) (_size c)
                   = Some fs ∧
                 view_cellGeometry v !! j = Some (_size c, fs)).
Proof.
  intros Hroom Hrun.
  destruct (read_back_views _ _ _ _ _ _ Hroom Hrun) as (views & Hhost & Hmirror).
  exists views. split; [done|].
  pose proof (length_mapM _ _ _ Hhost) as Hlen. split; [done|].
  intros i d Hd.
  destruct (lookup_lt_is_Some_2 views i) as [v Hv].
  { rewrite <- Hlen. by eapply lookup_lt_Some. }
  exists v. split; [done|]. by eapply host_views_lookup.
Qed.

Lemma read_back_shapes n domain domain_d s sz s' :
  has_room (devm s) domain_d (size domain) →
  copyDomainDevice n domain domain_d s = Ok sz s' →
  sz = size domain ∧
  ∃ ds, descriptors (devm s') domain_d sz = Some ds ∧
        Forall2 (shape_agrees 0 n (devm s')) domain ds.
Proof.
  intros Hroom Hrun.
  apply run_Ok in Hrun as (_ & _ & Hbuilt); [|by eapply has_room_target].
  split; [apply Hbuilt|].
  destruct (built_read_back _ _ _ _ _ _ Hroom Hbuilt) as (ds & Hds & Hlen & Hall).
  exists ds. split; [done|].
  apply Forall2_same_length_lookup_2; [done|]. intros i d dd Hd Hdd.
  destruct (Hall i) as (dd' & d' & Hdd' & Hd' & _ & Hshape).
  { by eapply lookup_lt_Some. }
  rewrite Hdd in Hdd'. rewrite Hd in Hd'.
  injection Hdd' as <-. injection Hd' as <-. done.
Qed.

(** C2 (as amended).  A completed build returns the domain count, and in
    every descriptor each recorded count, and each per-cell count behind
    it, is the host's; the address paired with a count is not null
    whenever that count is positive. *)
Theorem counts_recorded n domain domain_d s sz s' :
  has_room (devm s) domain_d (size domain) →
  copyDomainDevice n domain domain_d s = Ok sz s' →
  sz = size domain ∧
  ∃ ds, descriptors (devm s') domain_d sz = Some ds ∧
        Forall2 (shape_agrees 0 n (devm s')) domain ds.
Proof. apply read_back_shapes. Qed.

(** C3 (as amended).  A completed build returns the domain count.  Its
    last call is the one copy that carries descriptors: it writes the
    whole staging array to the pointer [domain_d] that the caller passed
    in, where the descriptors are then found.  Each of them is fully
    patched by then: every address in it was returned by an allocation
    and filled by a copy before this last call, its counts are the
    host's, and what is read through it is what the host holds.  The
    build allocates nothing for the descriptor array. *)
Theorem descriptors_go_to_the_callers_pointer n domain domain_d s sz s' :
  has_room (devm s) domain_d (size domain) →
  copyDomainDevice n domain domain_d s = Ok sz s' →
  sz = size domain ∧
  ∃ evs domain_h,
    trace s' = trace s ++ evs ++ [EvMemcpy domain_d (map EDomain domain_h)] ∧
    Forall (λ e, allocates_descriptors e = false ∧
                 carries_descriptors e = false) evs ∧
    descriptors (devm s') domain_d sz = Some domain_h ∧
    Forall2 (patched n (hostm s) (trace s ++ evs) (devm s')) domain domain_h.
Proof.
  intros Hroom Hrun.
  pose proof (run_Ok _ _ _ _ _ _ (has_room_target _ _ _ Hroom) Hrun)
    as (_ & _ & Hbuilt).
  assert (sz = size domain) as -> by apply Hbuilt. split; [done|].
  destruct (built_read_back_full _ _ _ _ _ _ Hroom Hbuilt)
    as (s1 & ds & Hmv & Htr & Hds & Hlen & Hall).
  destruct Hmv as (_ & _ & _ & _ & (evs & Htr1 & Hno) & _).
  apply run_Ok_inv in Hrun as (_ & domain_h & s1' & Hloop & Hcopy).
  destruct (plain_domain_loop _ _ _ _ _ _ Hloop) as (evs' & Htr1' & Hplain).
  apply memcpy_Ok in Hcopy as (data & _ & Htr' & _).
  rewrite Htr' in Htr. apply app_inj_tail in Htr as [Heq [= ->]].
  rewrite Htr1, Htr1' in Heq. apply app_inv_head in Heq as ->.
  exists evs, ds. split_and!.
  - by rewrite Htr', Htr1', app_assoc.
  - apply Forall_and. by split.
  - done.
  - apply Forall2_same_length_lookup_2; [done|]. intros i d dd Hd Hdd.
    destruct (Hall i) as (dd' & d' & Hdd' & Hd' & Hv & Hsh & Hset).
    { by eapply lookup_lt_Some. }
    rewrite Hd in Hd'. rewrite Hdd in Hdd'.
    injection Hd' as <-. injection Hdd' as <-.
    unfold patched. split_and!; [|done|done].
    intros q Hq. rewrite <- Htr1. by apply Hset.
Qed.

(** C5.  Whatever the outcome, the build keeps the queue's history
    bottom-up: every copy into the target space that it makes carries, in
    each address-valued member of the elements it writes, an address
    returned by an earlier allocation that an earlier copy has filled
    completely, never a host address and never an unassigned one. *)
Theorem bottom_up_order n domain domain_d s :
  bottom_up (trace s) →
  bottom_up (trace (final (copyDomainDevice n domain domain_d s))).
Proof. intros Hbu. by apply (run_any n domain domain_d s). Qed.


Lemma shape_agrees_same_counts b1 n1 m1 b2 n2 m2 d d1 d2 :
  shape_agrees b1 n1 m1 d d1 → shape_agrees b2 n2 m2 d d2 → same_counts d1 d2.
Proof.
  intros ([E1 _] & [E2 _] & [E3 _] & [E4 _] & [E5 _] & _)
         ([F1 _] & [F2 _] & [F3 _] & [F4 _] & [F5 _] & _).
  unfold same_counts. split_and!; congruence.
Qed.

(** C8.  Two completed builds from the same host structure and host
    memory, whatever the target space, its allocator and the caller's
    buffer looked like in each, return the same count, record the same
    counts in their descriptors, and read back alike: the same scalars
    and the same elements in every array. *)
Theorem two_builds_agree n domain domain_d1 domain_d2 s1 s2 sz1 sz2 s1' s2' :
  hostm s1 = hostm s2 →
  has_room (devm s1) domain_d1 (size domain) →
  has_room (devm s2) domain_d2 (size domain) →
  copyDomainDevice n domain domain_d1 s1 = Ok sz1 s1' →
  copyDomainDevice n domain domain_d2 s2 = Ok sz2 s2' →
  sz1 = sz2 ∧
  (∃ ds1 ds2,
     descriptors (devm s1') domain_d1 sz1 = Some ds1 ∧
     descriptors (devm s2') domain_d2 sz2 = Some ds2 ∧
     Forall2 same_counts ds1 ds2) ∧
  is_Some (read_mirror (devm s1') n domain_d1 sz1) ∧
  read_mirror (devm s1') n domain_d1 sz1 = read_mirror (devm s2') n domain_d2 sz2.
Proof.
  intros Hh Hroom1 Hroom2 Hrun1 Hrun2.
  destruct (read_back_views _ _ _ _ _ _ Hroom1 Hrun1) as (v1 & Hhost1 & Hm1).
  destruct (read_back_views _ _ _ _ _ _ Hroom2 Hrun2) as (v2 & Hhost2 & Hm2).
  destruct (read_back_shapes _ _ _ _ _ _ Hroom1 Hrun1) as (-> & ds1 & Hds1 & Hsh1).
  destruct (read_back_shapes _ _ _ _ _ _ Hroom2 Hrun2) as (-> & ds2 & Hds2 & Hsh2).
  rewrite Hh, Hhost2 in Hhost1. injection Hhost1 as <-.
  split_and!; [done| | |].
  - exists ds1, ds2. split_and!; [done|done|].
    apply Forall2_same_length_lookup_2.
    { by rewrite <- (Forall2_length _ _ _ Hsh1), <- (Forall2_length _ _ _ Hsh2). }
    intros i d1 d2 Hd1 Hd2.
    destruct (Forall2_lookup_r _ _ _ _ _ Hsh1 Hd1) as (d & Hd & Hs1).
    destruct (Forall2_lookup_l _ _ _ _ _ Hsh2 Hd) as (d2' & Hd2' & Hs2).
    rewrite Hd2 in Hd2'. injection Hd2' as <-.
    by eapply shape_agrees_same_counts.
  - by rewrite Hm1.
  - by rewrite Hm1, Hm2.
Qed.

(** C6 (as amended).  With no failure scheduled, the build completes on
    degenerate inputs as on any other.  For an empty domain sequence it
    returns the count zero after a single empty copy to the caller's
    pointer, whatever that pointer is, and leaves the target space as it
    was.  For a domain without cells the descriptor records the count
    zero for the cell-state, cell-connectivity and cell-geometry
    arrays. *)
Theorem degenerate_inputs n domain domain_d s :
  fault_at s = None →
  is_Some (host_views (hostm s) n domain) →
  has_room (devm s) domain_d (size domain) →
  ∃ s',
    copyDomainDevice n domain domain_d s = Ok (size domain) s' ∧
    (domain = [] →
       devm s' = devm s ∧ trace s' = trace s ++ [EvMemcpy domain_d []]) ∧
    ∃ ds, descriptors (devm s') domain_d (size domain) = Some ds ∧
      ∀ i d, domain !! i = Some d →
        ∃ dd, ds !! i = Some dd ∧
          (cell_state d = [] → cell_stateSize dd = 0) ∧
          (_cellConnectivity (mesh d) = [] → _cellConnectivitySize (mesh_d dd) = 0) ∧
          (_cellGeometry (mesh d) = [] → _cellGeometrySize (mesh_d dd) = 0).
Proof.
  intros Hf Hv Hroom.
  destruct (copyDomainDevice_total _ _ _ _ Hf Hv Hroom) as [s' Hrun].
  exists s'. split; [done|].
  pose proof (run_Ok _ _ _ _ _ _ (has_room_target _ _ _ Hroom) Hrun)
    as (_ & _ & Hbuilt).
  split.
  - intros ->. clear Hbuilt.
    unfold copyDomainDevice, for_lt, malloc, bind, ret in Hrun.
    simpl in Hrun. unfold safeCall, memcpy, faulty in Hrun. rewrite Hf in Hrun.
    simpl in Hrun.
    destruct (is_host domain_d); simpl in Hrun; by injection Hrun as <-.
  - destruct (built_read_back _ _ _ _ _ _ Hroom Hbuilt) as (ds & Hds & Hlen & Hall).
    exists ds. split; [done|]. intros i d Hd.
    destruct (Hall i) as (dd & d' & Hdd & Hd' & _ & Hshape).
    { by eapply lookup_lt_Some. }
    rewrite Hd in Hd'. injection Hd' as <-.
    destruct Hshape as ([E1 _] & _ & _ & [E4 _] & [E5 _] & _).
    exists dd. split; [done|]. rewrite E1, E4, E5.
    split_and!; by intros ->.
Qed.

(** The outcome of the build depends on the host structure only through
    the members that the mirror has a place for. *)
Lemma for_from_ext {St} (b1 b2 : nat → St → M St) :
  (∀ j acc w, b1 j acc w = b2 j acc w) →
  ∀ count j acc w, for_from j count b1 acc w = for_from j count b2 acc w.
Proof.
  intros Hb. induction count as [|count IH]; intros j acc w; [done|].
  cbn [for_from]. unfold bind. rewrite Hb.
  destruct (b2 j acc w); [apply IH|done].
Qed.

Lemma at_index_ext {A} (v : list A) i (f g : A → M A) w :
  (∀ x w', f x w' = g x w') → at_index v i f w = at_index v i g w.
Proof.
  intros Hfg. unfold at_index, bind, index.
  destruct (v !! i); [|done]. by rewrite Hfg.
Qed.

Lemma domain_body_ext n domain1 domain2 i dh w :
  Forall2 same_but_unmirrored domain1 domain2 →
  domain_body n domain1 i dh w = domain_body n domain2 i dh w.
Proof.
  intros Hsame. unfold domain_body at 1 2. unfold bind at 1. unfold bind at 20.
  unfold index.
  destruct (domain1 !! i) as [d1|] eqn:H1.
  - destruct (Forall2_lookup_l _ _ _ _ _ Hsame H1) as (d2 & -> & Hd).
    destruct Hd as (E1 & E2 & E3 & E4 & E5 & E6 & E7 & E8).
    by rewrite E1, E2, E3, E4, E5, E6, E7, E8.
  - assert (domain2 !! i = None) as ->; [|done].
    apply lookup_ge_None. apply lookup_ge_None in H1.
    by rewrite <- (Forall2_length _ _ _ Hsame).
Qed.

(** C10.  The mirror types have no member for the neighbour-domain
    identifiers or for the bulk-storage objects, and the build does not
    look at them: two host structures that agree on every other member
    give the same outcome, down to the last address. *)
Theorem unmirrored_members_do_not_matter n domain1 domain2 domain_d s :
  Forall2 same_but_unmirrored domain1 domain2 →
  copyDomainDevice n domain1 domain_d s = copyDomainDevice n domain2 domain_d s.
Proof.
  intros Hsame. unfold copyDomainDevice. cbv zeta.
  assert (size domain1 = size domain2) as Hsz.
  { unfold size. by rewrite (Forall2_length _ _ _ Hsame). }
  rewrite Hsz. unfold bind at 1 4. destruct (malloc _ _ s) as [domain_h w|]; [|done].
  unfold bind at 1 3. unfold for_lt.
  rewrite (for_from_ext _
             (λ i domain_h, at_index domain_h i (domain_body n domain2 i))).
  - done.
  - intros j acc w'. apply at_index_ext. intros x w''. by apply domain_body_ext.
Qed.

(** *** Scheduling a failure *)

Lemma follows_ret {A} k (a : A) : follows k (ret a).
Proof.
  split.
  - intros s0. by split.
  - intros s0 Hf Hlen. left. by split.
Qed.

Lemma follows_bind {A B} k (m : M A) (f : A → M B) :
  follows k m → (∀ a, follows k (f a)) → follows k (bind m f).
Proof.
  intros [Hm1 Hm2] Hf. split.
  - intros s0. destruct (Hm1 s0) as [Hfm Hpre].
    unfold bind. destruct (m s0) as [a s1|e s1]; simpl in *; [|done].
    destruct (Hf a) as [Hf1 _]. destruct (Hf1 s1) as [Hff Hpre'].
    split; [congruence|by etrans].
  - intros s0 Hf0 Hlen. destruct (Hm1 s0) as [Hfm Hpre].
    specialize (Hm2 s0 Hf0 Hlen).
    unfold bind. destruct (m s0) as [a s1|e s1] eqn:Hm0; simpl in *.
    + destruct (Hf a) as [Hf1 Hf2]. destruct (Hf1 s1) as [Hff Hpre'].
      destruct Hm2 as [[Hle ->]|[(T & n & p & Hk)|(Hle & s' & e & -> & Htr & He)]];
        simpl.
      * apply Hf2; [congruence|done].
      * right. left. exists T, n, p. simpl in Hk.
        by eapply prefix_lookup_Some.
      * right. right. simpl in Hle, Htr. split.
        -- apply prefix_length in Hpre'. lia.
        -- exists s', e. split_and!; [done| |done]. rewrite Htr. f_equal.
           destruct Hpre' as [rest ->]. by rewrite take_app_le.
    + destruct Hm2 as [[Hle ->]|[Hk|(Hle & s' & e' & -> & Htr & He)]]; simpl.
      * left. by split.
      * right. by left.
      * right. right. split; [done|]. by exists s', e'.
Qed.

Lemma follows_for_from {St} k (body : nat → St → M St) :
  (∀ j acc, follows k (body j acc)) →
  ∀ count j acc, follows k (for_from j count body acc).
Proof.
  intros Hbody. induction count as [|count IH]; intros j acc; cbn [for_from].
  - apply follows_ret.
  - apply follows_bind; [apply Hbody|]. intros acc'. apply IH.
Qed.

Lemma follows_index {A} k (v : list A) i : follows k (index v i).
Proof.
  split.
  - intros s0. unfold index. by destruct (v !! i).
  - intros s0 Hf Hlen. left. unfold index. by destruct (v !! i).
Qed.

Lemma follows_at_index {A} k (v : list A) i (f : A → M A) :
  (∀ x, follows k (f x)) → follows k (at_index v i f).
Proof.
  intros Hf. unfold at_index.
  apply follows_bind; [apply follows_index|]. intros x.
  apply follows_bind; [apply Hf|]. intros x'. apply follows_ret.
Qed.

Lemma follows_malloc {A} k (indet : Z → A) n : follows k (malloc indet n).
Proof.
  split.
  - intros s0. by split.
  - intros s0 Hf Hlen. left. by split.
Qed.

(** A call that logs one event whenever it replies, and logs a failure
    whenever the schedule says so. *)
Lemma follows_call {A} k (c : call A) :
  (∀ s, ∃ r s', c s = (r, s') ∧ fault_at s' = fault_at s ∧
     (trace s' = trace s ∨ ∃ e, trace s' = trace s ++ [e])) →
  (∀ s, faulty s = true →
     ∃ e, c s = (Failed, log e s) ∧ is_fault e = true) →
  (∀ s j, faulty s = false → faulty (schedule j s) = false →
     c (schedule j s) = (fst (c s), schedule j (snd (c s)))) →
  follows k (safeCall c).
Proof.
  intros Hshape Hfault Hsame. split.
  - intros s0. unfold safeCall.
    destruct (Hshape s0) as (r & s' & -> & Hf & Htr).
    assert (trace s0 `prefix_of` trace s') as Hpre.
    { destruct Htr as [->|[e ->]]; [done|by apply prefix_app_r]. }
    by destruct r.
  - intros s0 Hf0 Hlen. unfold safeCall.
    destruct (Hshape s0) as (r & s' & Hc0 & Hf & Htr).
    assert (faulty s0 = false) as Hnf by (unfold faulty; by rewrite Hf0).
    destruct (decide (length (trace s0) = k)) as [Heq|Hne].
    + destruct (Hfault (schedule (Some k) s0)) as (e & -> & He).
      { unfold faulty. simpl. rewrite Heq. apply Nat.eqb_refl. }
      right. right. rewrite Hc0.
      assert (trace s0 `prefix_of` trace s') as Hpre.
      { destruct Htr as [->|[e' ->]]; [done|by apply prefix_app_r]. }
      split.
      * apply prefix_length in Hpre. by destruct r; simpl; lia.
      * exists (log e (schedule (Some k) s0)), e. split_and!; [done| |done].
        simpl. f_equal. destruct Hpre as [rest Hrest].
        replace (trace (final (match r with
                                | Done a => Ok a s'
                                | Failed => Fail Aborted s'
                                | Broken => Fail Undefined s'
                                end))) with (trace s') by by destruct r.
        rewrite Hrest, <- Heq. by rewrite take_app_length.
    + rewrite (Hsame s0 (Some k)); [|done|].
      2: { unfold faulty. simpl. apply Nat.eqb_neq. lia. }
      rewrite Hc0. simpl. left. split.
      * destruct Htr as [Htr|[e Htr]];
          destruct r; simpl; rewrite Htr; try rewrite length_app; simpl; lia.
      * by destruct r.
Qed.

(** An allocation reports nothing: where the schedule names it, the
    two runs part and nothing is said. *)
Lemma follows_malloc_device k T n : follows k (safeCall (malloc_device T n)).
Proof.
  split.
  - intros s0. unfold safeCall, malloc_device.
    destruct (faulty s0 || (n <? 0)); [|destruct ((n =? 0) && zero_null s0)];
      simpl; (split; [done|by apply prefix_app_r]).
  - intros s0 Hf0 Hlen.
    assert (faulty s0 = false) as Hnf by (unfold faulty; by rewrite Hf0).
    destruct (safeCall (malloc_device T n) s0) as [p s'|f s'] eqn:Hrun.
    2: { unfold safeCall, malloc_device in Hrun.
         destruct (faulty s0 || (n <? 0)); [done|].
         by destruct ((n =? 0) && zero_null s0). }
    pose proof (malloc_device_Ok _ _ _ _ _ Hrun) as Htr.
    destruct (decide (length (trace s0) = k)) as [Heq|Hne].
    + right. left. exists T, n, p. simpl. rewrite Htr, <- Heq.
      by rewrite lookup_app_r, Nat.sub_diag.
    + left. split; [simpl; rewrite Htr, length_app; simpl; lia|].
      rewrite <- Hrun. unfold safeCall, malloc_device.
      assert (faulty (schedule (Some k) s0) = false) as ->.
      { unfold faulty. simpl. apply Nat.eqb_neq. lia. }
      rewrite Hnf. simpl.
      destruct (n <? 0); [done|]. by destruct ((n =? 0) && zero_null s0).
Qed.

Lemma follows_memcpy k dst src n : follows k (safeCall (memcpy dst src n)).
Proof.
  apply follows_call.
  - intros s. unfold memcpy.
    destruct (faulty s).
    { eexists _, _. split; [reflexivity|]. split; [done|]. right. by eexists. }
    destruct (fetch (hostm s) src n) as [data|].
    2: { eexists _, _. split; [reflexivity|]. split; [done|]. by left. }
    destruct (is_host dst).
    + destruct (store_host (hostm s) dst data).
      * eexists _, _. split; [reflexivity|]. split; [done|]. right. by eexists.
      * eexists _, _. split; [reflexivity|]. split; [done|]. by left.
    + destruct (store (devm s) dst data).
      * eexists _, _. split; [reflexivity|]. split; [done|]. right. by eexists.
      * eexists _, _. split; [reflexivity|]. split; [done|]. by left.
  - intros s Hf. unfold memcpy. rewrite Hf. by eexists.
  - intros s j Hf Hfj. unfold memcpy. rewrite Hf, Hfj. simpl.
    destruct (fetch (hostm s) src n) as [data|]; [|done].
    destruct (is_host dst).
    + by destruct (store_host (hostm s) dst data).
    + by destruct (store (devm s) dst data).
Qed.

Lemma follows_memcpy_staging {A} k (src : list A) n :
  follows k (safeCall (memcpy_staging src n)).
Proof.
  apply follows_call.
  - intros s. unfold memcpy_staging.
    destruct (faulty s).
    { eexists _, _. split; [reflexivity|]. split; [done|]. right. by eexists. }
    destruct ((0 <=? n) && (n <=? Z.of_nat (length src))).
    + eexists _, _. split; [reflexivity|]. split; [done|]. right. by eexists.
    + eexists _, _. split; [reflexivity|]. split; [done|]. by left.
  - intros s Hf. unfold memcpy_staging. rewrite Hf. by eexists.
  - intros s j Hf Hfj. unfold memcpy_staging. rewrite Hf, Hfj. simpl.
    by destruct ((0 <=? n) && (n <=? Z.of_nat (length src))).
Qed.

Ltac follow :=
  repeat first
    [ apply follows_ret
    | apply follows_index
    | apply follows_malloc
    | apply follows_malloc_device
    | apply follows_memcpy
    | apply follows_memcpy_staging
    | apply follows_at_index; intros ?
    | apply follows_for_from; intros ? ?
    | apply follows_bind; [|intros ?] ].

Lemma follows_copyDomainDevice k n domain domain_d :
  follows k (copyDomainDevice n domain domain_d).
Proof.
  unfold copyDomainDevice, domain_body, cell_state_body, cellConnectivity_body,
    cellGeometry_body, for_lt.
  cbv zeta. follow.
Qed.

(** Every copy that a completed build issues is checked: had call [k],
    a copy, been scheduled to fail, the build would have been aborted
    after the same first [k] calls, with the failure as its last event. *)
Lemma each_copy_is_checked n domain domain_d s0 sz s0' k :
  fault_at s0 = None →
  copyDomainDevice n domain domain_d s0 = Ok sz s0' →
  (length (trace s0) ≤ k)%nat →
  (∃ e, trace s0' !! k = Some e ∧ is_alloc e = false) →
  ∃ s' e,
    copyDomainDevice n domain domain_d (schedule (Some k) s0) = Fail Aborted s' ∧
    trace s' = take k (trace s0') ++ [e] ∧ is_fault e = true.
Proof.
  intros Hf Hrun Hlo (e0 & He0 & Hcopy).
  destruct (follows_copyDomainDevice k n domain domain_d) as [_ Hcut].
  specialize (Hcut s0 Hf Hlo). rewrite Hrun in Hcut. simpl in Hcut.
  destruct Hcut as [[Hle _]|[(T & n' & p & Hk)|(_ & s' & e & Hs' & Htr & He)]].
  - apply lookup_lt_Some in He0. unfold final in Hle. lia.
  - unfold final in Hk. rewrite Hk in He0. injection He0 as <-. done.
  - by exists s', e.
Qed.

(** *** The properties at concrete inputs *)

Lemma mirror_round_trip_witness :
  has_room (devm ex_world) (Dev 0) (size [ex_domain]) ∧
  copyDomainDevice 2 [ex_domain] (Dev 0) ex_world
    = Ok 1 (final (copyDomainDevice 2 [ex_domain] (Dev 0) ex_world)) ∧
  ∃ views,
    read_mirror (devm (final (copyDomainDevice 2 [ex_domain] (Dev 0) ex_world)))
      2 (Dev 0) 1 = Some views ∧
    length views = length [ex_domain] ∧
    ∀ i d, [ex_domain] !! i = Some d →
      ∃ v, views !! i = Some v ∧
        view_domainIndex v = domainIndex d ∧
        view_global_domain v = global_domain d ∧
        view_domainGid v = _domainGid (mesh d) ∧
        view_nbrRank v = map EInt (_nbrRank (mesh d)) ∧
        view_node v = map EVector (_node (mesh d)) ∧
        (∀ j c, cell_state d !! j = Some c →
           ∃ t, read_host (hostm ex_world) T_double (_total c) 2 = Some t ∧
                view_cell_state v !! j = Some (cell_rest c, t)) ∧
        (∀ j c, _cellConnectivity (mesh d) !! j = Some c →
           ∃ ps fs,
             read_host (hostm ex_world) T_int (_point c) (num_points c) = Some ps ∧
             read_host (hostm ex_world) T_MC_Facet_Adjacency (_facet c) (num_facets c)
               = Some fs ∧
             view_cellConnectivity v !! j
               = Some (num_points c, num_facets c, ps, fs)) ∧
        (∀ j c, _cellGeometry (mesh d) !! j = Some c →
           ∃ fs, read_host (hostm ex_world) T_MC_General_Plane (_facet_g c) (_size c)
                   = Some fs ∧
                 view_cellGeometry v !! j = Some (_size c, fs)).
Proof.
  assert (has_room (devm ex_world) (Dev 0) (size [ex_domain])) as Hroom.
  { right. exists 0%nat, [EIndet; EIndet]. split_and!; [reflexivity|reflexivity|].
    vm_compute. lia. }
  assert (copyDomainDevice 2 [ex_domain] (Dev 0) ex_world
          = Ok 1 (final (copyDomainDevice 2 [ex_domain] (Dev 0) ex_world))) as Hrun.
  { vm_compute. reflexivity. }
  split; [exact Hroom|]. split; [exact Hrun|].
  exact (mirror_round_trip 2 [ex_domain] (Dev 0) ex_world 1 _ Hroom Hrun).
Defined.

Lemma counts_recorded_witness :
  has_room (devm ex_world) (Dev 0) (size [ex_domain; ex_empty_domain]) ∧
  copyDomainDevice 2 [ex_domain; ex_empty_domain] (Dev 0) ex_world
    = Ok 2 (final (copyDomainDevice 2 [ex_domain; ex_empty_domain] (Dev 0) ex_world)) ∧
  (2 = size [ex_domain; ex_empty_domain] ∧
   ∃ ds,
     descriptors
       (devm (final (copyDomainDevice 2 [ex_domain; ex_empty_domain] (Dev 0) ex_world)))
       (Dev 0) 2 = Some ds ∧
     Forall2
       (shape_agrees 0 2
          (devm (final (copyDomainDevice 2 [ex_domain; ex_empty_domain] (Dev 0)
                          ex_world))))
       [ex_domain; ex_empty_domain] ds).
Proof.
  assert (has_room (devm ex_world) (Dev 0) (size [ex_domain; ex_empty_domain])) as Hroom.
  { right. exists 0%nat, [EIndet; EIndet]. split_and!; [reflexivity|reflexivity|].
    vm_compute. lia. }
  assert (copyDomainDevice 2 [ex_domain; ex_empty_domain] (Dev 0) ex_world
          = Ok 2 (final (copyDomainDevice 2 [ex_domain; ex_empty_domain] (Dev 0)
                           ex_world))) as Hrun.
  { vm_compute. reflexivity. }
  split; [exact Hroom|]. split; [exact Hrun|].
  exact (counts_recorded 2 _ (Dev 0) ex_world 2 _ Hroom Hrun).
Defined.

(** C2 as stated fails: the sequence is not empty, the build completes,
    and the address recorded for the cell-state array of a domain
    without cells is null. *)
Lemma empty_array_has_null_address :
  [ex_empty_domain] ≠ [] ∧
  has_room (devm ex_world) (Dev 0) (size [ex_empty_domain]) ∧
  copyDomainDevice 2 [ex_empty_domain] (Dev 0) ex_world
    = Ok 1 (final (copyDomainDevice 2 [ex_empty_domain] (Dev 0) ex_world)) ∧
  match descriptors
          (devm (final (copyDomainDevice 2 [ex_empty_domain] (Dev 0) ex_world)))
          (Dev 0) 1 with
  | Some [dd] => cell_stateSize dd = 0 ∧ cell_state_d dd = Null
  | _ => False
  end.
Proof.
  split_and!.
  - discriminate.
  - right. exists 0%nat, [EIndet; EIndet]. split_and!; [reflexivity|reflexivity|].
    vm_compute. lia.
  - vm_compute. reflexivity.
  - vm_compute. split; reflexivity.
Qed.

Lemma descriptors_go_to_the_callers_pointer_witness :
  let s' := final (copyDomainDevice 2 [ex_domain] (Dev 0) ex_world) in
  has_room (devm ex_world) (Dev 0) (size [ex_domain]) ∧
  copyDomainDevice 2 [ex_domain] (Dev 0) ex_world = Ok 1 s' ∧
  (1 = size [ex_domain] ∧
   ∃ evs domain_h,
     trace s' = trace ex_world ++ evs ++ [EvMemcpy (Dev 0) (map EDomain domain_h)] ∧
     Forall (λ e, allocates_descriptors e = false ∧
                  carries_descriptors e = false) evs ∧
     descriptors (devm s') (Dev 0) 1 = Some domain_h ∧
     Forall2 (patched 2 (hostm ex_world) (trace ex_world ++ evs) (devm s'))
       [ex_domain] domain_h).
Proof.
  intros s'.
  assert (has_room (devm ex_world) (Dev 0) (size [ex_domain])) as Hroom.
  { right. exists 0%nat, [EIndet; EIndet]. split_and!; [reflexivity|reflexivity|].
    vm_compute. lia. }
  assert (copyDomainDevice 2 [ex_domain] (Dev 0) ex_world = Ok 1 s') as Hrun
    by (vm_compute; reflexivity).
  split; [exact Hroom|]. split; [exact Hrun|].
  exact (descriptors_go_to_the_callers_pointer 2 [ex_domain] (Dev 0) ex_world 1 s'
           Hroom Hrun).
Defined.

(** C3 as stated fails: the build completes, and no call in its history
    allocates the descriptor array; the only allocation of that type in
    the target space is the one the caller made beforehand. *)
Lemma build_allocates_no_descriptor_array :
  copyDomainDevice 2 [ex_domain] (Dev 0) ex_world
    = Ok 1 (final (copyDomainDevice 2 [ex_domain] (Dev 0) ex_world)) ∧
  trace ex_world = [] ∧
  existsb allocates_descriptors
    (trace (final (copyDomainDevice 2 [ex_domain] (Dev 0) ex_world))) = false ∧
  match last (trace (final (copyDomainDevice 2 [ex_domain] (Dev 0) ex_world))) with
  | Some (EvMemcpy dst data) => dst = Dev 0 ∧ length data = 1%nat
  | _ => False
  end.
Proof.
  split_and!; vm_compute; try reflexivity. split; reflexivity.
Qed.

(** C4.  An allocation that fails goes unnoticed.  In the build of
    [ex_domain] the sixth call, the allocation of the cell-state array,
    is made to fail: it returns a null pointer, [safeCall] is given no
    error, and the build is not aborted there but goes on to the next
    call, the copy of the two cell states to the null address.  In the
    build of [ex_empty_domain] the failing allocation is that of an empty
    cell-state array: the copy that follows copies nothing, ten more
    calls are issued, and the build completes and hands back a mirror in
    which the address is null where the build without the failure
    records an allocation. *)
Theorem a_failed_allocation_goes_unnoticed :
  (∃ s', copyDomainDevice 2 [ex_domain] (Dev 0) ex_world_faulty
           = Fail Undefined s' ∧
         fault_at ex_world_faulty = Some 5%nat ∧
         trace s' !! 5%nat = Some (EvMalloc T_MC_Cell_State 2 Null) ∧
         length (trace s') = 6%nat) ∧
  (∃ s' s0',
     copyDomainDevice 2 [ex_empty_domain] (Dev 1) (schedule (Some 1%nat) ex_world')
       = Ok 1 s' ∧
     copyDomainDevice 2 [ex_empty_domain] (Dev 1) ex_world' = Ok 1 s0' ∧
     trace s' !! 1%nat = Some (EvMalloc T_MC_Cell_State 0 Null) ∧
     trace s0' !! 1%nat = Some (EvMalloc T_MC_Cell_State 0 (Dev 2)) ∧
     length (trace s') = 12%nat ∧
     (map cell_state_d <$> descriptors (devm s') (Dev 1) 1) = Some [Null] ∧
     (map cell_state_d <$> descriptors (devm s0') (Dev 1) 1) = Some [Dev 2]).
Proof.
  split.
  - eexists. vm_compute. split_and!; reflexivity.
  - eexists _, _. vm_compute. split_and!; reflexivity.
Qed.

(** A copy that fails does abort the build: the third call of the build
    of [ex_domain], the copy that fills the first cell's cross-section
    array, is made to fail. *)
Example third_call_fails :
  match copyDomainDevice 2 [ex_domain] (Dev 0) (schedule (Some 2%nat) ex_world) with
  | Fail Aborted s' =>
      length (trace s') = 3%nat ∧ last (trace s') = Some EvMemcpyFailed ∧
      devm s' !! 0%nat = Some [EIndet; EIndet]
  | _ => False
  end.
Proof. vm_compute. split_and!; reflexivity. Qed.

Lemma bottom_up_order_witness :
  bottom_up (trace ex_world) ∧
  bottom_up (trace (final (copyDomainDevice 2 [ex_domain] (Dev 0) ex_world))).
Proof.
  assert (bottom_up (trace ex_world)) as Hbu by apply bottom_up_nil.
  split; [exact Hbu|].
  exact (bottom_up_order 2 [ex_domain] (Dev 0) ex_world Hbu).
Defined.



Lemma degenerate_inputs_witness :
  fault_at ex_world = None ∧
  is_Some (host_views (hostm ex_world) 2 [ex_empty_domain]) ∧
  has_room (devm ex_world) (Dev 0) (size [ex_empty_domain]) ∧
  ∃ s',
    copyDomainDevice 2 [ex_empty_domain] (Dev 0) ex_world
      = Ok (size [ex_empty_domain]) s' ∧
    ([ex_empty_domain] = [] →
       devm s' = devm ex_world ∧ trace s' = trace ex_world ++ [EvMemcpy (Dev 0) []]) ∧
    ∃ ds, descriptors (devm s') (Dev 0) (size [ex_empty_domain]) = Some ds ∧
      ∀ i d, [ex_empty_domain] !! i = Some d →
        ∃ dd, ds !! i = Some dd ∧
          (cell_state d = [] → cell_stateSize dd = 0) ∧
          (_cellConnectivity (mesh d) = [] → _cellConnectivitySize (mesh_d dd) = 0) ∧
          (_cellGeometry (mesh d) = [] → _cellGeometrySize (mesh_d dd) = 0).
Proof.
  assert (fault_at ex_world = None) as Hf by reflexivity.
  assert (is_Some (host_views (hostm ex_world) 2 [ex_empty_domain])) as Hv.
  { vm_compute. eexists. reflexivity. }
  assert (has_room (devm ex_world) (Dev 0) (size [ex_empty_domain])) as Hroom.
  { right. exists 0%nat, [EIndet; EIndet]. split_and!; [reflexivity|reflexivity|].
    vm_compute. lia. }
  split; [exact Hf|]. split; [exact Hv|]. split; [exact Hroom|].
  exact (degenerate_inputs 2 [ex_empty_domain] (Dev 0) ex_world Hf Hv Hroom).
Defined.

(** C6 as stated fails: for an empty domain sequence and a null
    [domain_d] the build completes with count zero, and the address of
    its result, the destination of its only copy, is null. *)
Lemma empty_build_result_can_be_null :
  copyDomainDevice 2 [] Null ex_world
    = Ok 0 (final (copyDomainDevice 2 [] Null ex_world)) ∧
  trace (final (copyDomainDevice 2 [] Null ex_world)) = [EvMemcpy Null []] ∧
  devm (final (copyDomainDevice 2 [] Null ex_world)) = devm ex_world.
Proof.
  split_and!; vm_compute; reflexivity.
Qed.

Lemma two_builds_agree_witness :
  hostm ex_world = hostm ex_world' ∧
  has_room (devm ex_world) (Dev 0) (size [ex_domain]) ∧
  has_room (devm ex_world') (Dev 1) (size [ex_domain]) ∧
  copyDomainDevice 2 [ex_domain] (Dev 0) ex_world
    = Ok 1 (final (copyDomainDevice 2 [ex_domain] (Dev 0) ex_world)) ∧
  copyDomainDevice 2 [ex_domain] (Dev 1) ex_world'
    = Ok 1 (final (copyDomainDevice 2 [ex_domain] (Dev 1) ex_world')) ∧
  (1 = 1 ∧
   (∃ ds1 ds2,
      descriptors (devm (final (copyDomainDevice 2 [ex_domain] (Dev 0) ex_world)))
        (Dev 0) 1 = Some ds1 ∧
      descriptors (devm (final (copyDomainDevice 2 [ex_domain] (Dev 1) ex_world')))
        (Dev 1) 1 = Some ds2 ∧
      Forall2 same_counts ds1 ds2) ∧
   is_Some (read_mirror (devm (final (copyDomainDevice 2 [ex_domain] (Dev 0) ex_world)))
              2 (Dev 0) 1) ∧
   read_mirror (devm (final (copyDomainDevice 2 [ex_domain] (Dev 0) ex_world)))
     2 (Dev 0) 1
   = read_mirror (devm (final (copyDomainDevice 2 [ex_domain] (Dev 1) ex_world')))
       2 (Dev 1) 1).
Proof.
  assert (hostm ex_world = hostm ex_world') as Hh by reflexivity.
  assert (has_room (devm ex_world) (Dev 0) (size [ex_domain])) as Hroom1.
  { right. exists 0%nat, [EIndet; EIndet]. split_and!; [reflexivity|reflexivity|].
    vm_compute. lia. }
  assert (has_room (devm ex_world') (Dev 1) (size [ex_domain])) as Hroom2.
  { right. exists 1%nat, [EIndet; EIndet; EIndet].
    split_and!; [reflexivity|reflexivity|]. vm_compute. lia. }
  assert (copyDomainDevice 2 [ex_domain] (Dev 0) ex_world
          = Ok 1 (final (copyDomainDevice 2 [ex_domain] (Dev 0) ex_world))) as Hrun1.
  { vm_compute. reflexivity. }
  assert (copyDomainDevice 2 [ex_domain] (Dev 1) ex_world'
          = Ok 1 (final (copyDomainDevice 2 [ex_domain] (Dev 1) ex_world'))) as Hrun2.
  { vm_compute. reflexivity. }
  split; [exact Hh|]. split; [exact Hroom1|]. split; [exact Hroom2|].
  split; [exact Hrun1|]. split; [exact Hrun2|].
  exact (two_builds_agree 2 [ex_domain] (Dev 0) (Dev 1) ex_world ex_world'
           1 1 _ _ Hh Hroom1 Hroom2 Hrun1 Hrun2).
Defined.

(** The same two builds record different addresses. *)
Example two_builds_differ_in_addresses :
  descriptors (devm (final (copyDomainDevice 2 [ex_domain] (Dev 0) ex_world))) (Dev 0) 1
  ≠ descriptors (devm (final (copyDomainDevice 2 [ex_domain] (Dev 1) ex_world')))
      (Dev 1) 1.
Proof. vm_compute. discriminate. Qed.

Lemma unmirrored_members_do_not_matter_witness :
  Forall2 same_but_unmirrored [ex_domain] [ex_domain'] ∧
  copyDomainDevice 2 [ex_domain] (Dev 0) ex_world
  = copyDomainDevice 2 [ex_domain'] (Dev 0) ex_world.
Proof.
  assert (Forall2 same_but_unmirrored [ex_domain] [ex_domain']) as Hsame.
  { constructor; [|constructor]. unfold same_but_unmirrored.
    split_and!; reflexivity. }
  split; [exact Hsame|].
  exact (unmirrored_members_do_not_matter 2 [ex_domain] [ex_domain'] (Dev 0) ex_world Hsame).
Defined.


(** *** Further properties of the build *)

Lemma store_inv m dst data m' :
  store m dst data = Some m' →
  (data = [] ∧ m' = m) ∨
  ∃ a blk, dst = Dev a ∧ m !! a = Some blk ∧ (length data ≤ length blk)%nat ∧
           m' = <[a := data ++ drop (length data) blk]> m.
Proof.
  unfold store. destruct data as [|x data]; [intros [= <-]; by left|].
  destruct dst as [| |a|]; try done.
  destruct (m !! a) as [blk|] eqn:Hblk; [|done].
  destruct (Nat.leb_spec (length (x :: data)) (length blk)); [|done].
  intros [= <-]. right. by exists a, blk.
Qed.

(** X9.  Every copy that a completed build issues is checked.  Take a
    build that completes with no failure scheduled, and schedule any one
    of its copies, to a host staging array or into the target space, to
    fail instead: the build is then aborted, its history is that of the
    completed build up to the failing copy followed by the failure and
    nothing else, and every allocation that existed before the build is
    as it was. *)
Theorem a_failed_copy_aborts n domain domain_d s0 sz s0' k :
  fault_at s0 = None →
  copyDomainDevice n domain domain_d s0 = Ok sz s0' →
  (length (trace s0) ≤ k)%nat →
  (∃ e, trace s0' !! k = Some e ∧ is_alloc e = false) →
  ∃ s',
    copyDomainDevice n domain domain_d (schedule (Some k) s0) = Fail Aborted s' ∧
    trace s' = take k (trace s0') ++ [EvMemcpyFailed] ∧
    ∀ a blk, devm s0 !! a = Some blk → devm s' !! a = Some blk.
Proof.
  intros Hf Hrun Hk Hcopy.
  destruct (each_copy_is_checked _ _ _ _ _ _ _ Hf Hrun Hk Hcopy)
    as (s' & e & Hs' & Htr & He).
  exists s'. split_and!; [done|by destruct e|].
  pose proof (run_any n domain domain_d (schedule (Some k) s0)) as Hany.
  cbv zeta in Hany. rewrite Hs' in Hany. destruct Hany as (_ & _ & _ & Hpre & _).
  intros a blk Hblk. by eapply prefix_lookup_Some.
Qed.

(** X11.  A completed build writes to one place only in the memory that
    existed before it: the first [domain.size()] elements of the
    caller's buffer, which receive the descriptors.  The rest of that
    buffer and every other allocation are as they were, and no
    allocation has gone. *)
Theorem completed_build_frame n domain domain_d s sz s' :
  copyDomainDevice n domain domain_d s = Ok sz s' →
  (length (devm s) ≤ length (devm s'))%nat ∧
  ∀ a blk, devm s !! a = Some blk →
    (domain_d ≠ Dev a → devm s' !! a = Some blk) ∧
    (domain_d = Dev a →
       ∃ domain_h, length domain_h = length domain ∧
         (domain ≠ [] → (length domain ≤ length blk)%nat) ∧
         devm s' !! a = Some (map EDomain domain_h ++ drop (length domain) blk)).
Proof.
  intros Hrun.
  pose proof (run_any n domain domain_d s) as Hany. cbv zeta in Hany.
  rewrite Hrun in Hany. destruct Hany as (_ & _ & _ & Hlength & _).
  split; [done|].
  pose proof (domain_loop_post n domain s) as Hloop.
  apply run_Ok_inv in Hrun as (_ & domain_h & s1 & Hl & Hcopy).
  rewrite Hl in Hloop. destruct Hloop as (_ & _ & Hpre & Hlen & _).
  apply memcpy_Ok in Hcopy as (data & Hdata & _ & _ & _ & Hmem).
  rewrite fetch_array' in Hdata by (unfold size; by rewrite length_map, Hlen).
  injection Hdata as <-.
  intros a blk Hblk.
  pose proof (prefix_lookup_Some _ _ _ _ Hblk Hpre) as Hblk1.
  destruct (is_host domain_d) eqn:Hhost.
  { destruct Hmem as [-> _]. split; [done|]. by intros ->. }
  destruct Hmem as [_ Hstore].
  apply store_inv in Hstore as [[Hnil ->]|(a0 & blk0 & -> & Hblk0 & Hfit & ->)].
  - split; [done|]. intros _. exists domain_h. split; [done|].
    apply (f_equal length) in Hnil. rewrite length_map, Hlen in Hnil.
    destruct domain; [|done]. destruct domain_h; [|done]. by split.
  - split.
    + intros Hne. rewrite list_lookup_insert_ne; [done|congruence].
    + intros [= ->]. rewrite Hblk1 in Hblk0. injection Hblk0 as <-.
      exists domain_h. rewrite length_map, Hlen in *. split_and!; try done.
      rewrite list_lookup_insert_eq; [done|]. by eapply lookup_lt_Some.
Qed.

Lemma a_failed_copy_aborts_witness :
  let s0' := final (copyDomainDevice 2 [ex_domain] (Dev 0) ex_world) in
  fault_at ex_world = None ∧
  copyDomainDevice 2 [ex_domain] (Dev 0) ex_world = Ok 1 s0' ∧
  (length (trace ex_world) ≤ 6)%nat ∧
  (∃ e, trace s0' !! 6%nat = Some e ∧ is_alloc e = false) ∧
  ∃ s',
    copyDomainDevice 2 [ex_domain] (Dev 0) (schedule (Some 6%nat) ex_world)
      = Fail Aborted s' ∧
    trace s' = take 6 (trace s0') ++ [EvMemcpyFailed] ∧
    ∀ a blk, devm ex_world !! a = Some blk → devm s' !! a = Some blk.
Proof.
  intros s0'.
  assert (fault_at ex_world = None) as Hf by reflexivity.
  assert (copyDomainDevice 2 [ex_domain] (Dev 0) ex_world = Ok 1 s0') as Hrun
    by (vm_compute; reflexivity).
  assert (length (trace ex_world) ≤ 6)%nat as Hk by (vm_compute; lia).
  assert (∃ e, trace s0' !! 6%nat = Some e ∧ is_alloc e = false) as Hcopy
    by (eexists; split; vm_compute; reflexivity).
  split; [exact Hf|]. split; [exact Hrun|]. split; [exact Hk|].
  split; [exact Hcopy|].
  exact (a_failed_copy_aborts 2 [ex_domain] (Dev 0) ex_world 1 s0' 6
           Hf Hrun Hk Hcopy).
Defined.

Lemma completed_build_frame_witness :
  let s' := final (copyDomainDevice 2 [ex_domain] (Dev 1) ex_world') in
  copyDomainDevice 2 [ex_domain] (Dev 1) ex_world' = Ok 1 s' ∧
  (length (devm ex_world') ≤ length (devm s'))%nat ∧
  ∀ a blk, devm ex_world' !! a = Some blk →
    (Dev 1 ≠ Dev a → devm s' !! a = Some blk) ∧
    (Dev 1 = Dev a →
       ∃ domain_h, length domain_h = length [ex_domain] ∧
         ([ex_domain] ≠ [] → (length [ex_domain] ≤ length blk)%nat) ∧
         devm s' !! a
         = Some (map EDomain domain_h ++ drop (length [ex_domain]) blk)).
Proof.
  intros s'.
  assert (copyDomainDevice 2 [ex_domain] (Dev 1) ex_world' = Ok 1 s') as Hrun
    by (vm_compute; reflexivity).
  split; [exact Hrun|].
  exact (completed_build_frame 2 [ex_domain] (Dev 1) ex_world' 1 s' Hrun).
Defined.

(** *** Counting the calls of a build *)

Lemma count_events_app f l1 l2 :
  count_events f (l1 ++ l2) = (count_events f l1 + count_events f l2)%nat.
Proof. unfold count_events. by rewrite List.filter_app, length_app. Qed.

Lemma count_events_all evs : count_events (λ _, true) evs = length evs.
Proof.
  unfold count_events. induction evs as [|e evs IH]; [done|].
  simpl. by rewrite IH.
Qed.

Lemma sum_list_with_lookup {A} (w : A → nat) (l pre : list A) :
  sum_list_with (λ j, from_option w 0%nat ((pre ++ l) !! j))
    (seq (length pre) (length l))
  = sum_list_with w l.
Proof.
  revert pre. induction l as [|x l IH]; intros pre; [done|].
  simpl. rewrite list_lookup_middle by done. simpl. f_equal.
  specialize (IH (pre ++ [x])).
  rewrite <- app_assoc, length_app, Nat.add_1_r in IH. done.
Qed.

Lemma sum_list_with_affine {A} (w : A → nat) (h u : nat) (l : list A) :
  sum_list_with (λ d, h + w d * u)%nat l
  = (length l * h + sum_list_with w l * u)%nat.
Proof. induction l as [|x l IH]; [done|]. simpl. rewrite IH. lia. Qed.

Lemma tallies_eq {A} f (m : M A) c c' : tallies f m c → c = c' → tallies f m c'.
Proof. by intros H <-. Qed.

Lemma tallies_ret {A} f (x : A) : tallies f (ret x) 0.
Proof.
  intros w a w' [= _ <-]. exists []. by rewrite app_nil_r.
Qed.

Lemma tallies_bind {A B} f (m : M A) (k : A → M B) c1 c2 :
  tallies f m c1 → (∀ x, tallies f (k x) c2) → tallies f (bind m k) (c1 + c2).
Proof.
  intros Hm Hk w b w' Hrun. unfold bind in Hrun.
  destruct (m w) as [x w1|] eqn:Hmw; [|done].
  destruct (Hm _ _ _ Hmw) as (evs1 & Htr1 & Hc1).
  destruct (Hk x _ _ _ Hrun) as (evs2 & Htr2 & Hc2).
  exists (evs1 ++ evs2). rewrite Htr2, Htr1, app_assoc, count_events_app.
  split; [done|lia].
Qed.

Lemma tallies_index_bind {A B} f (v : list A) i (k : A → M B) c :
  (∀ x, v !! i = Some x → tallies f (k x) c) → tallies f (bind (index v i) k) c.
Proof.
  intros Hk w b w' Hrun. unfold bind, index in Hrun.
  destruct (v !! i) as [x|] eqn:Hx; [|done]. by eapply Hk.
Qed.

Lemma tallies_malloc {A} f (indet : Z → A) n : tallies f (malloc indet n) 0.
Proof.
  intros w a w' [= _ <-]. exists []. by rewrite app_nil_r.
Qed.

Lemma tallies_at_index {A} f (v : list A) i (g : A → M A) c :
  (∀ x, tallies f (g x) c) → tallies f (at_index v i g) c.
Proof.
  intros Hg. unfold at_index. apply tallies_index_bind. intros x _.
  eapply tallies_eq; [eapply tallies_bind; [apply Hg|intros ?; apply tallies_ret]|].
  lia.
Qed.

Lemma tallies_for_from {St} f (body : nat → St → M St) (c : nat → nat) :
  (∀ j acc, tallies f (body j acc) (c j)) →
  ∀ count j acc,
    tallies f (for_from j count body acc) (sum_list_with c (seq j count)).
Proof.
  intros Hb. induction count as [|count IH]; intros j acc.
  - apply tallies_ret.
  - cbn [for_from seq sum_list_with]. apply tallies_bind; [apply Hb|].
    intros acc'. apply IH.
Qed.

Lemma tallies_for_lt {A St} f (l : list A) (body : nat → St → M St) acc c :
  (∀ j acc, tallies f (body j acc) c) →
  tallies f (for_lt (size l) body acc) (length l * c).
Proof.
  intros Hb. unfold for_lt, size. rewrite Nat2Z.id.
  eapply tallies_eq; [by apply (tallies_for_from f body (λ _, c))|].
  generalize 0%nat. induction (length l) as [|k IH]; intros j; [done|].
  simpl. by rewrite IH.
Qed.

Section Tally.
Variable f : event → bool.
Variables a g h : nat.
Hypothesis Ha : ∀ T n p, Nat.b2n (f (EvMalloc T n p)) = a.
Hypothesis Hg : ∀ dst data, Nat.b2n (f (EvMemcpy dst data)) = g.
Hypothesis Hh : ∀ n, Nat.b2n (f (EvMemcpyHost n)) = h.

Lemma tallies_one {A} (m : M A) (P : event → Prop) c :
  (∀ w x w', m w = Ok x w' → ∃ e, trace w' = trace w ++ [e] ∧ P e) →
  (∀ e, P e → Nat.b2n (f e) = c) →
  tallies f m c.
Proof.
  intros Hm HP w x w' Hrun. destruct (Hm _ _ _ Hrun) as (e & Htr & He).
  exists [e]. split; [done|]. rewrite <- (HP e He).
  unfold count_events. simpl. by destruct (f e).
Qed.

Lemma tallies_malloc_device T n : tallies f (safeCall (malloc_device T n)) a.
Proof.
  apply (tallies_one _ (λ e, ∃ p, e = EvMalloc T n p)).
  - intros w x w' Hrun. apply malloc_device_Ok in Hrun. eauto.
  - intros e [p ->]. apply Ha.
Qed.

Lemma tallies_memcpy dst src n : tallies f (safeCall (memcpy dst src n)) g.
Proof.
  apply (tallies_one _ (λ e, ∃ data, e = EvMemcpy dst data)).
  - intros w x w' Hrun. apply memcpy_Ok in Hrun as (data & _ & Htr & _). eauto.
  - intros e [data ->]. apply Hg.
Qed.

Lemma tallies_memcpy_staging {A} (src : list A) n :
  tallies f (safeCall (memcpy_staging src n)) h.
Proof.
  apply (tallies_one _ (λ e, e = EvMemcpyHost n)).
  - intros w x w'. unfold safeCall, memcpy_staging.
    destruct (faulty w); [done|].
    destruct ((0 <=? n) && (n <=? Z.of_nat (length src))); [|done].
    intros [= <- <-]. eexists. by split.
  - intros e ->. apply Hh.
Qed.

Ltac tally :=
  repeat first
    [ apply tallies_ret
    | apply tallies_malloc
    | apply tallies_malloc_device
    | apply tallies_memcpy
    | apply tallies_memcpy_staging
    | eapply tallies_bind; [|intros ?] ].

Lemma tallies_cell_state_body n cells j c :
  tallies f (cell_state_body n cells j c) (a + g).
Proof.
  unfold cell_state_body. apply tallies_index_bind. intros hc _. cbv zeta.
  eapply tallies_eq; [tally|lia].
Qed.

Lemma tallies_cellConnectivity_body host j c :
  tallies f (cellConnectivity_body host j c) (2 * (a + g)).
Proof.
  unfold cellConnectivity_body. apply tallies_index_bind. intros hc _. cbv zeta.
  eapply tallies_eq; [tally|lia].
Qed.

Lemma tallies_cellGeometry_body host j c :
  tallies f (cellGeometry_body host j c) (a + g).
Proof.
  unfold cellGeometry_body. apply tallies_index_bind. intros hc _. cbv zeta.
  eapply tallies_eq; [tally|lia].
Qed.

Lemma tallies_domain_body n domain i dh :
  tallies f (domain_body n domain i dh)
    (from_option (λ d, h + allocations_of d * (a + g))%nat 0%nat (domain !! i)).
Proof.
  unfold domain_body. apply tallies_index_bind. intros d ->. cbv zeta.
  eapply tallies_eq.
  - repeat first
      [ apply tallies_ret
      | apply tallies_malloc
      | apply tallies_malloc_device
      | apply tallies_memcpy
      | apply tallies_memcpy_staging
      | apply tallies_for_lt; intros ? ?; apply tallies_at_index; intros ?;
        first [ apply tallies_cell_state_body
              | apply tallies_cellConnectivity_body
              | apply tallies_cellGeometry_body ]
      | eapply tallies_bind; [|intros ?] ].
  - unfold allocations_of. simpl. lia.
Qed.

Lemma tallies_copyDomainDevice n domain domain_d :
  tallies f (copyDomainDevice n domain domain_d)
    (length domain * h + sum_list_with allocations_of domain * (a + g) + g).
Proof.
  unfold copyDomainDevice. cbv zeta.
  eapply tallies_eq.
  - eapply tallies_bind; [apply tallies_malloc|]. intros domain_h.
    eapply tallies_bind.
    + unfold for_lt, size. rewrite Nat2Z.id.
      apply (tallies_for_from f _
               (λ i, from_option (λ d, h + allocations_of d * (a + g))%nat 0%nat
                       (domain !! i))).
      intros i acc. apply tallies_at_index. intros dh.
      apply tallies_domain_body.
    + intros domain_h'. tally.
  - rewrite (sum_list_with_lookup _ domain []), sum_list_with_affine. lia.
Qed.

End Tally.

(** X12.  The calls of a completed build, counted.  For each domain the
    build makes five allocations for the arrays of the descriptor, one
    per cell state, two per connectivity cell and one per geometry cell,
    and one host staging copy; it makes as many copies into the target
    space as allocations, plus the one that writes the descriptors to
    the caller's buffer.  It issues no other call. *)
Theorem calls_of_a_completed_build n domain domain_d s sz s' :
  copyDomainDevice n domain domain_d s = Ok sz s' →
  ∃ evs, trace s' = trace s ++ evs ∧
    count_events is_alloc evs = sum_list_with allocations_of domain ∧
    count_events is_copy evs = S (sum_list_with allocations_of domain) ∧
    count_events is_staging evs = length domain ∧
    length evs
    = (2 * sum_list_with allocations_of domain + length domain + 1)%nat.
Proof.
  intros Hrun.
  destruct (tallies_copyDomainDevice is_alloc 1 0 0
              ltac:(done) ltac:(done) ltac:(done) n domain domain_d _ _ _ Hrun)
    as (evs & Htr & Halloc).
  destruct (tallies_copyDomainDevice is_copy 0 1 0
              ltac:(done) ltac:(done) ltac:(done) n domain domain_d _ _ _ Hrun)
    as (evs1 & Htr1 & Hcopy).
  destruct (tallies_copyDomainDevice is_staging 0 0 1
              ltac:(done) ltac:(done) ltac:(done) n domain domain_d _ _ _ Hrun)
    as (evs2 & Htr2 & Hstaging).
  destruct (tallies_copyDomainDevice (λ _, true) 1 1 1
              ltac:(done) ltac:(done) ltac:(done) n domain domain_d _ _ _ Hrun)
    as (evs3 & Htr3 & Hall).
  rewrite Htr in Htr1, Htr2, Htr3.
  apply app_inv_head in Htr1 as <-. apply app_inv_head in Htr2 as <-.
  apply app_inv_head in Htr3 as <-. rewrite count_events_all in Hall.
  exists evs. split_and!; [done|lia..].
Qed.

Lemma calls_of_a_completed_build_witness :
  let s' := final (copyDomainDevice 2 [ex_domain; ex_empty_domain] (Dev 0)
                     ex_world) in
  copyDomainDevice 2 [ex_domain; ex_empty_domain] (Dev 0) ex_world = Ok 2 s' ∧
  ∃ evs, trace s' = trace ex_world ++ evs ∧
    count_events is_alloc evs
    = sum_list_with allocations_of [ex_domain; ex_empty_domain] ∧
    count_events is_copy evs
    = S (sum_list_with allocations_of [ex_domain; ex_empty_domain]) ∧
    count_events is_staging evs = length [ex_domain; ex_empty_domain] ∧
    length evs
    = (2 * sum_list_with allocations_of [ex_domain; ex_empty_domain]
       + length [ex_domain; ex_empty_domain] + 1)%nat.
Proof.
  intros s'.
  assert (copyDomainDevice 2 [ex_domain; ex_empty_domain] (Dev 0) ex_world
          = Ok 2 s') as Hrun by (vm_compute; reflexivity).
  split; [exact Hrun|].
  exact (calls_of_a_completed_build 2 [ex_domain; ex_empty_domain] (Dev 0)
           ex_world 2 s' Hrun).
Defined.


(** *** The shape of a completed build's history *)

Lemma units_app evs1 evs2 : units evs1 → units evs2 → units (evs1 ++ evs2).
Proof.
  intros H1 H2. induction H1; simpl; [done|constructor; auto..].
Qed.

Lemma units_memcpy_staging {A} (src : list A) n :
  emits units (safeCall (memcpy_staging src n)).
Proof.
  intros w x w'. unfold safeCall, memcpy_staging.
  destruct (faulty w); [done|].
  destruct ((0 <=? n) && (n <=? Z.of_nat (length src))); [|done].
  intros [= <- <-]. eexists. split; [done|]. repeat constructor.
Qed.

Lemma units_alloc_fill' {B} T n src (k : ptr → M B) :
  (∀ p, emits units (k p)) →
  emits units (bind (safeCall (malloc_device T n))
                 (λ p, bind (safeCall (memcpy p src n)) (λ _, k p))).
Proof.
  intros Hk w b w' Hrun. unfold bind in Hrun.
  destruct (safeCall (malloc_device T n) w) as [p w1|] eqn:H1; [|done].
  destruct (safeCall (memcpy p src n) w1) as [x w2|] eqn:H2; [|done].
  apply malloc_device_Ok in H1.
  apply memcpy_Ok in H2 as (data & _ & Htr2 & Hlen & _).
  destruct (Hk p _ _ _ Hrun) as (evs & Htr & Hu).
  exists (EvMalloc T n p :: EvMemcpy p data :: evs).
  split; [|by constructor].
  rewrite Htr, Htr2, H1, <- !app_assoc. done.
Qed.

Lemma units_domain_loop n domain domain_h :
  emits units (for_lt (size domain)
                 (λ i domain_h, at_index domain_h i (domain_body n domain i))
                 domain_h).
Proof.
  unfold domain_body, cell_state_body, cellConnectivity_body,
    cellGeometry_body, for_lt.
  cbv zeta. fields.
  repeat first
    [ apply emits_ret; by constructor
    | apply emits_malloc; by constructor
    | apply units_memcpy_staging
    | apply emits_index_bind; intros ?
    | apply units_alloc_fill'; intros ?
    | apply emits_at_index; [by constructor|exact units_app|intros ?]
    | apply emits_for_from; [by constructor|exact units_app|intros ? ?]
    | apply emits_bind; [exact units_app| |intros ?] ].
Qed.

(** X13.  In the history of a completed build every allocation is
    followed at once by a copy to the address it returned, of as many
    elements as were asked for; between these pairs there are only host
    staging copies, and after them comes the copy of the descriptors to
    the caller's pointer, which ends the build. *)
Theorem allocations_are_filled_at_once n domain domain_d s sz s' :
  copyDomainDevice n domain domain_d s = Ok sz s' →
  ∃ evs domain_h,
    trace s' = trace s ++ evs ++ [EvMemcpy domain_d (map EDomain domain_h)] ∧
    length domain_h = length domain ∧
    units evs.
Proof.
  intros Hrun.
  pose proof (domain_loop_post n domain s) as Hloop.
  apply run_Ok_inv in Hrun as (_ & domain_h & s1 & Hl & Hcopy).
  rewrite Hl in Hloop. destruct Hloop as (_ & _ & _ & Hlen & _).
  destruct (units_domain_loop _ _ _ _ _ _ Hl) as (evs & Htr1 & Hu).
  apply memcpy_Ok in Hcopy as (data & Hdata & Htr2 & _).
  rewrite fetch_array' in Hdata by (unfold size; by rewrite length_map, Hlen).
  injection Hdata as <-.
  exists evs, domain_h. split_and!; [|done..].
  by rewrite Htr2, Htr1, app_assoc.
Qed.

Lemma allocations_are_filled_at_once_witness :
  let s' := final (copyDomainDevice 2 [ex_domain] (Dev 0) ex_world) in
  copyDomainDevice 2 [ex_domain] (Dev 0) ex_world = Ok 1 s' ∧
  ∃ evs domain_h,
    trace s' = trace ex_world ++ evs ++ [EvMemcpy (Dev 0) (map EDomain domain_h)] ∧
    length domain_h = length [ex_domain] ∧
    units evs.
Proof.
  intros s'.
  assert (copyDomainDevice 2 [ex_domain] (Dev 0) ex_world = Ok 1 s') as Hrun
    by (vm_compute; reflexivity).
  split; [exact Hrun|].
  exact (allocations_are_filled_at_once 2 [ex_domain] (Dev 0) ex_world 1 s' Hrun).
Defined.

End MCDomain.

(** ** Part III: properties of the [math_bfe] test *)

Module MathBfeProps.
Import MathBfe.

Lemma count_failed_same st accessor idx failed :
  count_failed st accessor accessor idx failed = failed.
Proof.
  revert failed. induction idx as [|i idx IH]; intros failed; [done|].
  simpl. rewrite Z.eqb_refl. simpl. apply IH.
Qed.

(** C9.  Both host-side result accessors are built over
    [dpct_results_buffer], so the comparison loop compares every result
    of the routine under test with itself: for every element type, every
    routine [bfe_safe] put in the place of [dpct::bfe_safe], every
    sequence of random draws and every [N], [test] reports zero failures
    and returns [true]. *)
Theorem test_compares_a_buffer_with_itself T bfe_safe rnd N :
  test T bfe_safe rnd N = (0, true).
Proof.
  unfold test. cbv zeta. by rewrite count_failed_same.
Qed.

(** A routine that always answers 7 disagrees with [bfe_slow] on every
    one of five draws, as a comparison of the two result buffers shows;
    [test] passes it all the same. *)
Example wrong_routine_passes :
  let bfe_safe := λ _ _ _ : Z, 7 in
  let rnd := λ k : nat, Z.of_nat k * 12345 in
  let st := parallel_for 5 (bfe_slow int32_t)
              source_buffer starts_buffer lengths_buffer slow_results_buffer
              (parallel_for 5 bfe_safe
                 source_buffer starts_buffer lengths_buffer dpct_results_buffer
                 (initial_store int32_t rnd 5)) in
  count_failed st dpct_results_buffer slow_results_buffer (seq 0 5) 0 = 5 ∧
  test int32_t bfe_safe rnd 5 = (0, true).
Proof. vm_compute. split; reflexivity. Qed.

(** *** Bit-level facts used for [bfe_slow] *)

Lemma testbit_high x k i :
  0 <= k <= i -> - 2 ^ k <= x < 2 ^ k -> Z.testbit x i = (x <? 0).
Proof.
  intros Hki Hx.
  rewrite Z.testbit_odd, Z.shiftr_div_pow2 by lia.
  assert (0 < 2 ^ k) by (apply Z.pow_pos_nonneg; lia).
  assert (2 ^ k <= 2 ^ i) by (apply Z.pow_le_mono_r; lia).
  destruct (Z.ltb_spec x 0).
  - replace (x / 2 ^ i) with (-1); [done|].
    apply Z.div_unique with (r := x + 2 ^ i); lia.
  - rewrite Z.div_small by lia. done.
Qed.

Lemma to_ullong_range W bs : 0 <= to_ullong W bs < 2 ^ Z.of_nat W.
Proof.
  induction W as [|w IH]; [simpl; lia|].
  cbn [to_ullong]. rewrite Nat2Z.inj_succ, Z.pow_succ_r by lia.
  destruct (bs (Z.of_nat w)); lia.
Qed.

Lemma to_ullong_testbit W bs i :
  0 <= i ->
  Z.testbit (to_ullong W bs) i = (i <? Z.of_nat W) && bs i.
Proof.
  intros Hi. induction W as [|w IH].
  - cbn [to_ullong]. change (Z.of_nat 0) with 0. rewrite Z.bits_0.
    destruct (Z.ltb_spec i 0); [lia|done].
  - cbn [to_ullong]. pose proof (to_ullong_range w bs) as Hr.
    set (x := to_ullong w bs) in *.
    set (b := if bs (Z.of_nat w) then 1 else 0).
    assert (0 < 2 ^ Z.of_nat w) by (apply Z.pow_pos_nonneg; lia).
    replace (if bs (Z.of_nat w) then 2 ^ Z.of_nat w else 0)
      with (b * 2 ^ Z.of_nat w) by (unfold b; destruct (bs (Z.of_nat w)); lia).
    destruct (Z.ltb_spec i (Z.of_nat w)) as [Hlt|Hge].
    + replace (i <? Z.of_nat (S w)) with true
        by (symmetry; apply Z.ltb_lt; lia).
      rewrite <- (Z.mod_pow2_bits_low _ (Z.of_nat w)) by lia.
      rewrite Z.mod_add, Z.mod_small, IH by lia.
      by replace (i <? Z.of_nat w) with true
        by (symmetry; apply Z.ltb_lt; lia).
    + replace i with ((i - Z.of_nat w) + Z.of_nat w) at 1 by lia.
      rewrite <- Z.div_pow2_bits, Z.div_add, Z.div_small by lia.
      destruct (Z.eqb_spec i (Z.of_nat w)) as [->|Hne].
      * replace (Z.of_nat w <? Z.of_nat (S w)) with true
          by (symmetry; apply Z.ltb_lt; lia).
        rewrite Z.sub_diag. unfold b. by destruct (bs (Z.of_nat w)).
      * replace (i <? Z.of_nat (S w)) with false
          by (symmetry; apply Z.ltb_ge; lia).
        rewrite (testbit_high _ 1);
          [|lia|unfold b; destruct (bs (Z.of_nat w)); rewrite Z.pow_1_r; lia].
        simpl. apply Z.ltb_ge. unfold b. destruct (bs (Z.of_nat w)); lia.
Qed.

Lemma bit_width_pos T : 0 < sizeof T -> 0 < bit_width T.
Proof. unfold bit_width, CHAR_BIT. lia. Qed.

(** Above the top bit an object of a signed type repeats its sign, and
    an object of an unsigned type has no bit set. *)
Lemma in_range_high T src k :
  0 < sizeof T -> in_range T src ->
  (if is_signed T then bit_width T - 1 else bit_width T) <= k ->
  Z.testbit src k = is_signed T && (src <? 0).
Proof.
  intros HT Hin Hk. apply bit_width_pos in HT. unfold in_range in Hin.
  destruct (is_signed T); simpl.
  - apply (testbit_high _ (bit_width T - 1)); lia.
  - rewrite (testbit_high _ (bit_width T)) by lia. apply Z.ltb_ge. lia.
Qed.

Lemma to_T_testbit T v i :
  0 < sizeof T -> 0 <= v < 2 ^ bit_width T -> 0 <= i ->
  Z.testbit (to_T T v) i =
    Z.testbit v (if is_signed T then Z.min i (bit_width T - 1) else i).
Proof.
  intros HT Hv Hi. apply bit_width_pos in HT. unfold to_T.
  set (W := bit_width T) in *. rewrite Z.mod_small by lia.
  assert (2 ^ W = 2 * 2 ^ (W - 1)) as HW
    by (rewrite <- Z.pow_succ_r by lia; f_equal; lia).
  assert (0 < 2 ^ (W - 1)) by (apply Z.pow_pos_nonneg; lia).
  destruct (is_signed T); simpl; [|done].
  destruct (Z.leb_spec (2 ^ (W - 1)) v) as [Hneg|Hnn].
  - destruct (Z.ltb_spec i W).
    + rewrite Z.min_l by lia.
      rewrite <- (Z.mod_pow2_bits_low (v - 2 ^ W) W) by lia.
      replace (v - 2 ^ W) with (v + (-1) * 2 ^ W) by lia.
      by rewrite Z.mod_add, Z.mod_small by lia.
    + rewrite Z.min_r by lia.
      rewrite (testbit_high _ (W - 1)) by lia.
      rewrite Z.testbit_odd, Z.shiftr_div_pow2 by lia.
      replace (v / 2 ^ (W - 1)) with 1
        by (apply Z.div_unique with (r := v - 2 ^ (W - 1)); lia).
      apply Z.ltb_lt. lia.
  - destruct (Z.ltb_spec i (W - 1)); [by rewrite Z.min_l by lia|].
    rewrite Z.min_r by lia. by rewrite !(testbit_high v (W - 1)) by lia.
Qed.

(** Every bit of the value [bfe_slow] returns: below the field length
    the source bit at that offset from the start, above it the field's
    top bit for a signed type and zero for an unsigned one. *)
Lemma bfe_slow_testbit T src bit_start num_bits i :
  0 < sizeof T -> in_range T src -> 0 <= i ->
  let pos := Z.land bit_start 255 in
  let len := Z.land num_bits 255 in
  Z.testbit (bfe_slow T src bit_start num_bits) i =
    if i <? len then Z.testbit src (pos + i)
    else is_signed T && (0 <? len) && Z.testbit src (pos + len - 1).
Proof.
  intros HT Hin Hi pos len.
  assert (0 <= pos) by (apply Z.land_nonneg; lia).
  assert (0 <= len) by (apply Z.land_nonneg; lia).
  pose proof (bit_width_pos T HT) as HW.
  pose proof (fun k => in_range_high T src k HT Hin) as Hhigh.
  unfold bfe_slow. fold pos len.
  change (CHAR_BIT * sizeof T) with (bit_width T) in *.
  set (W := bit_width T) in *.
  replace (W - 1 + 1) with W by lia.
  set (bs := fun i0 : Z => _).
  pose proof (to_ullong_range (Z.to_nat W) bs) as Hr.
  rewrite Z2Nat.id in Hr by lia.
  rewrite to_T_testbit by (done || lia). fold W.
  rewrite to_ullong_testbit by (destruct (is_signed T); lia).
  rewrite Z2Nat.id by lia. unfold bs.
  destruct (is_signed T); simpl in *;
  repeat match goal with
         | |- context [?a <? ?b] => destruct (Z.ltb_spec a b)
         | |- context [?a <=? ?b] => destruct (Z.leb_spec a b)
         | |- context [?a =? ?b] => destruct (Z.eqb_spec a b)
         end; simpl; try lia; try done;
  try (rewrite !Hhigh by lia; done);
  try (f_equal; lia);
  repeat match goal with
         | |- context [Z.min ?a ?b] =>
             destruct (Z.min_spec a b) as [[? ->]|[? ->]]
         end;
  try done; try (rewrite !Hhigh by lia; done); f_equal; lia.
Qed.

Lemma to_T_0 T : 0 < sizeof T -> to_T T 0 = 0.
Proof.
  intros HT. apply bit_width_pos in HT. unfold to_T.
  rewrite Z.mod_0_l by (apply Z.pow_nonzero; lia).
  assert (0 < 2 ^ (bit_width T - 1)) by (apply Z.pow_pos_nonneg; lia).
  destruct (is_signed T); simpl; [|done].
  by destruct (Z.leb_spec (2 ^ (bit_width T - 1)) 0); [lia|].
Qed.

(** *** What [bfe_slow] computes *)

(** X1.  For an unsigned element type of at most eight bytes and a
    source that is a value of that type, [bfe_slow] returns the source
    shifted right by the low byte of [bit_start] and masked to as many
    low bits as the low byte of [num_bits] says. *)
Theorem bfe_slow_unsigned T source bit_start num_bits :
  is_signed T = false -> 0 < sizeof T <= 8 -> in_range T source ->
  bfe_slow T source bit_start num_bits =
    Z.land (Z.shiftr source (Z.land bit_start 255))
           (Z.ones (Z.land num_bits 255)).
Proof.
  intros Hu HT Hin.
  assert (0 <= Z.land bit_start 255) by (apply Z.land_nonneg; lia).
  assert (0 <= Z.land num_bits 255) by (apply Z.land_nonneg; lia).
  apply Z.bits_inj'. intros i Hi.
  rewrite bfe_slow_testbit by (done || lia). cbv zeta.
  rewrite Z.land_spec, Z.shiftr_spec, Z.testbit_ones_nonneg by lia.
  rewrite Hu, (Z.add_comm i). simpl.
  destruct (i <? Z.land num_bits 255); by rewrite ?andb_true_r, ?andb_false_r.
Qed.

(** X2.  For a signed element type of at most eight bytes, a source that
    is a value of that type and a field of at least one bit, [bfe_slow]
    returns the field read as a two's complement number: the source
    shifted right (arithmetically) by the start, masked to the field
    length, minus two to the field length when the field's top bit is
    set. *)
Theorem bfe_slow_signed T source bit_start num_bits :
  let pos := Z.land bit_start 255 in
  let len := Z.land num_bits 255 in
  is_signed T = true -> 0 < sizeof T <= 8 -> in_range T source ->
  0 < len ->
  bfe_slow T source bit_start num_bits =
    Z.land (Z.shiftr source pos) (Z.ones len)
    - (if Z.testbit source (pos + len - 1) then 2 ^ len else 0).
Proof.
  intros pos len Hs HT Hin Hlen.
  assert (0 <= pos) by (apply Z.land_nonneg; lia).
  apply Z.bits_inj'. intros i Hi.
  rewrite bfe_slow_testbit by (done || lia). cbv zeta. fold pos len.
  rewrite Hs. simpl.
  replace (0 <? len) with true by (symmetry; apply Z.ltb_lt; lia). simpl.
  rewrite Z.land_ones by lia.
  set (m := Z.shiftr source pos mod 2 ^ len).
  set (c := if Z.testbit source (pos + len - 1) then 2 ^ len else 0).
  assert (0 < 2 ^ len) by (apply Z.pow_pos_nonneg; lia).
  assert (0 <= m < 2 ^ len) by (apply Z.mod_pos_bound; lia).
  destruct (Z.ltb_spec i len).
  - rewrite <- (Z.mod_pow2_bits_low (m - c) len) by lia.
    replace ((m - c) mod 2 ^ len) with m.
    + unfold m. rewrite Z.mod_pow2_bits_low, Z.shiftr_spec by lia.
      f_equal; lia.
    + unfold c. destruct (Z.testbit source (pos + len - 1)).
      * replace (m - 2 ^ len) with (m + (-1) * 2 ^ len) by lia.
        by rewrite Z.mod_add, Z.mod_small by lia.
      * by rewrite Z.sub_0_r, Z.mod_small by lia.
  - rewrite (testbit_high (m - c) len)
      by (unfold c; destruct (Z.testbit source (pos + len - 1)); lia).
    unfold c. destruct (Z.testbit source (pos + len - 1)); symmetry.
    + apply Z.ltb_lt. lia.
    + apply Z.ltb_ge. lia.
Qed.

(** X3.  A field of length zero (the low byte of [num_bits] is zero)
    extracts to zero, whatever the source, the start and the signedness
    of the element type. *)
Theorem bfe_slow_zero_length T source bit_start num_bits :
  0 < sizeof T <= 8 -> Z.land num_bits 255 = 0 ->
  bfe_slow T source bit_start num_bits = 0.
Proof.
  intros HT Hlen. unfold bfe_slow.
  rewrite Hlen. rewrite orb_true_r.
  match goal with |- to_T T ?u = 0 => replace u with 0 end;
    [apply to_T_0; lia|].
  symmetry. apply Z.bits_inj'. intros i Hi.
  rewrite to_ullong_testbit, Z.bits_0 by lia.
  replace (i <? 0) with false by (symmetry; apply Z.ltb_ge; lia).
  apply andb_false_r.
Qed.

(** X4.  When a non-empty field reaches the top bit of the element type
    or runs past it, the length no longer matters: [bfe_slow] returns
    the source shifted right by the start, arithmetically for a signed
    type.  With start zero this is the source itself. *)
Theorem bfe_slow_field_reaches_top T source bit_start num_bits :
  let pos := Z.land bit_start 255 in
  let len := Z.land num_bits 255 in
  0 < sizeof T <= 8 -> in_range T source ->
  0 < len -> bit_width T <= pos + len ->
  bfe_slow T source bit_start num_bits = Z.shiftr source pos.
Proof.
  intros pos len HT Hin Hlen Htop.
  assert (0 <= pos) by (apply Z.land_nonneg; lia).
  apply Z.bits_inj'. intros i Hi.
  rewrite bfe_slow_testbit by (done || lia). cbv zeta. fold pos len.
  rewrite Z.shiftr_spec by lia.
  destruct (Z.ltb_spec i len); [f_equal; lia|].
  replace (0 <? len) with true by (symmetry; apply Z.ltb_lt; lia).
  rewrite andb_true_r.
  rewrite (in_range_high T source (i + pos)) by
    (done || lia || destruct (is_signed T); lia).
  destruct (is_signed T) eqn:Hs; simpl; [|done].
  rewrite (in_range_high T source (pos + len - 1))
    by (done || lia || (rewrite Hs; lia)).
  by rewrite Hs.
Qed.

(** X5.  When the start lies beyond the top bit of the element type no
    source bit is in the field: an unsigned type and an empty field
    give zero, a signed type with a non-empty field gives the sign of
    the source spread over the whole word (minus one for a negative
    source, zero otherwise). *)
Theorem bfe_slow_start_beyond_top T source bit_start num_bits :
  0 < sizeof T <= 8 -> in_range T source ->
  bit_width T <= Z.land bit_start 255 ->
  bfe_slow T source bit_start num_bits =
    if is_signed T && (0 <? Z.land num_bits 255) && (source <? 0)
    then -1 else 0.
Proof.
  intros HT Hin Htop.
  assert (0 <= Z.land num_bits 255) by (apply Z.land_nonneg; lia).
  pose proof (fun k => in_range_high T source k ltac:(lia) Hin) as Hhigh.
  apply Z.bits_inj'. intros i Hi.
  rewrite bfe_slow_testbit by (done || lia). cbv zeta.
  transitivity (is_signed T && (0 <? Z.land num_bits 255) && (source <? 0)).
  - destruct (Z.ltb_spec i (Z.land num_bits 255)).
    + rewrite Hhigh by (destruct (is_signed T); lia).
      replace (0 <? Z.land num_bits 255) with true
        by (symmetry; apply Z.ltb_lt; lia).
      by rewrite andb_true_r.
    + destruct (is_signed T) eqn:Hs; [|done]. simpl.
      destruct (Z.ltb_spec 0 (Z.land num_bits 255)); [|done]. simpl.
      rewrite Hhigh by (rewrite ?Hs; lia). by rewrite ?Hs.
  - destruct (is_signed T && (0 <? Z.land num_bits 255) && (source <? 0)).
    + by rewrite Z.bits_m1.
    + by rewrite Z.bits_0.
Qed.

(** X6.  Only the low byte of [bit_start] and of [num_bits] is looked
    at: adding any multiple of 256 to either changes nothing. *)
Theorem bfe_slow_wraps_at_256 T source bit_start num_bits a b :
  bfe_slow T source (bit_start + 256 * a) (num_bits + 256 * b) =
  bfe_slow T source bit_start num_bits.
Proof.
  unfold bfe_slow.
  change 255 with (Z.ones 8). rewrite !Z.land_ones by lia.
  change (2 ^ 8) with 256.
  by rewrite !(Z.mul_comm 256), !Z.mod_add by lia.
Qed.

(** *** The properties of [bfe_slow] at concrete inputs *)

Lemma bfe_slow_unsigned_witness :
  in_range uint32_t 0xABCD1234 ∧
  bfe_slow uint32_t 0xABCD1234 8 12 =
    Z.land (Z.shiftr 0xABCD1234 (Z.land 8 255)) (Z.ones (Z.land 12 255)).
Proof.
  assert (in_range uint32_t 0xABCD1234) as Hin by (vm_compute; done).
  split; [exact Hin|].
  apply (bfe_slow_unsigned uint32_t 0xABCD1234 8 12);
    [reflexivity|simpl; lia|exact Hin].
Defined.

Lemma bfe_slow_signed_witness :
  in_range int32_t (-1234) ∧ 0 < Z.land 8 255 ∧
  bfe_slow int32_t (-1234) 4 8 =
    Z.land (Z.shiftr (-1234) (Z.land 4 255)) (Z.ones (Z.land 8 255))
    - (if Z.testbit (-1234) (Z.land 4 255 + Z.land 8 255 - 1)
       then 2 ^ Z.land 8 255 else 0).
Proof.
  assert (in_range int32_t (-1234)) as Hin by (vm_compute; done).
  assert (0 < Z.land 8 255) as Hlen by reflexivity.
  split; [exact Hin|]. split; [exact Hlen|].
  apply (bfe_slow_signed int32_t (-1234) 4 8);
    [reflexivity|simpl; lia|exact Hin|exact Hlen].
Defined.

Lemma bfe_slow_zero_length_witness :
  Z.land 256 255 = 0 ∧ bfe_slow int64_t (-1234) 4 256 = 0.
Proof.
  split; [reflexivity|].
  apply (bfe_slow_zero_length int64_t (-1234) 4 256);
    [simpl; lia|reflexivity].
Defined.

Lemma bfe_slow_field_reaches_top_witness :
  in_range int32_t (-1234) ∧ 0 < Z.land 40 255 ∧
  bit_width int32_t <= Z.land 20 255 + Z.land 40 255 ∧
  bfe_slow int32_t (-1234) 20 40 = Z.shiftr (-1234) (Z.land 20 255).
Proof.
  assert (in_range int32_t (-1234)) as Hin by (vm_compute; done).
  assert (0 < Z.land 40 255) as Hlen by reflexivity.
  assert (bit_width int32_t <= Z.land 20 255 + Z.land 40 255) as Htop
    by (vm_compute; discriminate).
  split; [exact Hin|]. split; [exact Hlen|]. split; [exact Htop|].
  apply (bfe_slow_field_reaches_top int32_t (-1234) 20 40);
    [simpl; lia|exact Hin|exact Hlen|exact Htop].
Defined.

Lemma bfe_slow_start_beyond_top_witness :
  in_range int32_t (-5) ∧ bit_width int32_t <= Z.land 100 255 ∧
  bfe_slow int32_t (-5) 100 3 =
    if is_signed int32_t && (0 <? Z.land 3 255) && (-5 <? 0) then -1 else 0.
Proof.
  assert (in_range int32_t (-5)) as Hin by (vm_compute; done).
  assert (bit_width int32_t <= Z.land 100 255) as Htop
    by (vm_compute; discriminate).
  split; [exact Hin|]. split; [exact Htop|].
  apply (bfe_slow_start_beyond_top int32_t (-5) 100 3);
    [simpl; lia|exact Hin|exact Htop].
Defined.


(** *** The kernels and the comparison loop of [test] *)

Lemma nth_map_seq (f : nat -> Z) N i d :
  (i < N)%nat -> nth i (map f (seq 0 N)) d = f i.
Proof.
  intros Hi.
  rewrite (nth_indep _ d (f 0%nat)) by (rewrite length_map, length_seq; lia).
  by rewrite map_nth, seq_nth by lia.
Qed.

(** X7.  The comparison loop adds one to [failed] for each visited index
    at which the two accessors read different values, and nothing else:
    its result is the initial count plus the number of such indices, so
    starting from zero it ends at zero exactly when the accessors agree
    at every visited index. *)
Theorem count_failed_counts_mismatches st a b idx failed :
  count_failed st a b idx failed
    = failed + Z.of_nat (length (mismatches st a b idx)) ∧
  (count_failed st a b idx 0 = 0 ↔
   Forall (fun i => read st a i = read st b i) idx).
Proof.
  assert (∀ failed, count_failed st a b idx failed
                    = failed + Z.of_nat (length (mismatches st a b idx))) as Hc.
  { clear failed. induction idx as [|i idx IH]; intros failed.
    - simpl. lia.
    - cbn [count_failed mismatches List.filter]. rewrite IH. unfold mismatches.
      destruct (negb (read st a i =? read st b i)); simpl length; lia. }
  split; [apply Hc|]. rewrite Hc. clear Hc. unfold mismatches.
  induction idx as [|i idx IH]; [by split; [constructor|]|].
  cbn [List.filter]. rewrite Forall_cons.
  destruct (Z.eqb_spec (read st a i) (read st b i)); simpl negb; cbv iota.
  - tauto.
  - simpl length. split; [lia|tauto].
Qed.

(** X8.  Both kernels do their work: once they have run, element [i] of
    [dpct_results_buffer] is what the routine under test returns for the
    [i]-th drawn source, start and length, element [i] of
    [slow_results_buffer] is what [bfe_slow] returns for them, and the
    three input buffers are as drawn.  The comparison of [test] then
    runs over these buffers, reading the first of them twice. *)
Theorem kernels_fill_both_result_buffers T bfe_safe rnd N i :
  (i < N)%nat ->
  let st0 := initial_store T rnd N in
  let st := kernels_done T bfe_safe rnd N in
  read st dpct_results_buffer i
    = bfe_safe (read st0 source_buffer i) (read st0 starts_buffer i)
               (read st0 lengths_buffer i) ∧
  read st slow_results_buffer i
    = bfe_slow T (read st0 source_buffer i) (read st0 starts_buffer i)
                 (read st0 lengths_buffer i) ∧
  st source_buffer = st0 source_buffer ∧
  st starts_buffer = st0 starts_buffer ∧
  st lengths_buffer = st0 lengths_buffer ∧
  test T bfe_safe rnd N
    = (count_failed st dpct_results_buffer dpct_results_buffer (seq 0 N) 0,
       count_failed st dpct_results_buffer dpct_results_buffer (seq 0 N) 0 =? 0).
Proof.
  intros Hi st0 st. split_and!; try reflexivity;
  unfold st, kernels_done, parallel_for, read, write_buffer;
  cbn [buffer_eqb]; by rewrite !nth_map_seq.
Qed.

Lemma kernels_fill_both_result_buffers_witness :
  let bfe_safe := λ _ _ _ : Z, 7 in
  let rnd := λ k : nat, Z.of_nat k * 12345 in
  let st0 := initial_store uint32_t rnd 5 in
  let st := kernels_done uint32_t bfe_safe rnd 5 in
  (3 < 5)%nat ∧
  read st dpct_results_buffer 3
    = bfe_safe (read st0 source_buffer 3) (read st0 starts_buffer 3)
               (read st0 lengths_buffer 3) ∧
  read st slow_results_buffer 3
    = bfe_slow uint32_t (read st0 source_buffer 3) (read st0 starts_buffer 3)
                        (read st0 lengths_buffer 3) ∧
  st source_buffer = st0 source_buffer ∧
  st starts_buffer = st0 starts_buffer ∧
  st lengths_buffer = st0 lengths_buffer ∧
  test uint32_t bfe_safe rnd 5
    = (count_failed st dpct_results_buffer dpct_results_buffer (seq 0 5) 0,
       count_failed st dpct_results_buffer dpct_results_buffer (seq 0 5) 0 =? 0).
Proof.
  intros bfe_safe rnd st0 st.
  assert (3 < 5)%nat as Hi by lia.
  split; [exact Hi|].
  exact (kernels_fill_both_result_buffers uint32_t bfe_safe rnd 5 3 Hi).
Defined.

End MathBfeProps.
